(** * edx-enterprise: admin views and model signal handlers

    A shallow embedding of [enterprise/admin/views.py] and
    [enterprise/signals.py].  The handlers are glue code: they read and
    write ORM tables, call sibling services over HTTP, log, and report
    to the admin user.  Each handler is embedded as a computation in a
    small state-and-exception monad over a world that holds the tables
    the handler touches and the ordered trace of its observable
    effects. *)

From stdpp Require Import base strings list gmap sets pretty.

Local Open Scope string_scope.
Local Open Scope list_scope.

(** ** Python exceptions and the handler monad *)

(** The body of an [HttpClientError] is [exc.content], read by
    [json.loads(exc.content.decode()).get("message", ...)]: bytes that
    are no UTF-8 text, text that is no JSON, JSON that is no object (an
    array, string, number, boolean or null), or a JSON object with or
    without a ["message"]. *)
Inductive error_content :=
  | JsonObject (message : option string)
  | JsonNotObject
  | NotJson
  | NotText.

#[global] Instance error_content_eq_dec : EqDecision error_content.
Proof. solve_decision. Defined.

Inductive exception :=
  | DoesNotExist (model : string)
  | MultipleObjectsReturned (model : string)
  | ValidationError (message : string)
  | HttpClientError (content : error_content)
  | NotConnectedToOpenEdX
  | JSONDecodeError
  | OtherError (name : string).

#[global] Instance exception_eq_dec : EqDecision exception.
Proof. solve_decision. Defined.

(** A computation over a world [W] ends by returning a value or by
    raising; the world reached so far is kept in both cases. *)
Definition M (W A : Type) : Type := W → (A + exception) * W.

Definition ret {W A} (a : A) : M W A := λ w, (inl a, w).
Definition raise {W A} (e : exception) : M W A := λ w, (inr e, w).
Definition bind {W A B} (m : M W A) (k : A → M W B) : M W B :=
  λ w, match m w with
       | (inl a, w') => k a w'
       | (inr e, w') => (inr e, w')
       end.
Definition gets {W A} (f : W → A) : M W A := λ w, (inl (f w), w).
Definition modify {W} (f : W → W) : M W unit := λ w, (inl tt, f w).

(** [try: m except: h]: the handler [h] selects the exceptions it
    catches; every other exception propagates. *)
Definition try_except {W A} (m : M W A) (h : exception → option (M W A)) : M W A :=
  λ w, match m w with
       | (inl a, w') => (inl a, w')
       | (inr e, w') => match h e with
                        | Some k => k w'
                        | None => (inr e, w')
                        end
       end.

(** [for x in xs: body], threading the loop's local variables [acc]. *)
Fixpoint for_each {W X L} (xs : list X) (body : X → L → M W L) (acc : L) : M W L :=
  match xs with
  | [] => ret acc
  | x :: rest => bind (body x acc) (for_each rest body)
  end.

#[global] Instance M_ret {W} : MRet (M W) := λ _ a, ret a.
#[global] Instance M_bind {W} : MBind (M W) := λ _ _ k m, bind m k.

(** ** The ORM's lookups *)

Module Django.

Inductive get_result (A : Type) :=
  | Found (a : A)
  | NoneFound
  | SeveralFound.
Arguments Found {A} a.
Arguments NoneFound {A}.
Arguments SeveralFound {A}.

(** [Model.objects.filter(...)] *)
Definition objects_filter {A} (p : A → bool) (rows : list A) : list A :=
  List.filter p rows.

(** The row count behind [Model.objects.get(...)]. *)
Definition get_rows {A} (p : A → bool) (rows : list A) : get_result A :=
  match objects_filter p rows with
  | [] => NoneFound
  | [a] => Found a
  | _ :: _ :: _ => SeveralFound
  end.

(** [Model.objects.get(...)]: the one matching row, else
    [Model.DoesNotExist] or [Model.MultipleObjectsReturned]. *)
Definition objects_get {W A} (model : string) (p : A → bool) (table : W → list A) : M W A :=
  λ w, match get_rows p (table w) with
       | Found a => (inl a, w)
       | NoneFound => (inr (DoesNotExist model), w)
       | SeveralFound => (inr (MultipleObjectsReturned model), w)
       end.

End Django.

(** ** The model rows the handlers touch

    [enterprise/models.py] is used through its fields only.  Foreign keys
    hold the key of the row they point to: an enterprise customer's UUID,
    a row's primary key. *)

Module Models.

Record User := { user_id : nat; email : string; username : string }.

Record EnterpriseCustomer :=
  { uuid : string; name : string; default_language : option string }.

Record PendingEnterpriseCustomerUser :=
  { pecu_pk : nat; enterprise_customer : string; user_email : string }.

Record PendingEnrollment :=
  { user : nat; course_id : string; course_mode : string }.

#[global] Instance PendingEnrollment_eq_dec : EqDecision PendingEnrollment.
Proof. solve_decision. Defined.

End Models.

(** ** enterprise/admin/views.py *)

Module Views.
Import Django Models.

(** What [EnrollmentApiClient.enroll_user_in_course] does with one
    request. *)
Inductive enroll_response :=
  | Enrolled
  | ClientError (content : error_content)
  | ServerError (name : string).

(** Text handed to [django.contrib.messages] and to [logging]; the
    translated templates are kept symbolic, with their arguments. *)
Inductive message_text :=
  | UsersEnrolled (enrolled_count : nat) (course : string)
  | NoAccountNotEnrolled (emails : list string)
  | EnrollmentFailed (emails : list string)
  | UsersLinked (count : nat) (customer : string)
  | AlreadyLinked (emails : list string)
  | DuplicatesIgnored (emails : list string).

Inductive form_field := EMAIL_OR_USERNAME | BULK_UPLOAD | GENERAL_ERRORS.

Inductive form_error :=
  | FieldError (message : string)
  | LineError (line : nat) (message : string)
  | BULK_LINK_FAILED.

(** Observable effects of the view, in the order they happen. *)
Inductive effect :=
  | link_user (customer : string) (email_to_link : string)
  | unlink_user (customer : string) (email_to_unlink : string)
  | enroll_user_in_course (name : string) (course : string) (mode : string)
  | logging_error (name : string) (error_message : string)
  | messages_success (text : message_text)
  | messages_warning (text : message_text)
  | messages_error (text : message_text)
  | form_add_error (field : form_field) (error : form_error).

Record World := {
  customers : list EnterpriseCustomer;
  auth_user : list User;
  pending_users : list PendingEnterpriseCustomerUser;
  pending_enrollments : list PendingEnrollment;
  enrollment_api : string → string → string → enroll_response;
  trace : list effect;
}.

(** The world after the effects [es]. *)
Definition extend_trace (es : list effect) (w : World) : World :=
  {| customers := customers w;
     auth_user := auth_user w;
     pending_users := pending_users w;
     pending_enrollments := pending_enrollments w;
     enrollment_api := enrollment_api w;
     trace := trace w ++ es |}.

Definition emit (e : effect) : M World unit := modify (extend_trace [e]).

Definition with_pending_enrollments (rows : list PendingEnrollment) (w : World) : World :=
  {| customers := customers w;
     auth_user := auth_user w;
     pending_users := pending_users w;
     pending_enrollments := rows;
     enrollment_api := enrollment_api w;
     trace := trace w |}.

Definition set_pending_enrollments (rows : list PendingEnrollment) : M World unit :=
  modify (with_pending_enrollments rows).

(** [enrollment_client.enroll_user_in_course(username, course_id, mode)]:
    one outbound request; a 4xx answer raises [HttpClientError] carrying
    the response body. *)
Definition call_enroll_user_in_course (name course mode : string) : M World unit :=
  emit (enroll_user_in_course name course mode);;
  api ← gets enrollment_api;
  match api name course mode with
  | Enrolled => mret tt
  | ClientError content => raise (HttpClientError content)
  | ServerError name => raise (OtherError name)
  end.

(** [PendingEnrollment.objects.update_or_create(user=..., course_id=...,
    course_mode=...)]: all three keywords are lookup keys and there are
    no [defaults], so a matching row is saved back unchanged and a
    missing one is created. *)
Definition PendingEnrollment_update_or_create (row : PendingEnrollment) : M World unit :=
  rows ← gets pending_enrollments;
  match get_rows (λ r, bool_decide (r = row)) rows with
  | Found _ => mret tt
  | NoneFound => set_pending_enrollments (rows ++ [row])
  | SeveralFound => raise (MultipleObjectsReturned "PendingEnrollment")
  end.

(** The three local lists of [_enroll_users]. *)
Record enroll_lists := {
  enrolled : list string;
  non_existing : list string;
  failed : list string;
}.

Definition no_lists : enroll_lists :=
  {| enrolled := []; non_existing := []; failed := [] |}.

(** Body of the loop [for email in emails] of [_enroll_users]. *)
Definition enroll_email (course mode : string) (addr : string) (ls : enroll_lists)
  : M World enroll_lists :=
  found ← try_except
    (u ← objects_get "User" (λ u, bool_decide (email u = addr)) auth_user;
     mret (Some (username u)))
    (λ e, if decide (e = DoesNotExist "User") then Some (mret None) else None);
  match found with
  | None =>
      mret {| enrolled := enrolled ls;
              non_existing := non_existing ls ++ [addr];
              failed := failed ls |}
  | Some name =>
      try_except
        (call_enroll_user_in_course name course mode;;
         mret {| enrolled := enrolled ls ++ [addr];
                 non_existing := non_existing ls;
                 failed := failed ls |})
        (λ e,
           match e with
           | HttpClientError content =>
               Some
                 (match content with
                  | NotText => raise (OtherError "UnicodeDecodeError")
                  | NotJson => raise JSONDecodeError
                  | JsonNotObject => raise (OtherError "AttributeError")
                  | JsonObject m =>
                      emit (logging_error name (default "No error message provided." m));;
                      mret {| enrolled := enrolled ls;
                              non_existing := non_existing ls;
                              failed := failed ls ++ [addr] |}
                  end)
           | _ => None
           end)
  end.

(** Lines 234-254: the loop over the emails. *)
Definition enroll_loop (emails : list string) (course mode : string)
  : M World enroll_lists :=
  for_each emails (enroll_email course mode) no_lists.

(** Body of the loop [for email in non_existing]. *)
Definition create_pending_enrollment (customer : EnterpriseCustomer)
  (course mode : string) (addr : string)
  (_ : unit) : M World unit :=
  pending_user ← objects_get "PendingEnterpriseCustomerUser"
    (λ p, bool_decide (enterprise_customer p = uuid customer) && bool_decide (user_email p = addr))
    pending_users;
  PendingEnrollment_update_or_create
    {| user := pecu_pk pending_user; course_id := course; course_mode := mode |}.

Definition when {W} (c : bool) (m : M W unit) : M W unit :=
  if c then m else ret tt.

Definition nonempty {A} (l : list A) : bool :=
  match l with [] => false | _ :: _ => true end.

(** [EnterpriseCustomerManageLearnersView._enroll_users] *)
Definition _enroll_users (customer : EnterpriseCustomer) (emails : list string)
  (course mode : string) : M World unit :=
  ls ← enroll_loop emails course mode;
  let enrolled_count := length (enrolled ls) in
  when (negb (Nat.eqb enrolled_count 0))
    (emit (messages_success (UsersEnrolled enrolled_count course)));;
  when (nonempty (non_existing ls))
    (emit (messages_warning (NoAccountNotEnrolled (non_existing ls)));;
     for_each (non_existing ls) (create_pending_enrollment customer course mode) tt);;
  when (nonempty (failed ls))
    (emit (messages_error (EnrollmentFailed (failed ls)))).

(** *** The three outcomes of an email in [_enroll_users]

    What the lookup of the account and the answer of the enrollment API
    make of one email, read off the world the handler starts in. *)
Definition account (w : World) (addr : string) : get_result User :=
  get_rows (λ u, bool_decide (email u = addr)) (auth_user w).

Definition has_account (w : World) (addr : string) : bool :=
  match account w addr with Found _ => true | _ => false end.

Definition has_no_account (w : World) (addr : string) : bool :=
  match account w addr with NoneFound => true | _ => false end.

Definition is_enrolled (w : World) (course mode addr : string) : bool :=
  match account w addr with
  | Found u =>
      match enrollment_api w (username u) course mode with
      | Enrolled => true
      | _ => false
      end
  | _ => false
  end.

Definition is_failed (w : World) (course mode addr : string) : bool :=
  match account w addr with
  | Found u =>
      match enrollment_api w (username u) course mode with
      | ClientError (JsonObject _) => true
      | _ => false
      end
  | _ => false
  end.

(** The cases the loop of [_enroll_users] provides for. *)
Definition foreseen (w : World) (course mode addr : string) : bool :=
  has_no_account w addr || is_enrolled w course mode addr || is_failed w course mode addr.

(** The three lists after the emails [addrs]. *)
Definition sorted_lists (w : World) (course mode : string) (addrs : list string)
  (ls : enroll_lists) : enroll_lists :=
  {| enrolled := enrolled ls ++ List.filter (is_enrolled w course mode) addrs;
     non_existing := non_existing ls ++ List.filter (has_no_account w) addrs;
     failed := failed ls ++ List.filter (is_failed w course mode) addrs |}.

(** The request and the log record one email gives rise to. *)
Definition email_effects (w : World) (course mode addr : string) : list effect :=
  match account w addr with
  | Found u =>
      enroll_user_in_course (username u) course mode ::
      match enrollment_api w (username u) course mode with
      | ClientError (JsonObject m) =>
          [logging_error (username u) (default "No error message provided." m)]
      | _ => []
      end
  | _ => []
  end.

(** The pending user record of an email for a customer. *)
Definition pending_user_of (w : World) (customer : EnterpriseCustomer) (addr : string)
  : get_result PendingEnterpriseCustomerUser :=
  get_rows
    (λ p, bool_decide (enterprise_customer p = uuid customer) && bool_decide (user_email p = addr))
    (pending_users w).

(** The pending enrollment [_enroll_users] asks for on behalf of [p]. *)
Definition pending_row (p : PendingEnterpriseCustomerUser) (course mode : string)
  : PendingEnrollment :=
  {| user := pecu_pk p; course_id := course; course_mode := mode |}.

(** The messages [_enroll_users] ends with. *)
Definition enroll_messages_before (course : string) (ls : enroll_lists) : list effect :=
  (if negb (Nat.eqb (length (enrolled ls)) 0)
   then [messages_success (UsersEnrolled (length (enrolled ls)) course)] else [])
  ++ (if nonempty (non_existing ls)
      then [messages_warning (NoAccountNotEnrolled (non_existing ls))] else []).

Definition enroll_messages_after (ls : enroll_lists) : list effect :=
  if nonempty (failed ls) then [messages_error (EnrollmentFailed (failed ls))] else [].

Definition is_link_user (e : effect) : bool :=
  match e with link_user _ _ => true | _ => false end.

Definition is_form_add_error (e : effect) : bool :=
  match e with form_add_error _ _ => true | _ => false end.

(** Outbound HTTP requests among the effects. *)
Definition is_http (e : effect) : bool :=
  match e with enroll_user_in_course _ _ _ => true | _ => false end.

Definition is_logging (e : effect) : bool :=
  match e with logging_error _ _ => true | _ => false end.

Definition requests (es : list effect) : nat := length (List.filter is_http es).

Definition is_message (e : effect) : bool :=
  match e with
  | messages_success _ | messages_warning _ | messages_error _ => true
  | _ => false
  end.

(** *** Linking learners

    [enterprise.admin.utils] is used through three helpers.  Within one
    run of a handler every call of [validate_email_to_link] comes before
    the first [link_user], so its answer is a function of its arguments:
    [inl message] when it raises [ValidationError(message)], [inr b] when
    it returns [b]. *)
Section Linking.
Variable email_or_username__to__email : string → string.
Variable validate_email_to_link : string → bool → string + bool.

(** A call of [validate_email_to_link] inside a handler. *)
Definition call_validate_email_to_link (addr : string) (ignore_existing : bool)
  : M World bool :=
  match validate_email_to_link addr ignore_existing with
  | inl message => raise (ValidationError message)
  | inr already_linked => mret already_linked
  end.

(** [EnterpriseCustomerManageLearnersView._handle_singular]; [None] is
    Python's implicit [return None]. *)
Definition _handle_singular (customer : EnterpriseCustomer) (form_field_value : string)
  : M World (option (list string)) :=
  let addr := email_or_username__to__email form_field_value in
  valid ← try_except
    (call_validate_email_to_link addr false;; mret true)
    (λ e,
       match e with
       | ValidationError message =>
           Some (emit (form_add_error EMAIL_OR_USERNAME (FieldError message));;
                 mret false)
       | _ => None
       end);
  if valid : bool then
    emit (link_user (uuid customer) addr);;
    mret (Some [addr])
  else mret None.

(** What iterating [parse_csv(csv_file, expected_columns={"email"})]
    yields: the email column of the rows, and the [ValidationError] that
    ends the iteration, if there is one. *)
Record parsed_csv := { rows : list string; csv_error : option string }.

(** The four local collections of [_handle_bulk_upload]. *)
Record bulk_lists := {
  errors : list form_error;
  emails : gset string;
  already_linked_emails : list string;
  duplicate_emails : list string;
}.

Definition no_bulk_lists : bulk_lists :=
  {| errors := []; emails := ∅; already_linked_emails := []; duplicate_emails := [] |}.

(** Body of [for index, row in enumerate(parsed_csv)]. *)
Definition bulk_row (index : nat) (addr : string) (ls : bulk_lists) : bulk_lists :=
  match validate_email_to_link addr true with
  | inl message =>
      {| errors := errors ls ++ [LineError (index + 1) message];
         emails := emails ls;
         already_linked_emails := already_linked_emails ls;
         duplicate_emails := duplicate_emails ls |}
  | inr already_linked =>
      if already_linked then
        {| errors := errors ls;
           emails := emails ls;
           already_linked_emails := already_linked_emails ls ++ [addr];
           duplicate_emails := duplicate_emails ls |}
      else if bool_decide (addr ∈ emails ls) then
        {| errors := errors ls;
           emails := emails ls;
           already_linked_emails := already_linked_emails ls;
           duplicate_emails := duplicate_emails ls ++ [addr] |}
      else
        {| errors := errors ls;
           emails := {[addr]} ∪ emails ls;
           already_linked_emails := already_linked_emails ls;
           duplicate_emails := duplicate_emails ls |}
  end.

Fixpoint bulk_rows (index : nat) (addrs : list string) (ls : bulk_lists) : bulk_lists :=
  match addrs with
  | [] => ls
  | addr :: rest => bulk_rows (S index) rest (bulk_row index addr ls)
  end.

(** How [validate_email_to_link(email, ignore_existing=True)] sorts an
    email: not linked yet, linked already, or rejected. *)
Definition is_new (addr : string) : bool :=
  match validate_email_to_link addr true with inr false => true | _ => false end.

Definition is_already_linked (addr : string) : bool :=
  match validate_email_to_link addr true with inr true => true | _ => false end.

Definition is_rejected (addr : string) : bool :=
  match validate_email_to_link addr true with inl _ => true | _ => false end.

(** Lines 162-184: the validation pass, with the outer [except]. *)
Definition bulk_validate (csv : parsed_csv) : bulk_lists :=
  let ls := bulk_rows 0 (rows csv) no_bulk_lists in
  match csv_error csv with
  | None => ls
  | Some message =>
      {| errors := errors ls ++ [FieldError message];
         emails := emails ls;
         already_linked_emails := already_linked_emails ls;
         duplicate_emails := duplicate_emails ls |}
  end.

(** [EnterpriseCustomerManageLearnersView._handle_bulk_upload] *)
Definition _handle_bulk_upload (customer : EnterpriseCustomer) (csv : parsed_csv)
  : M World (option (list string)) :=
  let ls := bulk_validate csv in
  if nonempty (errors ls) then
    emit (form_add_error GENERAL_ERRORS BULK_LINK_FAILED);;
    for_each (errors ls) (λ error _, emit (form_add_error BULK_UPLOAD error)) tt;;
    mret None
  else
    for_each (elements (emails ls)) (λ addr _, emit (link_user (uuid customer) addr)) tt;;
    let count := length (elements (emails ls)) in
    emit (messages_success (UsersLinked count (name customer)));;
    when (nonempty (already_linked_emails ls))
      (emit (messages_warning (AlreadyLinked (already_linked_emails ls))));;
    when (nonempty (duplicate_emails ls))
      (emit (messages_warning (DuplicatesIgnored (duplicate_emails ls))));;
    mret (Some (elements (emails ls) ++ already_linked_emails ls)%list).

End Linking.

(** *** Unlinking a learner *)

Inductive response_body :=
  | NotLinkedMessage (addr : string) (ec_name : string)
  | EmptyJson.

Record HttpResponse := { content : response_body; status : nat }.

(** [EnterpriseCustomerUser.objects.unlink_user] answers [None] when it
    returns and [Some e] when it raises [e]. *)
Section Unlinking.
Variable unlink_user_raises : string → string → option exception.

(** [EnterpriseCustomerManageLearnersView.delete]; [unlink_email] is
    [request.GET["unlink_email"]], missing when the key is. *)
Definition delete (unlink_email : option string) (customer_uuid : string)
  : M World HttpResponse :=
  customer ← objects_get "EnterpriseCustomer"
    (λ c, bool_decide (uuid c = customer_uuid)) customers;
  match unlink_email with
  | None => raise (OtherError "MultiValueDictKeyError")
  | Some email_to_unlink =>
      try_except
        (emit (unlink_user (uuid customer) email_to_unlink);;
         match unlink_user_raises (uuid customer) email_to_unlink with
         | Some e => raise e
         | None => mret {| content := EmptyJson; status := 200 |}
         end)
        (λ e, if bool_decide (e = DoesNotExist "EnterpriseCustomerUser")
                 || bool_decide (e = DoesNotExist "PendingEnterpriseCustomerUser")
              then Some (mret {| content := NotLinkedMessage email_to_unlink (name customer);
                                 status := 404 |})
              else None)
  end.

End Unlinking.

(** *** The pending enrollments after [_enroll_users]

    The table after the loop [for email in non_existing], as a function
    of the pending user records and of the table before. *)
Fixpoint pending_rows_after (records : list PendingEnterpriseCustomerUser)
  (customer : EnterpriseCustomer) (course mode : string) (addrs : list string)
  (table : list PendingEnrollment) : list PendingEnrollment :=
  match addrs with
  | [] => table
  | addr :: rest =>
      match get_rows
              (λ p, bool_decide (enterprise_customer p = uuid customer)
                    && bool_decide (user_email p = addr)) records with
      | Found p =>
          pending_rows_after records customer course mode rest
            (if bool_decide (pending_row p course mode ∈ table)
             then table else table ++ [pending_row p course mode])
      | _ => table
      end
  end.

(** *** Repeated rows

    The rows of [l] that [l] holds before already: every occurrence of
    a row after its first, in the order of [l]. *)
Definition later_occurrences (l : list string) : list string :=
  mjoin (imap (λ i x, if bool_decide (x ∈ take i l) then [x] else []) l).

(** How often [l] holds [a]. *)
Definition occurrences (a : string) (l : list string) : nat :=
  length (List.filter (λ x, bool_decide (x = a)) l).

End Views.

(** ** enterprise/signals.py *)

Module Signals.
Import Django Models.

Record EnterpriseCustomerUser := {
  ecu_pk : nat;
  ecu_enterprise_customer : EnterpriseCustomer;
  ecu_user_id : nat;
  ecu_user : option User;   (* the [user] property: the auth user, or None *)
  linked : bool;
  active : bool;
}.

Record PendingEnterpriseCustomerAdminUser :=
  { admin_pk : nat; admin_enterprise_customer : string; admin_user_email : string }.

(** [logo] is the file field; [unsaved_filefield] is the attribute
    [_UNSAVED_FILEFIELD], present ([Some]) or absent. *)
Record EnterpriseCustomerBrandingConfiguration := {
  id : option nat;
  logo : option string;
  unsaved_filefield : option (option string);
}.

Record EnterpriseCatalogQuery := {
  query_uuid : string;
  query_title : string;
  query_include_exec_ed_2u_courses : bool;
}.

Record EnterpriseCustomerCatalog := {
  catalog_uuid : string;
  catalog_enterprise_customer : EnterpriseCustomer;
  title : string;
  content_filter : string;
  enabled_course_modes : list string;
  publish_audit_enrollment_urls : bool;
  enterprise_catalog_query : option EnterpriseCatalogQuery;
}.

Record CourseEnrollment := { enrollment_user : option User; enrollment_course_id : string }.

(** The fields sent to the enterprise-catalog service on create and on
    update. *)
Record catalog_fields := {
  f_enterprise_customer : string;
  f_enterprise_customer_name : string;
  f_title : string;
  f_content_filter : string;
  f_enabled_course_modes : list string;
  f_publish_audit_enrollment_urls : bool;
  f_catalog_query_uuid : option string;
  f_query_title : option string;
  f_include_exec_ed_2u_courses : bool;
}.

(** Requests of [EnterpriseCatalogApiClient]. *)
Inductive request :=
  | get_enterprise_catalog (catalog : string) (should_raise_exception : bool)
  | create_enterprise_catalog (catalog : string) (fields : catalog_fields)
  | update_enterprise_catalog (catalog : string) (fields : catalog_fields)
  | refresh_catalogs (catalogs : list string)
  | delete_enterprise_catalog (catalog : string).

Inductive channel :=
  | Blackboard | Canvas | Cornerstone | Degreed | Degreed2 | Moodle | SAPSuccessFactors.

Definition INTEGRATED_CHANNELS : list channel :=
  [Blackboard; Canvas; Cornerstone; Degreed; Degreed2; Moodle; SAPSuccessFactors].

Definition DEFAULT_COUNTDOWN : nat := 3.

(** Celery tasks, and the callback handed to [transaction.on_commit]. *)
Inductive task :=
  | create_enterprise_enrollment (course : string) (ecu_id : nat)
  | mark_orphaned_content_metadata_audit.

Inductive callback :=
  | submit_task (course : string) (ecu_id : nat) (countdown : nat).

Inductive log_text :=
  | UnableToUpdateCatalog (catalog : string)
  | UnableToDeleteCatalog (catalog : string)
  | OrphanAuditTask (catalog : string)
  | SeveralActiveEnterpriseCustomerUsers (user : nat) (course : string)
  | SpinningOffTask (user : nat).

(** Observable effects of the receivers, in the order they happen. *)
Inductive effect :=
  | http (r : request)
  | assign_learner_role (u : User) (customer : string)
  | delete_learner_role_assignment (u : User) (customer : string)
  | delete_admin_role_assignment (u : User) (customer : string)
  | unset_enterprise_learner_language (ecu : nat)
  | logger_exception (text : log_text) (exc : exception)
  | logger_info (text : log_text)
  | logger_warning (text : log_text)
  | apply_async (t : task) (countdown : option nat)
  | transaction_on_commit (f : callback).

Record World := {
  enterprise_customer_users : list EnterpriseCustomerUser;
  pending_admin_users : list PendingEnterpriseCustomerAdminUser;
  pending_users : list PendingEnterpriseCustomerUser;
  branding_configurations : gmap nat (option string);
  (* the surroundings *)
  catalog_client_connected : bool;
  catalog_service : string → bool → bool + exception;
  active_channel_configuration : channel → string → bool;
  CREATE_ENTERPRISE_ENROLLMENT_TASK_COUNTDOWN : option nat;
  trace : list effect;
}.

(** The world after the effects [es]. *)
Definition extend_trace (es : list effect) (w : World) : World :=
  {| enterprise_customer_users := enterprise_customer_users w;
     pending_admin_users := pending_admin_users w;
     pending_users := pending_users w;
     branding_configurations := branding_configurations w;
     catalog_client_connected := catalog_client_connected w;
     catalog_service := catalog_service w;
     active_channel_configuration := active_channel_configuration w;
     CREATE_ENTERPRISE_ENROLLMENT_TASK_COUNTDOWN := CREATE_ENTERPRISE_ENROLLMENT_TASK_COUNTDOWN w;
     trace := trace w ++ es |}.

Definition emit (e : effect) : M World unit := modify (extend_trace [e]).

Definition with_pending_users (rows : list PendingEnterpriseCustomerUser) (w : World) : World :=
  {| enterprise_customer_users := enterprise_customer_users w;
     pending_admin_users := pending_admin_users w;
     pending_users := rows;
     branding_configurations := branding_configurations w;
     catalog_client_connected := catalog_client_connected w;
     catalog_service := catalog_service w;
     active_channel_configuration := active_channel_configuration w;
     CREATE_ENTERPRISE_ENROLLMENT_TASK_COUNTDOWN := CREATE_ENTERPRISE_ENROLLMENT_TASK_COUNTDOWN w;
     trace := trace w |}.

Definition set_pending_users (rows : list PendingEnterpriseCustomerUser) : M World unit :=
  modify (with_pending_users rows).

Definition with_pending_admin_users (rows : list PendingEnterpriseCustomerAdminUser) (w : World) : World :=
  {| enterprise_customer_users := enterprise_customer_users w;
     pending_admin_users := rows;
     pending_users := pending_users w;
     branding_configurations := branding_configurations w;
     catalog_client_connected := catalog_client_connected w;
     catalog_service := catalog_service w;
     active_channel_configuration := active_channel_configuration w;
     CREATE_ENTERPRISE_ENROLLMENT_TASK_COUNTDOWN := CREATE_ENTERPRISE_ENROLLMENT_TASK_COUNTDOWN w;
     trace := trace w |}.

Definition set_pending_admin_users (rows : list PendingEnterpriseCustomerAdminUser) : M World unit :=
  modify (with_pending_admin_users rows).

Definition with_branding_configurations (rows : gmap nat (option string)) (w : World) : World :=
  {| enterprise_customer_users := enterprise_customer_users w;
     pending_admin_users := pending_admin_users w;
     pending_users := pending_users w;
     branding_configurations := rows;
     catalog_client_connected := catalog_client_connected w;
     catalog_service := catalog_service w;
     active_channel_configuration := active_channel_configuration w;
     CREATE_ENTERPRISE_ENROLLMENT_TASK_COUNTDOWN := CREATE_ENTERPRISE_ENROLLMENT_TASK_COUNTDOWN w;
     trace := trace w |}.

Definition set_branding_configurations (rows : gmap nat (option string)) : M World unit :=
  modify (with_branding_configurations rows).

(** Python truthiness of an integer key that may be [None]. *)
Definition truthy_id (i : option nat) : bool :=
  match i with
  | Some (S _) => true
  | Some 0 | None => false
  end.

(** Python truthiness of a string that may be [None]. *)
Definition truthy_string (s : option string) : bool :=
  match s with
  | Some "" | None => false
  | Some _ => true
  end.

(** The key an auto-increment column gives to a new row. *)
Definition next_pk (pks : list nat) : nat := S (max_list pks).

Definition when (c : bool) (m : M World unit) : M World unit :=
  if c then m else ret tt.

(** *** Branding configuration: the logo is saved after the row exists *)

(** [skip_saving_logo_file], a [pre_save] receiver. *)
Definition skip_saving_logo_file (instance : EnterpriseCustomerBrandingConfiguration)
  : EnterpriseCustomerBrandingConfiguration :=
  if negb (truthy_id (id instance)) && negb (bool_decide (is_Some (unsaved_filefield instance)))
  then {| id := id instance; logo := None; unsaved_filefield := Some (logo instance) |}
  else instance.

(** [save_logo_file], a [post_save] receiver; [save] is [instance.save]. *)
Definition save_logo_file
  (save : EnterpriseCustomerBrandingConfiguration → M World EnterpriseCustomerBrandingConfiguration)
  (instance : EnterpriseCustomerBrandingConfiguration) (created : bool)
  : M World EnterpriseCustomerBrandingConfiguration :=
  match unsaved_filefield instance with
  | Some stashed =>
      if created
      then save {| id := id instance; logo := stashed; unsaved_filefield := None |}
      else mret instance
  | None => mret instance
  end.

(** The write between the two signals: an instance whose key names a
    stored row updates it, any other instance is inserted, under its own
    key or under a new one.  Answers the instance and [created]. *)
Definition write_branding_configuration (instance : EnterpriseCustomerBrandingConfiguration)
  : M World (EnterpriseCustomerBrandingConfiguration * bool) :=
  rows ← gets branding_configurations;
  match id instance with
  | Some pk =>
      set_branding_configurations (<[pk := logo instance]> rows);;
      mret (instance, negb (bool_decide (is_Some (rows !! pk))))
  | None =>
      let pk := next_pk (elements (dom rows)) in
      set_branding_configurations (<[pk := logo instance]> rows);;
      mret ({| id := Some pk; logo := logo instance;
               unsaved_filefield := unsaved_filefield instance |}, true)
  end.

(** [EnterpriseCustomerBrandingConfiguration.save]: [pre_save], the
    write, [post_save].  [depth] bounds the nesting of [save] inside
    [save]; Python raises [RecursionError] at its own bound. *)
Fixpoint save_branding_configuration (depth : nat)
  (instance : EnterpriseCustomerBrandingConfiguration)
  : M World EnterpriseCustomerBrandingConfiguration :=
  match depth with
  | 0 => raise (OtherError "RecursionError")
  | S depth' =>
      written ← write_branding_configuration (skip_saving_logo_file instance);
      save_logo_file (save_branding_configuration depth') written.1 written.2
  end.

(** A configuration as the model's constructor builds it. *)
Definition new_branding_configuration (file : option string)
  : EnterpriseCustomerBrandingConfiguration :=
  {| id := None; logo := file; unsaved_filefield := None |}.

(** *** Roles of an [EnterpriseCustomerUser] *)

(** [delete_enterprise_admin_role_assignment], a [post_delete] receiver. *)
Definition delete_enterprise_admin_role_assignment (instance : EnterpriseCustomerUser)
  : M World unit :=
  match ecu_user instance with
  | Some u => emit (delete_admin_role_assignment u (uuid (ecu_enterprise_customer instance)))
  | None => mret tt
  end.

(** [assign_or_delete_enterprise_learner_role], a [post_save] receiver. *)
Definition assign_or_delete_enterprise_learner_role (instance : EnterpriseCustomerUser)
  (created : bool) : M World unit :=
  match ecu_user instance with
  | None => mret tt
  | Some u =>
      if created then
        emit (assign_learner_role u (uuid (ecu_enterprise_customer instance)))
      else if linked instance then
        emit (assign_learner_role u (uuid (ecu_enterprise_customer instance)))
      else
        emit (delete_learner_role_assignment u (uuid (ecu_enterprise_customer instance)))
  end.

(** [delete_enterprise_learner_role_assignment], a [post_delete] receiver. *)
Definition delete_enterprise_learner_role_assignment (instance : EnterpriseCustomerUser)
  : M World unit :=
  match ecu_user instance with
  | None => mret tt
  | Some u => emit (delete_learner_role_assignment u (uuid (ecu_enterprise_customer instance)))
  end.

(** [update_learner_language_preference], a [post_save] receiver. *)
Definition update_learner_language_preference (instance : EnterpriseCustomerUser)
  (created : bool) : M World unit :=
  when (created && truthy_string (default_language (ecu_enterprise_customer instance)))
    (emit (unset_enterprise_learner_language (ecu_pk instance))).

(** The receivers connected to [EnterpriseCustomerUser], in the order
    the module connects them. *)
Definition post_save_EnterpriseCustomerUser (instance : EnterpriseCustomerUser)
  (created : bool) : M World unit :=
  assign_or_delete_enterprise_learner_role instance created;;
  update_learner_language_preference instance created.

Definition post_delete_EnterpriseCustomerUser (instance : EnterpriseCustomerUser)
  : M World unit :=
  delete_enterprise_admin_role_assignment instance;;
  delete_enterprise_learner_role_assignment instance.

(** *** Pending admin users and their pending user records *)

Definition same_customer_and_email (instance : PendingEnterpriseCustomerAdminUser)
  (p : PendingEnterpriseCustomerUser) : bool :=
  bool_decide (enterprise_customer p = admin_enterprise_customer instance)
  && bool_decide (user_email p = admin_user_email instance).

(** [create_pending_enterprise_admin_user], a [post_save] receiver:
    [PendingEnterpriseCustomerUser.objects.get_or_create]. *)
Definition create_pending_enterprise_admin_user (instance : PendingEnterpriseCustomerAdminUser)
  : M World unit :=
  rows ← gets pending_users;
  match get_rows (same_customer_and_email instance) rows with
  | Found _ => mret tt
  | NoneFound =>
      set_pending_users
        (rows ++ [{| pecu_pk := next_pk (pecu_pk <$> rows);
                     enterprise_customer := admin_enterprise_customer instance;
                     user_email := admin_user_email instance |}])
  | SeveralFound => raise (MultipleObjectsReturned "PendingEnterpriseCustomerUser")
  end.

(** [delete_pending_enterprise_admin_user], a [post_delete] receiver:
    [PendingEnterpriseCustomerUser.objects.filter(...).delete()]. *)
Definition delete_pending_enterprise_admin_user (instance : PendingEnterpriseCustomerAdminUser)
  : M World unit :=
  rows ← gets pending_users;
  set_pending_users (objects_filter (λ p, negb (same_customer_and_email instance p)) rows).

(** Saving a [PendingEnterpriseCustomerAdminUser]: the row is written
    under its key, then [post_save] is sent. *)
Definition save_pending_admin_user (instance : PendingEnterpriseCustomerAdminUser)
  : M World unit :=
  rows ← gets pending_admin_users;
  set_pending_admin_users
    (if existsb (λ a, bool_decide (admin_pk a = admin_pk instance)) rows
     then (λ a, if bool_decide (admin_pk a = admin_pk instance) then instance else a) <$> rows
     else rows ++ [instance]);;
  create_pending_enterprise_admin_user instance.

(** Deleting one: the row is removed, then [post_delete] is sent. *)
Definition delete_pending_admin_user (instance : PendingEnterpriseCustomerAdminUser)
  : M World unit :=
  rows ← gets pending_admin_users;
  set_pending_admin_users
    (objects_filter (λ a, negb (bool_decide (admin_pk a = admin_pk instance))) rows);;
  delete_pending_enterprise_admin_user instance.

(** *** Catalogs and the enterprise-catalog service *)

(** [EnterpriseCatalogApiClient()] *)
Definition EnterpriseCatalogApiClient : M World unit :=
  connected ← gets catalog_client_connected;
  if connected : bool then mret tt else raise NotConnectedToOpenEdX.

(** [catalog_client.get_enterprise_catalog(...)]: the answer is the
    truth value of the response, or an exception. *)
Definition client_get_enterprise_catalog (catalog : string) (should_raise_exception : bool)
  : M World bool :=
  emit (http (get_enterprise_catalog catalog should_raise_exception));;
  service ← gets catalog_service;
  match service catalog should_raise_exception with
  | inl response => mret response
  | inr e => raise e
  end.

Definition fields_of (instance : EnterpriseCustomerCatalog) : catalog_fields :=
  {| f_enterprise_customer := uuid (catalog_enterprise_customer instance);
     f_enterprise_customer_name := name (catalog_enterprise_customer instance);
     f_title := title instance;
     f_content_filter := content_filter instance;
     f_enabled_course_modes := enabled_course_modes instance;
     f_publish_audit_enrollment_urls := publish_audit_enrollment_urls instance;
     f_catalog_query_uuid := query_uuid <$> enterprise_catalog_query instance;
     f_query_title := query_title <$> enterprise_catalog_query instance;
     f_include_exec_ed_2u_courses :=
       from_option query_include_exec_ed_2u_courses false (enterprise_catalog_query instance) |}.

(** [update_enterprise_catalog_data], a [post_save] receiver. *)
Definition update_enterprise_catalog_data (instance : EnterpriseCustomerCatalog)
  (created : bool) : M World unit :=
  answer ← try_except
    (EnterpriseCatalogApiClient;;
     response ← client_get_enterprise_catalog (catalog_uuid instance) (negb created);
     mret (Some response))
    (λ e, if decide (e = NotConnectedToOpenEdX)
          then Some (emit (logger_exception (UnableToUpdateCatalog (catalog_uuid instance)) e);;
                     mret None)
          else None);
  match answer with
  | None => mret tt
  | Some response =>
      (if negb response
       then emit (http (create_enterprise_catalog (catalog_uuid instance) (fields_of instance)))
       else emit (http (update_enterprise_catalog (catalog_uuid instance) (fields_of instance))));;
      emit (http (refresh_catalogs [catalog_uuid instance]))
  end.

(** [delete_enterprise_catalog_data], a [post_delete] receiver.  The loop
    over [INTEGRATED_CHANNELS] stops at the first channel with an active
    configuration for the customer, so the task is queued once when
    some channel has one. *)
Definition delete_enterprise_catalog_data (instance : EnterpriseCustomerCatalog)
  : M World unit :=
  try_except
    (EnterpriseCatalogApiClient;;
     emit (http (delete_enterprise_catalog (catalog_uuid instance))))
    (λ e, if decide (e = NotConnectedToOpenEdX)
          then Some (emit (logger_exception (UnableToDeleteCatalog (catalog_uuid instance)) e))
          else None);;
  configured ← gets active_channel_configuration;
  when (existsb (λ c, configured c (uuid (catalog_enterprise_customer instance)))
          INTEGRATED_CHANNELS)
    (emit (logger_info (OrphanAuditTask (catalog_uuid instance)));;
     emit (apply_async mark_orphaned_content_metadata_audit None)).

(** *** Course enrollments *)

(** [create_enterprise_enrollment_receiver], connected to [post_save] of
    [CourseEnrollment]. *)
Definition create_enterprise_enrollment_receiver (instance : CourseEnrollment)
  (created : bool) : M World unit :=
  match enrollment_user instance with
  | Some u =>
      if created then
        ecus ← gets enterprise_customer_users;
        let active_ecus_for_user :=
          objects_filter (λ e, bool_decide (ecu_user_id e = user_id u) && active e) ecus in
        match head active_ecus_for_user with
        | None => mret tt
        | Some ecu =>
            when (1 <? length active_ecus_for_user)%nat
              (emit (logger_warning
                 (SeveralActiveEnterpriseCustomerUsers (user_id u) (enrollment_course_id instance))));;
            setting ← gets CREATE_ENTERPRISE_ENROLLMENT_TASK_COUNTDOWN;
            let countdown := default DEFAULT_COUNTDOWN setting in
            emit (transaction_on_commit
                    (submit_task (enrollment_course_id instance) (ecu_pk ecu) countdown))
        end
      else mret tt
  | None => mret tt
  end.

(** What the callback does when the transaction commits; [user] is the
    [user_id] it closed over. *)
Definition run_on_commit (user : nat) (f : callback) : M World unit :=
  match f with
  | submit_task course ecu_id countdown =>
      emit (logger_info (SpinningOffTask user));;
      emit (apply_async (create_enterprise_enrollment course ecu_id) (Some countdown))
  end.

(** *** Reading the trace *)

Definition is_http (e : effect) : bool :=
  match e with http _ => true | _ => false end.

Definition is_logging (e : effect) : bool :=
  match e with
  | logger_exception _ _ | logger_info _ | logger_warning _ => true
  | _ => false
  end.

Definition requests (es : list effect) : nat := length (List.filter is_http es).

(** Work put off to the commit or handed to the task queue. *)
Definition is_deferred (e : effect) : bool :=
  match e with apply_async _ _ | transaction_on_commit _ => true | _ => false end.

(** What [delete_enterprise_catalog_data] does after the remote call. *)
Definition orphan_audit (instance : EnterpriseCustomerCatalog) (w : World) : list effect :=
  if existsb (λ c, active_channel_configuration w c (uuid (catalog_enterprise_customer instance)))
       INTEGRATED_CHANNELS
  then [logger_info (OrphanAuditTask (catalog_uuid instance));
        apply_async mark_orphaned_content_metadata_audit None]
  else [].

(** *** Pending admin users and pending users, as tables *)

Definition admin_key (a : PendingEnterpriseCustomerAdminUser) : string * string :=
  (admin_enterprise_customer a, admin_user_email a).

Definition pending_key (p : PendingEnterpriseCustomerUser) : string * string :=
  (enterprise_customer p, user_email p).

(** Every pending admin user has a pending user record with the same
    enterprise customer and email. *)
Definition admins_have_pending_users (w : World) : Prop :=
  ∀ a, a ∈ pending_admin_users w →
       ∃ p, p ∈ pending_users w ∧ same_customer_and_email a p = true.

(** The uniqueness constraints of the two tables on (customer, email). *)
Definition admin_keys_unique (w : World) : Prop :=
  NoDup (admin_key <$> pending_admin_users w).

Definition pending_keys_unique (w : World) : Prop :=
  NoDup (pending_key <$> pending_users w).

(** *** The loop over the integrated channels

    Lines 343-351 of [delete_enterprise_catalog_data] as they are
    written: the first channel with an active configuration for the
    customer queues the task and ends the loop. *)
Fixpoint mark_orphans_loop (instance : EnterpriseCustomerCatalog) (channels : list channel)
  : M World unit :=
  match channels with
  | [] => mret tt
  | c :: rest =>
      configured ← gets active_channel_configuration;
      if configured c (uuid (catalog_enterprise_customer instance)) : bool
      then
        emit (logger_info (OrphanAuditTask (catalog_uuid instance)));;
        emit (apply_async mark_orphaned_content_metadata_audit None)
      else mark_orphans_loop instance rest
  end.

Definition is_orphan_audit (e : effect) : bool :=
  match e with apply_async mark_orphaned_content_metadata_audit _ => true | _ => false end.

End Signals.

(** ** enterprise/admin/views.py: listing the learners, handling the form *)

Module ManageLearners.
Import Django Models Views.

(** *** The two listings of the page *)

Section Querysets.
(** [field__icontains=keyword]; the database's collation decides it. *)
Variable icontains : string → string → bool.

(** [get_enterprise_customer_user_queryset], over the tables
    [EnterpriseCustomerUser] and [User]. *)
Definition get_enterprise_customer_user_queryset (search_keyword : option string)
  (customer_uuid : string) (ecus : list Signals.EnterpriseCustomerUser) (users : list User)
  : list Signals.EnterpriseCustomerUser :=
  let learners :=
    objects_filter
      (λ e, bool_decide (uuid (Signals.ecu_enterprise_customer e) = customer_uuid)) ecus in
  match search_keyword with
  | None => learners
  | Some keyword =>
      let user_ids := Signals.ecu_user_id <$> learners in
      let matching_users :=
        objects_filter
          (λ u, bool_decide (user_id u ∈ user_ids)
                && (icontains (email u) keyword || icontains (username u) keyword)) users in
      let matching_user_ids := user_id <$> matching_users in
      objects_filter (λ e, bool_decide (Signals.ecu_user_id e ∈ matching_user_ids)) learners
  end.

(** [get_pending_users_queryset], over [PendingEnterpriseCustomerUser]. *)
Definition get_pending_users_queryset (search_keyword : option string)
  (customer_uuid : string) (records : list PendingEnterpriseCustomerUser)
  : list PendingEnterpriseCustomerUser :=
  let queryset :=
    objects_filter (λ p, bool_decide (enterprise_customer p = customer_uuid)) records in
  match search_keyword with
  | None => queryset
  | Some keyword => objects_filter (λ p, icontains (user_email p) keyword) queryset
  end.

End Querysets.

(** *** The form submission *)

Inductive form_mode := MODE_SINGULAR | MODE_BULK.

(** A bound [ManageLearnersForm]: whether its data is well formed, and
    its cleaned data.  [course] is [course_details['course_id']] when
    course details are given, [program] the program details. *)
Record ManageLearnersForm := {
  is_well_formed : bool;
  mode : form_mode;
  email_or_username : string;
  bulk_upload : parsed_csv;
  course : option string;
  program : option string;
  course_mode : string;
}.

Inductive response :=
  | HttpResponseRedirect
  | rendered_form.

Definition with_pending_users (records : list PendingEnterpriseCustomerUser) (w : World)
  : World :=
  {| customers := customers w;
     auth_user := auth_user w;
     pending_users := records;
     pending_enrollments := pending_enrollments w;
     enrollment_api := enrollment_api w;
     trace := trace w |}.

(** The errors the form got since the request began, the trace then
    being [since] long. *)
Definition form_errors_since (since : nat) (w : World) : list effect :=
  List.filter is_form_add_error (drop since (trace w)).

(** [manage_learners_form.is_valid()]: bound, well formed, and without
    errors added since. *)
Definition is_valid (form : ManageLearnersForm) (since : nat) : M World bool :=
  added ← gets (form_errors_since since);
  mret (is_well_formed form && negb (nonempty added)).

Section Post.
Variable email_or_username__to__email : string → string.
Variable validate_email_to_link : string → bool → string + bool.
Variable get_course_runs_from_program : string → list string.
(** [link_user] is in the trace as a call; the pending user records it
    leaves behind are those of [models.py], taken here as a function of
    the world after the calls. *)
Variable pending_users_after_linking : World → list PendingEnterpriseCustomerUser.

(** The loop [for course_id in course_ids] of [post]; iterating over
    [None] raises. *)
Definition enroll_in_courses (customer : EnterpriseCustomer)
  (linked_learners : option (list string)) (course_ids : list string) (mode : string)
  : M World unit :=
  for_each course_ids
    (λ course_id _,
       match linked_learners with
       | Some emails => _enroll_users customer emails course_id mode
       | None => raise (OtherError "TypeError")
       end) tt.

(** [EnterpriseCustomerManageLearnersView.post] *)
Definition post (form : ManageLearnersForm) (customer_uuid : string) : M World response :=
  enterprise_customer ← objects_get "EnterpriseCustomer"
    (λ c, bool_decide (uuid c = customer_uuid)) customers;
  since ← gets (λ w, length (trace w));
  valid ← is_valid form since;
  linked_learners ←
    (if valid : bool then
       linked ← match mode form with
                | MODE_SINGULAR =>
                    _handle_singular email_or_username__to__email validate_email_to_link
                      enterprise_customer (email_or_username form)
                | MODE_BULK =>
                    _handle_bulk_upload validate_email_to_link enterprise_customer
                      (bulk_upload form)
                end;
       records ← gets pending_users_after_linking;
       modify (with_pending_users records);;
       mret linked
     else mret None);
  valid ← is_valid form since;
  if valid : bool then
    let course_ids :=
      match course form with
      | Some course_id => [course_id]
      | None =>
          match program form with
          | Some program_details => get_course_runs_from_program program_details
          | None => []
          end
      end in
    Views.when (nonempty course_ids)
      (enroll_in_courses enterprise_customer linked_learners course_ids (course_mode form));;
    mret HttpResponseRedirect
  else mret rendered_form.

End Post.

End ManageLearners.

(** ** enterprise/signals.py: the other receivers *)

Module Receivers.
Import Django Models Signals.

Record EnterpriseCourseEnrollment :=
  { ece_pk : nat; ece_course_id : string; ece_user_id : nat }.

(** The [enrollment] a course enrollment event carries, through
    [enrollment.course.course_key], [enrollment.user.id] and
    [enrollment.is_active]. *)
Record CourseEnrollmentData :=
  { course_key : string; enrolled_user_id : nat; is_active : bool }.

Record EnterpriseCustomerSsoConfiguration := {
  sso_pk : string;
  sso_enterprise_customer : string;
  identity_provider : option string;
  display_name : option string;
}.

(** An [EnterpriseCatalogQuery] with its content filter. *)
Record CatalogQuery := { query : EnterpriseCatalogQuery; query_content_filter : string }.

Inductive log_text :=
  | RunningUpdateCatalogQuery (pk : string) (updated_content_filter : string)
  | UpdatingCatalog (catalog : string).

(** Observable effects: those of the receivers embedded so far, and the
    calls of the others. *)
Inductive effect :=
  | signals_effect (e : Signals.effect)
  | unset_language_of_all_enterprise_learners (customer : string)
  | set_unenrolled (ece : nat) (desired_unenrolled_state : bool)
  | link_pending_enterprise_user (pending : nat) (user : nat) (is_user_created : bool)
  | fulfill_pending_course_enrollments (pending : nat) (ecu : nat)
  | fulfill_pending_group_memberships (pending : nat) (ecu : nat)
  | activate_admin_permissions (ecu : nat)
  | logger_info (text : log_text).

Record World := {
  signals : Signals.World;
  customers : gmap string EnterpriseCustomer;
  catalogs : gmap string EnterpriseCustomerCatalog;
  enterprise_course_enrollments : list EnterpriseCourseEnrollment;
  sso_configurations : list EnterpriseCustomerSsoConfiguration;
  trace : list effect;
}.

Definition with_signals (s : Signals.World) (w : World) : World :=
  {| signals := s;
     customers := customers w;
     catalogs := catalogs w;
     enterprise_course_enrollments := enterprise_course_enrollments w;
     sso_configurations := sso_configurations w;
     trace := trace w |}.

Definition with_customers (rows : gmap string EnterpriseCustomer) (w : World) : World :=
  {| signals := signals w;
     customers := rows;
     catalogs := catalogs w;
     enterprise_course_enrollments := enterprise_course_enrollments w;
     sso_configurations := sso_configurations w;
     trace := trace w |}.

Definition with_catalogs (rows : gmap string EnterpriseCustomerCatalog) (w : World) : World :=
  {| signals := signals w;
     customers := customers w;
     catalogs := rows;
     enterprise_course_enrollments := enterprise_course_enrollments w;
     sso_configurations := sso_configurations w;
     trace := trace w |}.

Definition extend_trace (es : list effect) (w : World) : World :=
  {| signals := signals w;
     customers := customers w;
     catalogs := catalogs w;
     enterprise_course_enrollments := enterprise_course_enrollments w;
     sso_configurations := sso_configurations w;
     trace := trace w ++ es |}.

Definition emit (e : effect) : M World unit := modify (extend_trace [e]).

(** A receiver embedded over [Signals.World], run here: its effects
    join the trace in their order. *)
Definition lift {A} (m : M Signals.World A) : M World A :=
  λ w, let r := m (signals w) in
       (r.1,
        extend_trace
          (signals_effect
             <$> drop (length (Signals.trace (signals w))) (Signals.trace r.2))
          (with_signals r.2 w)).

(** *** The language preference of a customer's learners *)

(** [update_lang_pref_of_all_learners], a [pre_save] receiver of
    [EnterpriseCustomer]; the table is keyed by the UUID. *)
Definition update_lang_pref_of_all_learners (instance : EnterpriseCustomer) : M World unit :=
  if truthy_string (default_language instance) then
    rows ← gets customers;
    match rows !! uuid instance with
    | None => emit (unset_language_of_all_enterprise_learners (uuid instance))
    | Some prev_state =>
        if bool_decide (default_language prev_state ≠ default_language instance)
        then emit (unset_language_of_all_enterprise_learners (uuid instance))
        else mret tt
    end
  else mret tt.

(** Saving an [EnterpriseCustomer]: [pre_save], then the write. *)
Definition save_customer (instance : EnterpriseCustomer) : M World unit :=
  update_lang_pref_of_all_learners instance;;
  rows ← gets customers;
  modify (with_customers (<[uuid instance := instance]> rows)).

(** *** Course enrollment events *)

Definition for_enrollment (enrollment : CourseEnrollmentData)
  (ece : EnterpriseCourseEnrollment) : bool :=
  bool_decide (ece_course_id ece = course_key enrollment)
  && bool_decide (ece_user_id ece = enrolled_user_id enrollment).

(** [course_enrollment_changed_receiver]; the table is read in the
    order of the queryset, [first()] taking its head. *)
Definition course_enrollment_changed_receiver (enrollment : CourseEnrollmentData)
  : M World unit :=
  rows ← gets enterprise_course_enrollments;
  match head (objects_filter (for_enrollment enrollment) rows) with
  | Some enterprise_enrollment =>
      if is_active enrollment
      then emit (set_unenrolled (ece_pk enterprise_enrollment) false)
      else mret tt
  | None => mret tt
  end.

(** [enterprise_unenrollment_receiver] *)
Definition enterprise_unenrollment_receiver (enrollment : CourseEnrollmentData)
  : M World unit :=
  rows ← gets enterprise_course_enrollments;
  match head (objects_filter (for_enrollment enrollment) rows) with
  | Some enterprise_enrollment => emit (set_unenrolled (ece_pk enterprise_enrollment) true)
  | None => mret tt
  end.

(** *** The display name of an SSO configuration *)

(** [str(x)] of a field that may be [None]. *)
Definition str (x : option string) : string := default "None" x.

Definition default_display_name (provider : option string) (num_records : nat) : string :=
  "SSO-config-" +:+ str provider +:+ "-" +:+ pretty (num_records + 1).

Definition num_records_for_customer (customer : string)
  (rows : list EnterpriseCustomerSsoConfiguration) : nat :=
  length (objects_filter (λ r, bool_decide (sso_enterprise_customer r = customer)) rows).

(** [generate_default_orchestration_record_display_name], a [pre_save]
    receiver; it sets [instance.display_name] in place. *)
Definition generate_default_orchestration_record_display_name
  (instance : EnterpriseCustomerSsoConfiguration)
  : M World EnterpriseCustomerSsoConfiguration :=
  rows ← gets sso_configurations;
  if negb (Views.nonempty (objects_filter (λ r, bool_decide (sso_pk r = sso_pk instance)) rows))
  then
    match display_name instance with
    | None =>
        mret {| sso_pk := sso_pk instance;
                sso_enterprise_customer := sso_enterprise_customer instance;
                identity_provider := identity_provider instance;
                display_name :=
                  Some (default_display_name (identity_provider instance)
                          (num_records_for_customer (sso_enterprise_customer instance) rows))
             |}
    | Some _ => mret instance
    end
  else mret instance.

(** *** Saving catalogs *)

Definition with_content_filter (filter : string) (c : EnterpriseCustomerCatalog)
  : EnterpriseCustomerCatalog :=
  {| catalog_uuid := catalog_uuid c;
     catalog_enterprise_customer := catalog_enterprise_customer c;
     title := title c;
     content_filter := filter;
     enabled_course_modes := enabled_course_modes c;
     publish_audit_enrollment_urls := publish_audit_enrollment_urls c;
     enterprise_catalog_query := enterprise_catalog_query c |}.

Definition with_catalog_query (q : EnterpriseCatalogQuery) (c : EnterpriseCustomerCatalog)
  : EnterpriseCustomerCatalog :=
  {| catalog_uuid := catalog_uuid c;
     catalog_enterprise_customer := catalog_enterprise_customer c;
     title := title c;
     content_filter := content_filter c;
     enabled_course_modes := enabled_course_modes c;
     publish_audit_enrollment_urls := publish_audit_enrollment_urls c;
     enterprise_catalog_query := Some q |}.

Section Catalogs.
(** [not instance.content_filter], the truth value of the JSON value the
    text stands for; and [get_default_catalog_content_filter()]. *)
Variable is_empty_filter : string → bool.
Variable get_default_catalog_content_filter : string.

(** [default_content_filter], a [post_save] receiver; [save] is
    [instance.save]. *)
Definition default_content_filter
  (save : EnterpriseCustomerCatalog → M World EnterpriseCustomerCatalog)
  (instance : EnterpriseCustomerCatalog) (created : bool)
  : M World EnterpriseCustomerCatalog :=
  if created && is_empty_filter (content_filter instance)
  then save (with_content_filter get_default_catalog_content_filter instance)
  else mret instance.

(** [EnterpriseCustomerCatalog.save]: the write under the UUID, then
    [post_save] to the receivers in the order the module connects them,
    [default_content_filter] before [update_enterprise_catalog_data].
    [depth] bounds the nesting of [save] inside [save]. *)
Fixpoint save_catalog (depth : nat) (instance : EnterpriseCustomerCatalog)
  : M World EnterpriseCustomerCatalog :=
  match depth with
  | 0 => raise (OtherError "RecursionError")
  | S depth' =>
      rows ← gets catalogs;
      let created := negb (bool_decide (is_Some (rows !! catalog_uuid instance))) in
      modify (with_catalogs (<[catalog_uuid instance := instance]> rows));;
      instance ← default_content_filter (save_catalog depth') instance created;
      lift (update_enterprise_catalog_data instance created);;
      mret instance
  end.

(** The catalogs [instance.enterprise_customer_catalogs.all()] yields:
    those whose query is [instance], each with [instance] as its
    query. *)
Definition enterprise_customer_catalogs (instance : CatalogQuery)
  (rows : gmap string EnterpriseCustomerCatalog) : list EnterpriseCustomerCatalog :=
  with_catalog_query (query instance)
    <$> objects_filter
          (λ c, bool_decide (query_uuid <$> enterprise_catalog_query c
                             = Some (query_uuid (query instance))))
          (map_to_list rows).*2.

(** [update_enterprise_catalog_query], a [post_save] receiver of
    [EnterpriseCatalogQuery]. *)
Definition update_enterprise_catalog_query (depth : nat) (instance : CatalogQuery)
  : M World unit :=
  let updated_content_filter := query_content_filter instance in
  emit (logger_info (RunningUpdateCatalogQuery (query_uuid (query instance))
                       updated_content_filter));;
  rows ← gets catalogs;
  for_each (enterprise_customer_catalogs instance rows)
    (λ catalog _,
       emit (logger_info (UpdatingCatalog (catalog_uuid catalog)));;
       save_catalog depth (with_content_filter updated_content_filter catalog);;
       mret tt) tt.

End Catalogs.

(** *** A user is saved *)


Section UserSaved.
(** [pending_ecu.link_pending_enterprise_user(user, is_user_created)] is
    a method of [models.py]: the record it returns and the
    [EnterpriseCustomerUser] table it leaves. *)
Variable linked :
  PendingEnterpriseCustomerUser → User → bool → list EnterpriseCustomerUser →
  EnterpriseCustomerUser * list EnterpriseCustomerUser.



End UserSaved.

(** *** Reading the trace *)

Definition is_request (e : effect) : bool :=
  match e with signals_effect (http _) => true | _ => false end.

(** The catalogs a query's save reaches: does the stored catalog [c]
    belong to the query? *)
Definition of_query (instance : CatalogQuery) (c : EnterpriseCustomerCatalog) : bool :=
  bool_decide (query_uuid <$> enterprise_catalog_query c = Some (query_uuid (query instance))).

(** The table is keyed by the catalogs' UUIDs. *)
Definition keyed_by_uuid (rows : gmap string EnterpriseCustomerCatalog) : Prop :=
  ∀ k c, rows !! k = Some c → catalog_uuid c = k.

End Receivers.

(** ** Sample data *)

Module Examples.
Import Models.

Definition acme : EnterpriseCustomer :=
  {| uuid := "acme"; name := "Acme"; default_language := None |}.

Definition alice : User := {| user_id := 1; email := "alice@example.org"; username := "alice" |}.
Definition bob : User := {| user_id := 2; email := "bob@example.org"; username := "bob" |}.

Definition carol_pending : PendingEnterpriseCustomerUser :=
  {| pecu_pk := 7; enterprise_customer := "acme"; user_email := "carol@example.org" |}.

(** The enrollment API enrolls alice and turns bob away. *)
Definition sample_api (name course mode : string) : Views.enroll_response :=
  if bool_decide (name = "alice") then Views.Enrolled
  else Views.ClientError (JsonObject (Some "Course is full")).

Definition campus : Views.World :=
  {| Views.customers := [acme];
     Views.auth_user := [alice; bob];
     Views.pending_users := [carol_pending];
     Views.pending_enrollments := [];
     Views.enrollment_api := sample_api;
     Views.trace := [] |}.

(** A world without accounts and without pending user records. *)
Definition nobody : Views.World :=
  {| Views.customers := [acme];
     Views.auth_user := [];
     Views.pending_users := [];
     Views.pending_enrollments := [];
     Views.enrollment_api := sample_api;
     Views.trace := [] |}.

(** [validate_email_to_link]: one malformed email, one linked already. *)
Definition sample_validate (addr : string) (ignore_existing : bool) : string + bool :=
  if bool_decide (addr = "not-an-email") then inl "not-an-email is not a valid email"
  else if bool_decide (addr = "dana@example.org")
       then (if ignore_existing then inr true else inl "dana@example.org is linked already")
       else inr false.

Definition sample_to_email (value : string) : string :=
  if bool_decide (value = "alice") then "alice@example.org" else value.

Definition good_csv : Views.parsed_csv :=
  {| Views.rows := ["erin@example.org"; "dana@example.org"; "erin@example.org";
                    "frank@example.org"];
     Views.csv_error := None |}.

Definition bad_csv : Views.parsed_csv :=
  {| Views.rows := ["erin@example.org"; "not-an-email"]; Views.csv_error := None |}.

(** The catalog service: reachable or not, knowing no catalog yet. *)
Definition quiet (connected : bool) : Signals.World :=
  {| Signals.enterprise_customer_users := [];
     Signals.pending_admin_users := [];
     Signals.pending_users := [];
     Signals.branding_configurations := ∅;
     Signals.catalog_client_connected := connected;
     Signals.catalog_service := λ _ _, inl false;
     Signals.active_channel_configuration := λ _ _, false;
     Signals.CREATE_ENTERPRISE_ENROLLMENT_TASK_COUNTDOWN := None;
     Signals.trace := [] |}.

Definition catalog : Signals.EnterpriseCustomerCatalog :=
  {| Signals.catalog_uuid := "c0ffee";
     Signals.catalog_enterprise_customer := acme;
     Signals.title := "All courses";
     Signals.content_filter := "{}";
     Signals.enabled_course_modes := ["audit"; "verified"];
     Signals.publish_audit_enrollment_urls := false;
     Signals.enterprise_catalog_query := None |}.

Definition alice_at_acme : Signals.EnterpriseCustomerUser :=
  {| Signals.ecu_pk := 11;
     Signals.ecu_enterprise_customer := acme;
     Signals.ecu_user_id := 1;
     Signals.ecu_user := Some alice;
     Signals.linked := true;
     Signals.active := true |}.

Definition carol_admin : Signals.PendingEnterpriseCustomerAdminUser :=
  {| Signals.admin_pk := 3;
     Signals.admin_enterprise_customer := "acme";
     Signals.admin_user_email := "carol@example.org" |}.

(** One pending admin user with its pending user record. *)
Definition invited : Signals.World :=
  {| Signals.enterprise_customer_users := [alice_at_acme];
     Signals.pending_admin_users := [carol_admin];
     Signals.pending_users := [carol_pending];
     Signals.branding_configurations := ∅;
     Signals.catalog_client_connected := true;
     Signals.catalog_service := λ _ _, inl false;
     Signals.active_channel_configuration := λ _ _, false;
     Signals.CREATE_ENTERPRISE_ENROLLMENT_TASK_COUNTDOWN := None;
     Signals.trace := [] |}.

Definition alice_enrollment : Signals.CourseEnrollment :=
  {| Signals.enrollment_user := Some alice;
     Signals.enrollment_course_id := "course-v1:edX+DemoX" |}.

(** A branding configuration stored under id 5, about to be saved with a
    new logo. *)
Definition stored_configuration : Signals.EnterpriseCustomerBrandingConfiguration :=
  {| Signals.id := Some 5; Signals.logo := Some "new.png";
     Signals.unsaved_filefield := None |}.

Definition branded : Signals.World :=
  Signals.with_branding_configurations {[ 5 := Some "old.png" ]} (quiet true).

(** The enrollment API enrolls alice and fails on its side for bob. *)
Definition outage : Views.World :=
  {| Views.customers := [acme];
     Views.auth_user := [alice; bob];
     Views.pending_users := [carol_pending];
     Views.pending_enrollments := [];
     Views.enrollment_api :=
       λ name _ _, if bool_decide (name = "alice") then Views.Enrolled
                   else Views.ServerError "HttpServerError";
     Views.trace := [] |}.

(** A form with an email that does not validate, and the helpers of a
    submission. *)
Definition rejected_form : ManageLearners.ManageLearnersForm :=
  {| ManageLearners.is_well_formed := true;
     ManageLearners.mode := ManageLearners.MODE_SINGULAR;
     ManageLearners.email_or_username := "not-an-email";
     ManageLearners.bulk_upload := good_csv;
     ManageLearners.course := Some "course-v1:edX+DemoX";
     ManageLearners.program := None;
     ManageLearners.course_mode := "audit" |}.

Definition sample_post :=
  ManageLearners.post sample_to_email sample_validate (λ _, []) Views.pending_users.

(** Carol is invited as a learner, not yet as an admin. *)
Definition learner_invited : Signals.World :=
  Signals.with_pending_admin_users [] invited.

(** Two integrated channels are active for Acme. *)
Definition two_channels : Signals.World :=
  {| Signals.enterprise_customer_users := [];
     Signals.pending_admin_users := [];
     Signals.pending_users := [];
     Signals.branding_configurations := ∅;
     Signals.catalog_client_connected := true;
     Signals.catalog_service := λ _ _, inl true;
     Signals.active_channel_configuration :=
       λ c customer,
         bool_decide (customer = "acme")
         && match c with Signals.Canvas | Signals.Moodle => true | _ => false end;
     Signals.CREATE_ENTERPRISE_ENROLLMENT_TASK_COUNTDOWN := None;
     Signals.trace := [] |}.

End Examples.

Module MoreExamples.
Import Models.

Definition stored_sso : Receivers.EnterpriseCustomerSsoConfiguration :=
  {| Receivers.sso_pk := "sso-1";
     Receivers.sso_enterprise_customer := "acme";
     Receivers.identity_provider := Some "okta";
     Receivers.display_name := Some "Okta, production" |}.

Definition new_sso : Receivers.EnterpriseCustomerSsoConfiguration :=
  {| Receivers.sso_pk := "sso-2";
     Receivers.sso_enterprise_customer := "acme";
     Receivers.identity_provider := Some "okta";
     Receivers.display_name := None |}.

(** Alice has an enterprise enrollment in the demo course; Acme has one
    SSO configuration and one catalog. *)
Definition enrolled : Receivers.World :=
  {| Receivers.signals := Examples.invited;
     Receivers.customers := {[ "acme" := Examples.acme ]};
     Receivers.catalogs := {[ "c0ffee" := Examples.catalog ]};
     Receivers.enterprise_course_enrollments :=
       [{| Receivers.ece_pk := 21;
           Receivers.ece_course_id := "course-v1:edX+DemoX";
           Receivers.ece_user_id := 1 |}];
     Receivers.sso_configurations := [stored_sso];
     Receivers.trace := [] |}.

Definition alice_reenrolls : Receivers.CourseEnrollmentData :=
  {| Receivers.course_key := "course-v1:edX+DemoX";
     Receivers.enrolled_user_id := 1;
     Receivers.is_active := true |}.



Definition sample_is_empty_filter (filter : string) : bool := bool_decide (filter = "{}").

Definition advanced : Signals.EnterpriseCatalogQuery :=
  {| Signals.query_uuid := "q1";
     Signals.query_title := "Advanced courses";
     Signals.query_include_exec_ed_2u_courses := false |}.

Definition advanced_saved : Receivers.CatalogQuery :=
  {| Receivers.query := advanced; Receivers.query_content_filter := "level=advanced" |}.

(** A catalog of the query, and a new catalog without a content
    filter. *)
Definition advanced_catalog : Signals.EnterpriseCustomerCatalog :=
  {| Signals.catalog_uuid := "cafe";
     Signals.catalog_enterprise_customer := Examples.acme;
     Signals.title := "Advanced";
     Signals.content_filter := "level=intermediate";
     Signals.enabled_course_modes := ["verified"];
     Signals.publish_audit_enrollment_urls := false;
     Signals.enterprise_catalog_query := Some advanced |}.


Definition library : Receivers.World :=
  Receivers.with_catalogs
    (<["cafe" := advanced_catalog]> (<["c0ffee" := Examples.catalog]> ∅)) enrolled.

(** Dana has no account and is invited by another enterprise customer,
    Globex: [validate_email_to_link(..., ignore_existing=True)] answers
    that she is linked already, and she has no pending record for
    Acme. *)
Definition dana_at_globex : PendingEnterpriseCustomerUser :=
  {| pecu_pk := 8; enterprise_customer := "globex"; user_email := "dana@example.org" |}.

Definition erin_pending : PendingEnterpriseCustomerUser :=
  {| pecu_pk := 9; enterprise_customer := "acme"; user_email := "erin@example.org" |}.

Definition before_upload : Views.World :=
  {| Views.customers := [Examples.acme];
     Views.auth_user := [];
     Views.pending_users := [dana_at_globex];
     Views.pending_enrollments := [];
     Views.enrollment_api := Examples.sample_api;
     Views.trace := [] |}.

(** The tables once [link_user] has invited erin to Acme. *)
Definition after_linking : Views.World :=
  ManageLearners.with_pending_users [dana_at_globex; erin_pending] before_upload.

Definition upload : Views.parsed_csv :=
  {| Views.rows := ["erin@example.org"; "dana@example.org"]; Views.csv_error := None |}.

Definition upload_form : ManageLearners.ManageLearnersForm :=
  {| ManageLearners.is_well_formed := true;
     ManageLearners.mode := ManageLearners.MODE_BULK;
     ManageLearners.email_or_username := "";
     ManageLearners.bulk_upload := upload;
     ManageLearners.course := Some "course-v1:edX+DemoX";
     ManageLearners.program := None;
     ManageLearners.course_mode := "audit" |}.

(** A submission during which [link_user] leaves erin's pending record
    beside dana's. *)
Definition upload_post :=
  ManageLearners.post Examples.sample_to_email Examples.sample_validate (λ _, [])
    (λ _, [dana_at_globex; erin_pending]).

End MoreExamples.

(** * Properties *)

(** ** Running computations *)

Lemma bind_returned {W A B} (m : M W A) (k : A → M W B) w a w' :
  m w = (inl a, w') → (m ≫= k) w = k a w'.
Proof. intros H. unfold mbind, M_bind, bind. by rewrite H. Qed.

Lemma bind_raised {W A B} (m : M W A) (k : A → M W B) w e w' :
  m w = (inr e, w') → (m ≫= k) w = (inr e, w').
Proof. intros H. unfold mbind, M_bind, bind. by rewrite H. Qed.

Lemma for_each_cons {W X L} (x : X) xs (body : X → L → M W L) acc w :
  for_each (x :: xs) body acc w
  = match body x acc w with
    | (inl acc', w') => for_each xs body acc' w'
    | (inr e, w') => (inr e, w')
    end.
Proof. reflexivity. Qed.

Lemma for_each_app {W X L} (xs ys : list X) (body : X → L → M W L) acc w :
  for_each (xs ++ ys) body acc w
  = match for_each xs body acc w with
    | (inl acc', w') => for_each ys body acc' w'
    | (inr e, w') => (inr e, w')
    end.
Proof.
  revert acc w. induction xs as [|x xs IH]; intros acc w; [done|].
  rewrite <- app_comm_cons, !for_each_cons.
  destruct (body x acc w) as [[acc'|e] w']; [apply IH | done].
Qed.

Lemma elem_of_List_filter {A} (f : A → bool) (l : list A) x :
  x ∈ List.filter f l ↔ x ∈ l ∧ f x = true.
Proof. rewrite !list_elem_of_In. apply filter_In. Qed.

(** Unfold the monad's operations until none is left. *)
Ltac run_M :=
  repeat progress
    (unfold mbind, M_bind, bind, mret, M_ret, ret, gets, modify, raise, try_except;
     cbn beta iota).

(** ** The admin view *)

Module ViewsSpec.
Import Django Models Views.

Lemma extend_trace_nil w : extend_trace [] w = w.
Proof. destruct w. unfold extend_trace. simpl. by rewrite app_nil_r. Qed.

Lemma extend_trace_app es1 es2 w :
  extend_trace es2 (extend_trace es1 w) = extend_trace (es1 ++ es2) w.
Proof. unfold extend_trace. simpl. by rewrite app_assoc. Qed.

Lemma for_each_emit {X} (f : X → effect) (xs : list X) w :
  for_each xs (λ x _, emit (f x)) tt w = (inl tt, extend_trace (f <$> xs) w).
Proof.
  revert w. induction xs as [|x xs IH]; intros w.
  - simpl. by rewrite extend_trace_nil.
  - rewrite for_each_cons. unfold emit at 1, modify.
    rewrite IH, extend_trace_app. done.
Qed.

Section Linking.
Variable email_or_username__to__email : string → string.
Variable validate_email_to_link : string → bool → string + bool.

Abbreviation bulk_row := (bulk_row validate_email_to_link).
Abbreviation bulk_rows := (bulk_rows validate_email_to_link).
Abbreviation bulk_validate := (bulk_validate validate_email_to_link).
Abbreviation _handle_bulk_upload := (_handle_bulk_upload validate_email_to_link).
Abbreviation _handle_singular :=
  (_handle_singular email_or_username__to__email validate_email_to_link).
Abbreviation is_new := (is_new validate_email_to_link).
Abbreviation is_already_linked := (is_already_linked validate_email_to_link).
Abbreviation is_rejected := (is_rejected validate_email_to_link).

Lemma bulk_rows_errors_nil index addrs ls :
  errors (bulk_rows index addrs ls) = []
  ↔ errors ls = [] ∧ ∀ addr, addr ∈ addrs → is_rejected addr = false.
Proof.
  revert index ls. induction addrs as [|a addrs IH]; intros index ls; simpl.
  - split; [intros H; split; [done|] | by intros [? _]].
    intros addr Hin. by apply elem_of_nil in Hin.
  - rewrite IH. unfold bulk_row, is_rejected.
    split.
    + intros [He Hall]. destruct (validate_email_to_link a true) as [msg|[|]] eqn:Hv;
        simpl in He.
      * by destruct (errors ls).
      * split; [done|]. intros addr [->|Hin]%elem_of_cons; [by rewrite Hv | by apply Hall].
      * destruct (bool_decide _); simpl in He;
          (split; [done|]; intros addr [->|Hin]%elem_of_cons; [by rewrite Hv | by apply Hall]).
    + intros [He Hall]. split.
      * specialize (Hall a (list_elem_of_here _ _)).
        destruct (validate_email_to_link a true) as [msg|[|]]; [done|done|].
        by destruct (bool_decide _).
      * intros addr Hin. apply Hall. by apply list_elem_of_further.
Qed.

Lemma bulk_rows_emails index addrs ls addr :
  addr ∈ emails (bulk_rows index addrs ls)
  ↔ addr ∈ emails ls ∨ (addr ∈ addrs ∧ is_new addr = true).
Proof.
  revert index ls. induction addrs as [|a addrs IH]; intros index ls; simpl.
  - split; [by left | intros [?|[Hin _]]; [done | by apply elem_of_nil in Hin]].
  - rewrite IH. unfold bulk_row, is_new. rewrite elem_of_cons.
    destruct (validate_email_to_link a true) as [msg|[|]] eqn:Hv; simpl.
    + split; [intros [?|[? ?]]; [by left | right; split; [by right|done]] |].
      intros [?|[[->|?] Hn]]; [by left | by rewrite Hv in Hn | by right].
    + split; [intros [?|[? ?]]; [by left | right; split; [by right|done]] |].
      intros [?|[[->|?] Hn]]; [by left | by rewrite Hv in Hn | by right].
    + case_bool_decide as Hmem; simpl.
      * split; [intros [?|[? ?]]; [by left | right; split; [by right|done]] |].
        intros [?|[[->|?] Hn]]; [by left | by left | by right].
      * rewrite elem_of_union, elem_of_singleton.
        split.
        -- intros [[->|?]|[? ?]]; [right; split; [by left | by rewrite Hv] | by left |
                                    right; split; [by right | done]].
        -- intros [?|[[->|?] Hn]]; [left; by right | left; by left | by right].
Qed.

Lemma bulk_rows_already_linked index addrs ls :
  already_linked_emails (bulk_rows index addrs ls)
  = already_linked_emails ls ++ List.filter is_already_linked addrs.
Proof.
  revert index ls. induction addrs as [|a addrs IH]; intros index ls; simpl.
  - by rewrite app_nil_r.
  - rewrite IH. unfold bulk_row, is_already_linked.
    destruct (validate_email_to_link a true) as [msg|[|]]; simpl; [done | | ].
    + by rewrite <- app_assoc.
    + by destruct (bool_decide _).
Qed.

Lemma bulk_rows_duplicates index addrs ls addr :
  addr ∈ duplicate_emails (bulk_rows index addrs ls) →
  addr ∈ duplicate_emails ls ∨ addr ∈ emails (bulk_rows index addrs ls).
Proof.
  revert index ls. induction addrs as [|a addrs IH]; intros index ls; simpl; [by left|].
  intros [Hd|He]%IH; [|by right].
  unfold bulk_row in Hd.
  destruct (validate_email_to_link a true) as [msg|[|]]; simpl in Hd; [by left | by left |].
  case_bool_decide as Hmem; simpl in Hd; [|by left].
  apply elem_of_app in Hd. destruct Hd as [?|Hd]; [by left|].
  apply list_elem_of_singleton in Hd. subst addr.
  right. apply bulk_rows_emails. left. unfold bulk_row.
  destruct (validate_email_to_link a true) as [?|[|]]; simpl; try done.
  by rewrite bool_decide_eq_true_2.
Qed.

Lemma bulk_rows_accounted index addrs ls :
  (∀ addr, addr ∈ addrs → is_rejected addr = false) →
  size (emails (bulk_rows index addrs ls))
  + length (duplicate_emails (bulk_rows index addrs ls))
  + length (already_linked_emails (bulk_rows index addrs ls))
  = size (emails ls) + length (duplicate_emails ls) + length (already_linked_emails ls)
    + length addrs.
Proof.
  revert index ls. induction addrs as [|a addrs IH]; intros index ls Hall; simpl; [lia|].
  rewrite IH by (intros addr Hin; apply Hall; by apply list_elem_of_further).
  specialize (Hall a (list_elem_of_here _ _)). unfold is_rejected in Hall.
  unfold bulk_row.
  destruct (validate_email_to_link a true) as [msg|[|]]; simpl; [done | | ].
  - rewrite length_app. simpl. lia.
  - case_bool_decide as Hmem; simpl.
    + rewrite length_app. simpl. lia.
    + rewrite size_union by set_solver. rewrite size_singleton. lia.
Qed.

Lemma bulk_validate_errors_nil csv :
  errors (bulk_validate csv) = []
  ↔ csv_error csv = None ∧ ∀ addr, addr ∈ rows csv → is_rejected addr = false.
Proof.
  unfold Views.bulk_validate. destruct (csv_error csv) as [msg|]; simpl.
  - split; [|by intros [? _]].
    intros H. by destruct (errors _).
  - rewrite bulk_rows_errors_nil. simpl. tauto.
Qed.

Lemma nonempty_false {A} (l : list A) : nonempty l = false ↔ l = [].
Proof. by destruct l. Qed.

(** C6. Bulk linking is all or nothing with respect to validation: when
    parsing the CSV raises or any row's email is rejected,
    [_handle_bulk_upload] returns [None] having done nothing but add
    errors to the form (the general failure first), so it has called
    [link_user] for no email and left every table as it was. *)
Theorem bulk_upload_links_nothing_on_error customer csv w :
  is_Some (csv_error csv) ∨ (∃ addr, addr ∈ rows csv ∧ is_rejected addr = true) →
  ∃ es,
    _handle_bulk_upload customer csv w
    = (inl None, extend_trace (form_add_error GENERAL_ERRORS BULK_LINK_FAILED :: es) w)
    ∧ es = form_add_error BULK_UPLOAD <$> errors (bulk_validate csv)
    ∧ es ≠ []
    ∧ (∀ e, e ∈ es → is_form_add_error e = true)
    ∧ (∀ c addr, link_user c addr ∉ form_add_error GENERAL_ERRORS BULK_LINK_FAILED :: es).
Proof.
  intros Hbad.
  assert (errors (bulk_validate csv) ≠ []) as Herr.
  { intros [Hnone Hall]%bulk_validate_errors_nil.
    destruct Hbad as [[msg Hsome]|(addr & Hin & Hrej)]; [congruence|].
    rewrite (Hall _ Hin) in Hrej. done. }
  exists (form_add_error BULK_UPLOAD <$> errors (bulk_validate csv)).
  split; [|split; [done|split; [|split]]].
  - assert (nonempty (errors (bulk_validate csv)) = true) as Hne
      by (by destruct (errors (bulk_validate csv))).
    unfold Views._handle_bulk_upload. rewrite Hne.
    erewrite bind_returned; [|reflexivity].
    erewrite bind_returned; [|apply for_each_emit].
    rewrite extend_trace_app. done.
  - destruct (errors (bulk_validate csv)); [done|]. done.
  - intros e (x & -> & _)%list_elem_of_fmap. done.
  - intros c addr [Heq|(x & Heq & _)%list_elem_of_fmap]%elem_of_cons; discriminate.
Qed.

Lemma handle_singular_links customer form_field_value w b :
  validate_email_to_link (email_or_username__to__email form_field_value) false = inr b →
  _handle_singular customer form_field_value w
  = (inl (Some [email_or_username__to__email form_field_value]),
     extend_trace
       [link_user (uuid customer) (email_or_username__to__email form_field_value)] w).
Proof.
  intros Hv. unfold Views._handle_singular, call_validate_email_to_link, emit.
  run_M. rewrite Hv. done.
Qed.

(** The duplicates the loop collects are the new emails met before,
    among the collected ones or earlier in the rows. *)
Lemma bulk_rows_duplicate_emails index addrs ls :
  duplicate_emails (bulk_rows index addrs ls)
  = duplicate_emails ls
    ++ mjoin (imap (λ i x, if bool_decide (x ∈ emails ls
                                           ∨ x ∈ take i (List.filter is_new addrs))
                           then [x] else [])
                (List.filter is_new addrs)).
Proof.
  revert index ls. induction addrs as [|a addrs IH]; intros index ls; simpl.
  - by rewrite app_nil_r.
  - rewrite IH. unfold bulk_row.
    assert (is_new a = match validate_email_to_link a true with
                       | inr false => true | _ => false end) as -> by done.
    destruct (validate_email_to_link a true) as [msg|[|]] eqn:Hv; simpl; [done|done|].
    case_bool_decide as Hmem; simpl.
    + rewrite bool_decide_eq_true_2 by (by left). simpl.
      rewrite <- app_assoc. simpl. do 3 f_equal.
      apply imap_ext. intros i x _. simpl.
      apply (f_equal (λ b : bool, if b then [x] else [])).
      apply bool_decide_ext. rewrite elem_of_cons.
      split; [tauto | intros [?|[->|?]]; tauto].
    + rewrite bool_decide_eq_false_2
        by (intros [?|Hin]; [done | by apply elem_of_nil in Hin]).
      simpl. do 2 f_equal.
      apply imap_ext. intros i x _. simpl.
      apply (f_equal (λ b : bool, if b then [x] else [])).
      apply bool_decide_ext. rewrite elem_of_cons, elem_of_union, elem_of_singleton.
      tauto.
Qed.

(** Every new email of the rows is collected once or counted as a
    duplicate. *)
Lemma bulk_rows_new_emails index addrs ls :
  elements (emails (bulk_rows index addrs ls)) ++ duplicate_emails (bulk_rows index addrs ls)
  ≡ₚ elements (emails ls) ++ duplicate_emails ls ++ List.filter is_new addrs.
Proof.
  revert index ls. induction addrs as [|a addrs IH]; intros index ls; simpl.
  - by rewrite app_nil_r.
  - rewrite IH. unfold bulk_row.
    assert (is_new a = match validate_email_to_link a true with
                       | inr false => true | _ => false end) as -> by done.
    destruct (validate_email_to_link a true) as [msg|[|]] eqn:Hv; simpl; [done|done|].
    case_bool_decide as Hmem; simpl.
    + rewrite <- app_assoc. done.
    + rewrite elements_union_singleton by done. simpl.
      rewrite <- !Permutation_middle. done.
Qed.

Lemma bulk_validate_duplicates csv :
  duplicate_emails (bulk_validate csv)
  = later_occurrences (List.filter is_new (rows csv)).
Proof.
  assert (duplicate_emails (bulk_validate csv)
          = duplicate_emails (bulk_rows 0 (rows csv) no_bulk_lists)) as ->
    by (unfold Views.bulk_validate; by destruct (csv_error csv)).
  rewrite bulk_rows_duplicate_emails. simpl. unfold later_occurrences. f_equal.
  apply imap_ext. intros i x _. simpl.
  apply (f_equal (λ b : bool, if b then [x] else [])).
  apply bool_decide_ext. rewrite elem_of_empty. tauto.
Qed.

(** C2. Linking learners.  In single mode, when the email the field
    resolves to passes [validate_email_to_link], the handler calls
    [link_user] for exactly that email and returns it as a one-element
    list.  In bulk mode without validation errors, the handler calls
    [link_user] once for each distinct email of the CSV that is not yet
    linked, reports the count, warns about the emails linked already and
    about the duplicates, and returns the newly linked emails followed
    by the ones linked already.  The duplicates reported are the rows
    with a new email that an earlier row has already, in the order of
    the CSV: every row with a new email is linked once or reported as a
    duplicate, and every row is linked, a duplicate or linked
    already. *)
Theorem link_learners :
  (∀ customer form_field_value w b,
     validate_email_to_link (email_or_username__to__email form_field_value) false = inr b →
     _handle_singular customer form_field_value w
     = (inl (Some [email_or_username__to__email form_field_value]),
        extend_trace
          [link_user (uuid customer) (email_or_username__to__email form_field_value)] w))
  ∧
  (∀ customer csv w,
     csv_error csv = None →
     (∀ addr, addr ∈ rows csv → is_rejected addr = false) →
     ∃ linked,
       let already := List.filter is_already_linked (rows csv) in
       let duplicates := later_occurrences (List.filter is_new (rows csv)) in
       _handle_bulk_upload customer csv w
       = (inl (Some (linked ++ already)),
          extend_trace
            ((link_user (uuid customer) <$> linked)
             ++ [messages_success (UsersLinked (length linked) (name customer))]
             ++ (if nonempty already then [messages_warning (AlreadyLinked already)] else [])
             ++ (if nonempty duplicates
                 then [messages_warning (DuplicatesIgnored duplicates)] else [])) w)
       ∧ NoDup linked
       ∧ (∀ addr, addr ∈ linked ↔ addr ∈ rows csv ∧ is_new addr = true)
       ∧ (∀ addr, addr ∈ duplicates → addr ∈ linked ∧ addr ∈ rows csv)
       ∧ linked ++ duplicates ≡ₚ List.filter is_new (rows csv)
       ∧ length linked + length duplicates + length already = length (rows csv)).
Proof.
  split; [apply handle_singular_links|].
  intros customer csv w Hnone Hall.
  pose proof (proj2 (bulk_validate_errors_nil csv) (conj Hnone Hall)) as Herr.
  assert (bulk_validate csv = bulk_rows 0 (rows csv) no_bulk_lists) as Hls.
  { unfold Views.bulk_validate. by rewrite Hnone. }
  exists (elements (emails (bulk_validate csv))).
  assert (already_linked_emails (bulk_validate csv)
          = List.filter is_already_linked (rows csv)) as Hal.
  { rewrite Hls, bulk_rows_already_linked. done. }
  assert (∀ addr, addr ∈ elements (emails (bulk_validate csv))
                  ↔ addr ∈ rows csv ∧ is_new addr = true) as Hmem.
  { intros addr. rewrite elem_of_elements, Hls, bulk_rows_emails. simpl.
    split; [intros [Hin|Hin]; [by apply elem_of_empty in Hin | done] | by right]. }
  cbv zeta. rewrite <- (bulk_validate_duplicates csv), <- Hal.
  split; [|split; [|split; [|split; [|split]]]].
  - unfold Views._handle_bulk_upload.
    rewrite (proj2 (nonempty_false _) Herr).
    erewrite bind_returned; [|apply for_each_emit].
    erewrite bind_returned; [|reflexivity].
    rewrite extend_trace_app.
    unfold Views.when.
    destruct (nonempty (already_linked_emails _)), (nonempty (duplicate_emails _));
      repeat (erewrite bind_returned; [|reflexivity]);
      unfold mret, M_ret, ret; rewrite ?extend_trace_app, <- ?app_assoc; simpl;
      rewrite ?app_nil_r; done.
  - apply NoDup_elements.
  - done.
  - intros addr Hd. rewrite Hls in Hd.
    apply bulk_rows_duplicates in Hd as [Hd|He]; [by apply elem_of_nil in Hd|].
    rewrite <- Hls in He. apply elem_of_elements in He.
    split; [done | by apply Hmem in He as [? _]].
  - rewrite Hls, bulk_rows_new_emails. simpl. by rewrite elements_empty.
  - pose proof (bulk_rows_accounted 0 (rows csv) no_bulk_lists Hall) as Hacc.
    rewrite <- Hls in Hacc. change (emails no_bulk_lists) with (∅ : gset string) in Hacc.
    rewrite size_empty in Hacc. simpl in Hacc.
    change (size (emails (bulk_validate csv)))
      with (length (elements (emails (bulk_validate csv)))) in Hacc. lia.
Qed.

End Linking.
(** *** Enrolling *)

Lemma enroll_email_step w course mode addr ls :
  foreseen w course mode addr = true →
  enroll_email course mode addr ls w
  = (inl (sorted_lists w course mode [addr] ls),
     extend_trace (email_effects w course mode addr) w).
Proof.
  unfold foreseen, sorted_lists, enroll_email, has_no_account, is_enrolled, is_failed,
    email_effects, account.
  unfold mbind, M_bind, bind, try_except, objects_get, mret, M_ret, ret. simpl.
  destruct (get_rows _ (auth_user w)) as [u| |] eqn:Hacc; simpl; [| |done].
  - unfold call_enroll_user_in_course, emit. run_M. simpl.
    destruct (enrollment_api w (username u) course mode) as [|[m| | |]|]; simpl; try done.
    + intros _. by rewrite !app_nil_r.
    + intros _. rewrite !app_nil_r, extend_trace_app. done.
  - intros _. rewrite !app_nil_r, extend_trace_nil. done.
Qed.

Lemma sorted_lists_cons w course mode addr addrs ls :
  sorted_lists w course mode addrs (sorted_lists w course mode [addr] ls)
  = sorted_lists w course mode (addr :: addrs) ls.
Proof.
  unfold sorted_lists. simpl.
  destruct (is_enrolled _ _ _ _), (has_no_account _ _), (is_failed _ _ _ _);
    simpl; rewrite ?app_nil_r, <- ?app_assoc; done.
Qed.

Lemma enroll_loop_run w course mode addrs ls :
  (∀ addr, addr ∈ addrs → foreseen w course mode addr = true) →
  for_each addrs (enroll_email course mode) ls w
  = (inl (sorted_lists w course mode addrs ls),
     extend_trace (flat_map (email_effects w course mode) addrs) w).
Proof.
  revert ls. generalize (eq_refl (extend_trace [] w)).
  generalize (extend_trace [] w) at 1. intros _ _.
  assert (∀ es ls,
    (∀ addr, addr ∈ addrs → foreseen w course mode addr = true) →
    for_each addrs (enroll_email course mode) ls (extend_trace es w)
    = (inl (sorted_lists w course mode addrs ls),
       extend_trace (es ++ flat_map (email_effects w course mode) addrs) w)) as Hgen.
  { induction addrs as [|a addrs IH]; intros es ls Hall.
    - simpl. unfold sorted_lists. simpl. rewrite !app_nil_r. by destruct ls.
    - rewrite for_each_cons.
      rewrite (enroll_email_step (extend_trace es w))
        by (apply (Hall a), list_elem_of_here).
      rewrite extend_trace_app.
      change (email_effects (extend_trace es w)) with (email_effects w).
      change (sorted_lists (extend_trace es w)) with (sorted_lists w).
      rewrite IH by (intros addr Hin; apply Hall; by apply list_elem_of_further).
      rewrite sorted_lists_cons. simpl. by rewrite <- app_assoc. }
  intros ls Hall. specialize (Hgen [] ls Hall).
  rewrite extend_trace_nil in Hgen. exact Hgen.
Qed.

Lemma get_rows_NoDup (row : PendingEnrollment) rows :
  NoDup rows →
  get_rows (λ r, bool_decide (r = row)) rows
  = if bool_decide (row ∈ rows) then Found row else NoneFound.
Proof.
  unfold get_rows, objects_filter.
  induction 1 as [|r rows Hnotin Hnd IH]; [done|]. simpl.
  destruct (decide (r = row)) as [->|Hne].
  - rewrite (bool_decide_eq_true_2 (row = row)) by done.
    rewrite (bool_decide_eq_true_2 (row ∈ row :: rows)) by apply list_elem_of_here.
    rewrite (bool_decide_eq_false_2 _ Hnotin) in IH.
    by destruct (List.filter _ rows) as [|? [|? ?]].
  - rewrite (bool_decide_eq_false_2 (r = row)) by done.
    destruct (bool_decide (row ∈ rows)) eqn:Hin.
    + rewrite bool_decide_eq_true_2; [done|].
      apply list_elem_of_further. by apply bool_decide_eq_true_1 in Hin.
    + rewrite bool_decide_eq_false_2; [done|].
      intros [?|?]%elem_of_cons; [congruence|].
      apply bool_decide_eq_false_1 in Hin. done.
Qed.

Lemma with_pending_enrollments_id w : with_pending_enrollments (pending_enrollments w) w = w.
Proof. by destruct w. Qed.

Lemma create_pending_enrollment_run customer course mode addr w p :
  pending_user_of w customer addr = Found p →
  NoDup (pending_enrollments w) →
  create_pending_enrollment customer course mode addr tt w
  = (inl tt,
     with_pending_enrollments
       (if bool_decide (pending_row p course mode ∈ pending_enrollments w)
        then pending_enrollments w
        else pending_enrollments w ++ [pending_row p course mode]) w).
Proof.
  intros Hp Hnd. unfold create_pending_enrollment, pending_user_of in *.
  unfold mbind, M_bind, bind, objects_get. rewrite Hp.
  unfold PendingEnrollment_update_or_create, mbind, M_bind, bind, gets.
  fold (pending_row p course mode).
  rewrite (get_rows_NoDup _ _ Hnd).
  destruct (bool_decide _); [|done].
  unfold mret, M_ret, ret. by rewrite with_pending_enrollments_id.
Qed.

Lemma pending_loop_run customer course mode addrs w :
  NoDup (pending_enrollments w) →
  (∀ addr, addr ∈ addrs → ∃ p, pending_user_of w customer addr = Found p) →
  ∃ rows',
    for_each addrs (create_pending_enrollment customer course mode) tt w
    = (inl tt, with_pending_enrollments rows' w)
    ∧ NoDup rows'
    ∧ (∀ r, r ∈ pending_enrollments w → r ∈ rows')
    ∧ (∀ addr, addr ∈ addrs →
         ∃ p, pending_user_of w customer addr = Found p ∧ pending_row p course mode ∈ rows')
    ∧ (∀ r, r ∈ rows' →
         r ∈ pending_enrollments w
         ∨ ∃ addr p, addr ∈ addrs ∧ pending_user_of w customer addr = Found p
                     ∧ r = pending_row p course mode).
Proof.
  intros Hnd Hall.
  assert (∀ rows, NoDup rows →
    ∃ rows',
      for_each addrs (create_pending_enrollment customer course mode) tt
        (with_pending_enrollments rows w)
      = (inl tt, with_pending_enrollments rows' w)
      ∧ NoDup rows'
      ∧ (∀ r, r ∈ rows → r ∈ rows')
      ∧ (∀ addr, addr ∈ addrs →
           ∃ p, pending_user_of w customer addr = Found p ∧ pending_row p course mode ∈ rows')
      ∧ (∀ r, r ∈ rows' →
           r ∈ rows
           ∨ ∃ addr p, addr ∈ addrs ∧ pending_user_of w customer addr = Found p
                       ∧ r = pending_row p course mode)) as Hgen.
  { clear Hnd. induction addrs as [|a addrs IH]; intros rows Hnd.
    - exists rows. split; [done|]. split; [done|]. split; [done|]. split.
      + intros addr Hin. by apply elem_of_nil in Hin.
      + intros r Hr. by left.
    - destruct (Hall a (list_elem_of_here _ _)) as [p Hp].
      rewrite for_each_cons.
      rewrite (create_pending_enrollment_run customer course mode a _ p); [|done|done].
      cbn [pending_enrollments with_pending_enrollments].
      set (rows1 := if bool_decide (pending_row p course mode ∈ rows)
                    then rows else rows ++ [pending_row p course mode]).
      assert (NoDup rows1) as Hnd1.
      { unfold rows1. case_bool_decide as Hin; [done|].
        apply NoDup_app. split; [done|]. split.
        - intros x Hx Hx'. apply list_elem_of_singleton in Hx'. by subst x.
        - apply NoDup_singleton. }
      assert (pending_row p course mode ∈ rows1) as Hrow.
      { unfold rows1. case_bool_decide as Hin; [done|].
        apply elem_of_app. right. apply list_elem_of_here. }
      assert (∀ r, r ∈ rows → r ∈ rows1) as Hsub.
      { intros r Hr. unfold rows1. case_bool_decide; [done|].
        apply elem_of_app. by left. }
      assert (∀ r, r ∈ rows1 → r ∈ rows ∨ r = pending_row p course mode) as Hback.
      { intros r. unfold rows1. case_bool_decide; [by left|].
        intros [?|Hr]%elem_of_app; [by left|].
        apply list_elem_of_singleton in Hr. by right. }
      destruct (IH (λ addr Hin, Hall addr (list_elem_of_further _ _ _ Hin)) rows1 Hnd1)
        as (rows' & Hrun & Hnd' & Hsub' & Hin' & Hback').
      exists rows'.
      change (with_pending_enrollments rows1 (with_pending_enrollments rows w))
        with (with_pending_enrollments rows1 w).
      split; [exact Hrun|]. split; [done|]. split; [by auto|]. split.
      + intros addr [->|Hin]%elem_of_cons; [|by apply Hin'].
        exists p. split; [done|]. by apply Hsub'.
      + intros r [Hr|(addr & q & Hin & Hq & ->)]%Hback'.
        * apply Hback in Hr as [?| ->]; [by left|].
          right. exists a, p. split; [apply list_elem_of_here | done].
        * right. exists addr, q. split; [by apply list_elem_of_further | done]. }
  destruct (Hgen _ Hnd) as (rows' & Hrun & ?).
  rewrite with_pending_enrollments_id in Hrun. by exists rows'.
Qed.

Lemma outcomes_exclusive w course mode addr :
  (is_enrolled w course mode addr = true →
     has_no_account w addr = false ∧ is_failed w course mode addr = false)
  ∧ (has_no_account w addr = true →
     is_enrolled w course mode addr = false ∧ is_failed w course mode addr = false)
  ∧ (is_failed w course mode addr = true →
     is_enrolled w course mode addr = false ∧ has_no_account w addr = false).
Proof.
  unfold is_enrolled, has_no_account, is_failed.
  destruct (account w addr) as [u| |]; [|done|done].
  destruct (enrollment_api w (username u) course mode) as [|[?| | |]|]; done.
Qed.

Lemma failed_is_logged w course mode addr addrs :
  addr ∈ addrs → is_failed w course mode addr = true →
  ∃ u m, account w addr = Found u
         ∧ enrollment_api w (username u) course mode = ClientError (JsonObject m)
         ∧ logging_error (username u) (default "No error message provided." m)
           ∈ flat_map (email_effects w course mode) addrs.
Proof.
  intros Hin Hf. unfold is_failed in Hf.
  destruct (account w addr) as [u| |] eqn:Hacc; [|done|done].
  destruct (enrollment_api w (username u) course mode) as [|[m| | |]|] eqn:Hapi; try done.
  exists u, m. split; [done|]. split; [done|].
  apply list_elem_of_In, in_flat_map. exists addr. split; [by apply list_elem_of_In|].
  unfold email_effects. rewrite Hacc, Hapi. right. by left.
Qed.

Lemma enroll_users_run customer emails course mode w :
  (∀ addr, addr ∈ emails → foreseen w course mode addr = true) →
  (∀ addr, addr ∈ emails → has_no_account w addr = true →
     ∃ p, pending_user_of w customer addr = Found p) →
  NoDup (pending_enrollments w) →
  let ls := sorted_lists w course mode emails no_lists in
  ∃ rows',
    _enroll_users customer emails course mode w
    = (inl tt,
       with_pending_enrollments rows'
         (extend_trace
            (flat_map (email_effects w course mode) emails
             ++ enroll_messages_before course ls ++ enroll_messages_after ls) w))
    ∧ (∀ r, r ∈ pending_enrollments w → r ∈ rows')
    ∧ (∀ addr, addr ∈ non_existing ls →
         ∃ p, pending_user_of w customer addr = Found p ∧ pending_row p course mode ∈ rows')
    ∧ (∀ r, r ∈ rows' →
         r ∈ pending_enrollments w
         ∨ ∃ addr p, addr ∈ non_existing ls ∧ pending_user_of w customer addr = Found p
                     ∧ r = pending_row p course mode).
Proof.
  intros Hfore Hpend Hnd ls.
  assert (∀ addr, addr ∈ non_existing ls → ∃ p, pending_user_of w customer addr = Found p)
    as Hpend'.
  { intros addr [Hin Hno]%elem_of_List_filter. by apply Hpend. }
  unfold _enroll_users.
  erewrite bind_returned; [|apply (enroll_loop_run _ _ _ _ _ Hfore)].
  fold ls. unfold enroll_messages_before, enroll_messages_after, Views.when.
  set (w1 := extend_trace (flat_map (email_effects w course mode) emails) w).
  set (es1 := if negb (Nat.eqb (length (enrolled ls)) 0)
              then [messages_success (UsersEnrolled (length (enrolled ls)) course)] else []).
  assert ((if negb (Nat.eqb (length (enrolled ls)) 0)
           then emit (messages_success (UsersEnrolled (length (enrolled ls)) course))
           else ret tt) w1 = (inl tt, extend_trace es1 w1)) as Hes1.
  { unfold es1. destruct (negb _); [done|]. unfold ret. by rewrite extend_trace_nil. }
  erewrite bind_returned; [|exact Hes1].
  set (w2 := extend_trace es1 w1).
  set (es3 := if nonempty (failed ls)
              then [messages_error (EnrollmentFailed (failed ls))] else []).
  assert (∀ w', (if nonempty (failed ls)
                 then emit (messages_error (EnrollmentFailed (failed ls)))
                 else ret tt) w' = (inl tt, extend_trace es3 w')) as Hes3.
  { intros w'. unfold es3. destruct (nonempty _); [done|].
    unfold ret. by rewrite extend_trace_nil. }
  destruct (nonempty (non_existing ls)) eqn:Hne.
  - destruct (pending_loop_run customer course mode (non_existing ls)
                (extend_trace [messages_warning (NoAccountNotEnrolled (non_existing ls))] w2)
                Hnd Hpend') as (rows' & Hrun & _ & Hsub & Hin & Hback).
    exists rows'. split; [|by repeat split].
    erewrite bind_returned;
      [|erewrite bind_returned; [exact Hrun | reflexivity]].
    rewrite Hes3. unfold w2, w1.
    unfold with_pending_enrollments, extend_trace. simpl.
    by rewrite <- !app_assoc.
  - exists (pending_enrollments w).
    apply nonempty_false in Hne.
    split; [|split; [done|split; [|by left]]].
    + erewrite bind_returned; [|reflexivity].
      rewrite Hes3. unfold w2, w1.
      unfold with_pending_enrollments, extend_trace, ret. simpl.
      rewrite <- ?app_assoc, ?app_nil_r. done.
    + intros addr Hin. rewrite Hne in Hin. by apply elem_of_nil in Hin.
Qed.

(** X16. A complete run of [_enroll_users].  Suppose every email is one the loop
    provides for (at most one account has it, and the enrollment API
    either enrolls or raises a client error whose body is a JSON
    object), every email without an account has exactly one pending
    user record for the enterprise customer, and the pending
    enrollments hold no row twice.  Then [_enroll_users] returns, and
    each email ends in exactly one of the three lists: enrolled when it
    has an account and the API call succeeds; non-existing when it has
    no account, and then the pending enrollment for its pending user
    record, the course and the mode is in the table afterwards; failed
    when the API raises a client error, and then the error is logged and
    the remaining emails are still processed. *)
Theorem enroll_users_outcomes customer emails course mode w :
  (∀ addr, addr ∈ emails → foreseen w course mode addr = true) →
  (∀ addr, addr ∈ emails → has_no_account w addr = true →
     ∃ p, pending_user_of w customer addr = Found p) →
  NoDup (pending_enrollments w) →
  ∃ ls w',
    enroll_loop emails course mode w
    = (inl ls, extend_trace (flat_map (email_effects w course mode) emails) w)
    ∧ _enroll_users customer emails course mode w = (inl tt, w')
    ∧ trace w' = trace w ++ flat_map (email_effects w course mode) emails
                 ++ enroll_messages_before course ls ++ enroll_messages_after ls
    ∧ ∀ addr, addr ∈ emails →
        (is_enrolled w course mode addr = true
         ∧ addr ∈ enrolled ls ∧ (addr ∉ non_existing ls) ∧ (addr ∉ failed ls))
        ∨ (has_no_account w addr = true
           ∧ (addr ∉ enrolled ls) ∧ addr ∈ non_existing ls ∧ (addr ∉ failed ls)
           ∧ ∃ p, pending_user_of w customer addr = Found p
                  ∧ pending_row p course mode ∈ pending_enrollments w')
        ∨ (is_failed w course mode addr = true
           ∧ (addr ∉ enrolled ls) ∧ (addr ∉ non_existing ls) ∧ addr ∈ failed ls
           ∧ ∃ u m, account w addr = Found u
                    ∧ logging_error (username u) m ∈ trace w').
Proof.
  intros Hfore Hpend Hnd.
  destruct (enroll_users_run customer emails course mode w Hfore Hpend Hnd)
    as (rows' & Hrun & _ & Hrows & _).
  set (ls := sorted_lists w course mode emails no_lists) in *.
  exists ls, (with_pending_enrollments rows'
                (extend_trace (flat_map (email_effects w course mode) emails
                               ++ enroll_messages_before course ls
                               ++ enroll_messages_after ls) w)).
  split; [apply (enroll_loop_run _ _ _ _ _ Hfore)|].
  split; [exact Hrun|]. split; [done|].
  intros addr Hin. specialize (Hfore addr Hin). unfold foreseen in Hfore.
  destruct (outcomes_exclusive w course mode addr) as (Hex1 & Hex2 & Hex3).
  assert (∀ f, f addr = false → addr ∉ List.filter f emails) as Hout.
  { intros f Hf [_ Ht]%elem_of_List_filter. congruence. }
  assert (∀ f, f addr = true → addr ∈ List.filter f emails) as Hinto.
  { intros f Hf. by apply elem_of_List_filter. }
  destruct (is_enrolled w course mode addr) eqn:He; [left|].
  { destruct (Hex1 eq_refl) as [Hn Hf]. simpl. repeat split; auto. }
  destruct (has_no_account w addr) eqn:Hn; [right; left|].
  { destruct (Hex2 eq_refl) as [_ Hf]. simpl.
    split; [done|]. split; [auto|]. split; [auto|]. split; [auto|].
    apply Hrows. simpl. auto. }
  destruct (is_failed w course mode addr) eqn:Hf; [right; right|done].
  simpl. split; [done|]. split; [auto|]. split; [auto|]. split; [auto|].
  destruct (failed_is_logged w course mode addr emails Hin Hf) as (u & m & Hu & _ & Hlog).
  exists u, (default "No error message provided." m). split; [done|].
  simpl. apply elem_of_app. right. apply elem_of_app. by left.
Qed.

(** On sample data: alice is enrolled, bob is turned away, carol has no
    account yet. *)
Lemma enroll_users_outcomes_witness :
  ∃ ls w',
    enroll_loop ["alice@example.org"; "carol@example.org"; "bob@example.org"]
      "course-v1:edX+DemoX" "audit" Examples.campus
    = (inl ls,
       extend_trace
         (flat_map (email_effects Examples.campus "course-v1:edX+DemoX" "audit")
            ["alice@example.org"; "carol@example.org"; "bob@example.org"])
         Examples.campus)
    ∧ _enroll_users Examples.acme
        ["alice@example.org"; "carol@example.org"; "bob@example.org"]
        "course-v1:edX+DemoX" "audit" Examples.campus = (inl tt, w')
    ∧ ls = {| enrolled := ["alice@example.org"];
              non_existing := ["carol@example.org"];
              failed := ["bob@example.org"] |}
    ∧ pending_enrollments w'
      = [{| user := 7; course_id := "course-v1:edX+DemoX"; course_mode := "audit" |}].
Proof.
  destruct (enroll_users_outcomes Examples.acme
              ["alice@example.org"; "carol@example.org"; "bob@example.org"]
              "course-v1:edX+DemoX" "audit" Examples.campus)
    as (ls & w' & Hloop & Hrun & _ & _).
  - intros addr Hin. repeat (apply elem_of_cons in Hin as [->|Hin]); [reflexivity..|].
    by apply elem_of_nil in Hin.
  - intros addr Hin. repeat (apply elem_of_cons in Hin as [->|Hin]).
    + discriminate.
    + intros _. exists Examples.carol_pending. reflexivity.
    + discriminate.
    + by apply elem_of_nil in Hin.
  - constructor.
  - exists ls, w'. split; [exact Hloop|]. split; [exact Hrun|].
    vm_compute in Hloop. vm_compute in Hrun.
    injection Hloop as <-. injection Hrun as <-. split; reflexivity.
Defined.

(** An email without an account and without a pending user record makes
    [_enroll_users] raise [PendingEnterpriseCustomerUser.DoesNotExist];
    no pending enrollment is created for it. *)
Lemma enroll_users_without_pending_user_raises :
  has_no_account Examples.nobody "ghost@example.org" = true
  ∧ ∃ w', _enroll_users Examples.acme ["ghost@example.org"] "course-v1:edX+DemoX" "audit"
            Examples.nobody
          = (inr (DoesNotExist "PendingEnterpriseCustomerUser"), w')
          ∧ pending_enrollments w' = [].
Proof. split; [reflexivity|]. eexists. split; [vm_compute; reflexivity | reflexivity]. Qed.

(** C1.  The second outcome of the claim fails on the code for an email
    with no account and no pending user record of this enterprise
    customer, and the view itself passes such emails on.  Dana has no
    account and is pending at another customer.  [_handle_bulk_upload]
    sorts her as linked already, calls [link_user] for erin only, and
    returns both emails.  [_enroll_users] on the two emails then records
    both as non-existing, warns that both will be enrolled when they
    create an account, creates erin's pending enrollment, and at dana
    raises [PendingEnterpriseCustomerUser.DoesNotExist] from the lookup
    of line 268, which no [except] guards: no pending enrollment exists
    for dana.  The same happens through [post]. *)
Theorem enroll_users_raises_for_email_linked_elsewhere :
  has_no_account MoreExamples.after_linking "dana@example.org" = true
  ∧ pending_user_of MoreExamples.after_linking Examples.acme "dana@example.org" = NoneFound
  ∧ _handle_bulk_upload Examples.sample_validate Examples.acme MoreExamples.upload
      MoreExamples.before_upload
    = (inl (Some ["erin@example.org"; "dana@example.org"]),
       extend_trace
         [link_user "acme" "erin@example.org";
          messages_success (UsersLinked 1 "Acme");
          messages_warning (AlreadyLinked ["dana@example.org"])]
         MoreExamples.before_upload)
  ∧ _enroll_users Examples.acme ["erin@example.org"; "dana@example.org"]
      "course-v1:edX+DemoX" "audit" MoreExamples.after_linking
    = (inr (DoesNotExist "PendingEnterpriseCustomerUser"),
       with_pending_enrollments
         [pending_row MoreExamples.erin_pending "course-v1:edX+DemoX" "audit"]
         (extend_trace
            [messages_warning
               (NoAccountNotEnrolled ["erin@example.org"; "dana@example.org"])]
            MoreExamples.after_linking))
  ∧ MoreExamples.upload_post MoreExamples.upload_form "acme" MoreExamples.before_upload
    = (inr (DoesNotExist "PendingEnterpriseCustomerUser"),
       with_pending_enrollments
         [pending_row MoreExamples.erin_pending "course-v1:edX+DemoX" "audit"]
         (extend_trace
            [link_user "acme" "erin@example.org";
             messages_success (UsersLinked 1 "Acme");
             messages_warning (AlreadyLinked ["dana@example.org"]);
             messages_warning
               (NoAccountNotEnrolled ["erin@example.org"; "dana@example.org"])]
            MoreExamples.after_linking)).
Proof. repeat split; vm_compute; reflexivity. Qed.

(** *** Requests, error paths *)

Lemma enroll_requests emails w course mode :
  requests (flat_map (email_effects w course mode) emails)
  = length (List.filter (has_account w) emails).
Proof.
  unfold requests. induction emails as [|a emails IH]; [done|]. simpl.
  rewrite List.filter_app, length_app, IH.
  unfold email_effects, has_account.
  destruct (account w a) as [u| |]; simpl; [|done|done].
  by destruct (enrollment_api w (username u) course mode) as [|[?| | |]|].
Qed.

Lemma enroll_messages_no_request course ls :
  requests (enroll_messages_before course ls ++ enroll_messages_after ls) = 0.
Proof.
  unfold requests, enroll_messages_before, enroll_messages_after.
  by destruct (negb _), (nonempty (non_existing ls)), (nonempty (failed ls)).
Qed.

Lemma bulk_upload_run validate customer csv w :
  let ls := bulk_validate validate csv in
  _handle_bulk_upload validate customer csv w
  = if nonempty (errors ls)
    then (inl None,
          extend_trace
            (form_add_error GENERAL_ERRORS BULK_LINK_FAILED
             :: (form_add_error BULK_UPLOAD <$> errors ls)) w)
    else (inl (Some (elements (emails ls) ++ already_linked_emails ls)),
          extend_trace
            ((link_user (uuid customer) <$> elements (emails ls))
             ++ [messages_success (UsersLinked (length (elements (emails ls))) (name customer))]
             ++ (if nonempty (already_linked_emails ls)
                 then [messages_warning (AlreadyLinked (already_linked_emails ls))] else [])
             ++ (if nonempty (duplicate_emails ls)
                 then [messages_warning (DuplicatesIgnored (duplicate_emails ls))] else []))
            w).
Proof.
  intros ls. unfold _handle_bulk_upload. fold ls.
  destruct (nonempty (errors ls)).
  - erewrite bind_returned; [|reflexivity].
    erewrite bind_returned; [|apply for_each_emit].
    by rewrite extend_trace_app.
  - erewrite bind_returned; [|apply for_each_emit].
    erewrite bind_returned; [|reflexivity].
    rewrite extend_trace_app. unfold Views.when.
    destruct (nonempty (already_linked_emails ls)), (nonempty (duplicate_emails ls));
      repeat (erewrite bind_returned; [|reflexivity]);
      unfold mret, M_ret, ret; rewrite ?extend_trace_app, <- ?app_assoc; simpl;
      rewrite ?app_nil_r; done.
Qed.

Lemma handle_singular_rejected to_email validate customer value w message :
  validate (to_email value) false = inl message →
  _handle_singular to_email validate customer value w
  = (inl None,
     extend_trace [form_add_error EMAIL_OR_USERNAME (FieldError message)] w).
Proof.
  intros H. unfold _handle_singular, call_validate_email_to_link, emit.
  run_M. rewrite H. done.
Qed.

Lemma delete_run unlink addr customer_uuid customer w :
  get_rows (λ c, bool_decide (uuid c = customer_uuid)) (customers w) = Found customer →
  delete unlink (Some addr) customer_uuid w
  = (match unlink (uuid customer) addr with
     | None => inl {| content := EmptyJson; status := 200 |}
     | Some e =>
         if bool_decide (e = DoesNotExist "EnterpriseCustomerUser")
            || bool_decide (e = DoesNotExist "PendingEnterpriseCustomerUser")
         then inl {| content := NotLinkedMessage addr (name customer); status := 404 |}
         else inr e
     end,
     extend_trace [unlink_user (uuid customer) addr] w).
Proof.
  intros Hc. unfold delete, objects_get, emit. run_M.
  rewrite Hc. cbn [customers extend_trace].
  destruct (unlink (uuid customer) addr) as [e|]; [|done]. cbn beta iota.
  by destruct (bool_decide _ || bool_decide _).
Qed.



End ViewsSpec.

(** ** The signal receivers *)

Module SignalsSpec.
Import Django Models Signals.

Lemma receiver_trace_nil w : extend_trace [] w = w.
Proof. destruct w. unfold extend_trace. simpl. by rewrite app_nil_r. Qed.

Lemma receiver_trace_app es1 es2 w :
  extend_trace es2 (extend_trace es1 w) = extend_trace (es1 ++ es2) w.
Proof. unfold extend_trace. simpl. by rewrite app_assoc. Qed.

(** *** Role assignments *)

(** C7. For a record with a user, the receivers keep the
    enterprise_learner role in step with the record: [post_save] assigns
    the role when the record is created, assigns it again when the
    record is saved linked, deletes it when the record is saved
    unlinked; [post_delete] deletes the admin and the learner role
    assignment of that user and enterprise customer. *)
Theorem learner_role_follows_record instance u w :
  ecu_user instance = Some u →
  let customer := uuid (ecu_enterprise_customer instance) in
  assign_or_delete_enterprise_learner_role instance true w
  = (inl tt, extend_trace [assign_learner_role u customer] w)
  ∧ (linked instance = true →
     assign_or_delete_enterprise_learner_role instance false w
     = (inl tt, extend_trace [assign_learner_role u customer] w))
  ∧ (linked instance = false →
     assign_or_delete_enterprise_learner_role instance false w
     = (inl tt, extend_trace [delete_learner_role_assignment u customer] w))
  ∧ post_delete_EnterpriseCustomerUser instance w
    = (inl tt, extend_trace [delete_admin_role_assignment u customer;
                             delete_learner_role_assignment u customer] w).
Proof.
  intros Hu customer.
  unfold assign_or_delete_enterprise_learner_role, post_delete_EnterpriseCustomerUser,
    delete_enterprise_admin_role_assignment, delete_enterprise_learner_role_assignment.
  rewrite Hu. fold customer.
  split; [done|]. split; [intros Hl; by rewrite Hl|]. split; [intros Hl; by rewrite Hl|].
  erewrite bind_returned; [|reflexivity].
  unfold emit, modify. by rewrite receiver_trace_app.
Qed.

Lemma learner_role_follows_record_witness :
  assign_or_delete_enterprise_learner_role Examples.alice_at_acme true Examples.invited
  = (inl tt, extend_trace [assign_learner_role Examples.alice "acme"] Examples.invited)
  ∧ post_delete_EnterpriseCustomerUser Examples.alice_at_acme Examples.invited
    = (inl tt, extend_trace [delete_admin_role_assignment Examples.alice "acme";
                             delete_learner_role_assignment Examples.alice "acme"]
                 Examples.invited).
Proof.
  destruct (learner_role_follows_record Examples.alice_at_acme Examples.alice
              Examples.invited eq_refl) as (Hc & _ & _ & Hd).
  split; [exact Hc | exact Hd].
Defined.

(** *** Catalog synchronisation *)

Lemma update_catalog_connected instance created w response :
  catalog_client_connected w = true →
  catalog_service w (catalog_uuid instance) (negb created) = inl response →
  update_enterprise_catalog_data instance created w
  = (inl tt,
     extend_trace
       [http (get_enterprise_catalog (catalog_uuid instance) (negb created));
        http (if response
              then update_enterprise_catalog (catalog_uuid instance) (fields_of instance)
              else create_enterprise_catalog (catalog_uuid instance) (fields_of instance));
        http (refresh_catalogs [catalog_uuid instance])] w).
Proof.
  intros Hc Hs.
  unfold update_enterprise_catalog_data, EnterpriseCatalogApiClient,
    client_get_enterprise_catalog, emit.
  run_M. rewrite Hc. simpl. rewrite Hs. destruct response; simpl;
    rewrite !receiver_trace_app; done.
Qed.

Lemma update_catalog_disconnected instance created w :
  catalog_client_connected w = false →
  update_enterprise_catalog_data instance created w
  = (inl tt,
     extend_trace
       [logger_exception (UnableToUpdateCatalog (catalog_uuid instance)) NotConnectedToOpenEdX]
       w).
Proof.
  intros Hc. unfold update_enterprise_catalog_data, EnterpriseCatalogApiClient, emit.
  run_M. rewrite Hc. simpl. done.
Qed.

Lemma delete_catalog_run instance w :
  delete_enterprise_catalog_data instance w
  = (inl tt,
     extend_trace
       ((if catalog_client_connected w
         then http (delete_enterprise_catalog (catalog_uuid instance))
         else logger_exception (UnableToDeleteCatalog (catalog_uuid instance))
                NotConnectedToOpenEdX)
        :: orphan_audit instance w) w).
Proof.
  unfold delete_enterprise_catalog_data, orphan_audit, EnterpriseCatalogApiClient, when, emit.
  run_M.
  destruct (catalog_client_connected w);
    [|destruct (decide (NotConnectedToOpenEdX = NotConnectedToOpenEdX)) as [_|?]; [|done]];
    cbn [extend_trace active_channel_configuration];
    destruct (existsb
                (λ c : channel,
                   active_channel_configuration w c
                     (uuid (catalog_enterprise_customer instance)))
                INTEGRATED_CHANNELS);
    rewrite ?receiver_trace_app; done.
Qed.

(** C3, as the code has it.  On a save, when the client is connected
    and the query for the catalog's UUID is answered, the receiver has
    queried the service, then created the remote catalog when the answer
    is empty or updated it with the current fields when it is not, and
    then refreshed the catalog.  On a delete, the remote catalog with
    that UUID is deleted when the client is connected; when it is not,
    the failure is logged and no request is made. *)
Theorem catalog_is_synchronised :
  (∀ instance created w response,
     catalog_client_connected w = true →
     catalog_service w (catalog_uuid instance) (negb created) = inl response →
     update_enterprise_catalog_data instance created w
     = (inl tt,
        extend_trace
          [http (get_enterprise_catalog (catalog_uuid instance) (negb created));
           http (if response
                 then update_enterprise_catalog (catalog_uuid instance) (fields_of instance)
                 else create_enterprise_catalog (catalog_uuid instance) (fields_of instance));
           http (refresh_catalogs [catalog_uuid instance])] w))
  ∧ (∀ instance w,
       catalog_client_connected w = true →
       delete_enterprise_catalog_data instance w
       = (inl tt,
          extend_trace
            (http (delete_enterprise_catalog (catalog_uuid instance))
             :: orphan_audit instance w) w))
  ∧ (∀ instance w,
       catalog_client_connected w = false →
       delete_enterprise_catalog_data instance w
       = (inl tt,
          extend_trace
            (logger_exception (UnableToDeleteCatalog (catalog_uuid instance))
               NotConnectedToOpenEdX
             :: orphan_audit instance w) w)
       ∧ ∀ r, http r ∉ logger_exception (UnableToDeleteCatalog (catalog_uuid instance))
                          NotConnectedToOpenEdX
                        :: orphan_audit instance w).
Proof.
  split; [apply update_catalog_connected|]. split.
  - intros instance w Hc. rewrite delete_catalog_run, Hc. done.
  - intros instance w Hc. rewrite delete_catalog_run, Hc. split; [done|].
    intros r [Heq|Hin]%elem_of_cons; [done|].
    unfold orphan_audit in Hin. destruct (existsb _ _).
    + repeat (apply elem_of_cons in Hin as [Heq|Hin]; [done|]). by apply elem_of_nil in Hin.
    + by apply elem_of_nil in Hin.
Qed.

Lemma catalog_is_synchronised_witness :
  update_enterprise_catalog_data Examples.catalog true (Examples.quiet true)
  = (inl tt,
     extend_trace
       [http (get_enterprise_catalog "c0ffee" false);
        http (create_enterprise_catalog "c0ffee" (fields_of Examples.catalog));
        http (refresh_catalogs ["c0ffee"])] (Examples.quiet true))
  ∧ delete_enterprise_catalog_data Examples.catalog (Examples.quiet true)
    = (inl tt, extend_trace [http (delete_enterprise_catalog "c0ffee")] (Examples.quiet true))
  ∧ delete_enterprise_catalog_data Examples.catalog (Examples.quiet false)
    = (inl tt,
       extend_trace
         [logger_exception (UnableToDeleteCatalog "c0ffee") NotConnectedToOpenEdX]
         (Examples.quiet false)).
Proof.
  destruct catalog_is_synchronised as (Hsave & Hdel & Hoff).
  split; [|split].
  - exact (Hsave Examples.catalog true (Examples.quiet true) false eq_refl eq_refl).
  - exact (Hdel Examples.catalog (Examples.quiet true) eq_refl).
  - exact (proj1 (Hoff Examples.catalog (Examples.quiet false) eq_refl)).
Defined.

(** C3 fails as stated: a delete while the client is not connected
    sends no request, so the remote catalog is not deleted. *)
Lemma delete_without_connection_keeps_remote_catalog :
  ∃ w', delete_enterprise_catalog_data Examples.catalog (Examples.quiet false) = (inl tt, w')
        ∧ trace w' = [logger_exception (UnableToDeleteCatalog "c0ffee") NotConnectedToOpenEdX]
        ∧ http (delete_enterprise_catalog (catalog_uuid Examples.catalog)) ∉ trace w'.
Proof.
  eexists. split; [vm_compute; reflexivity|]. split; [reflexivity|].
  simpl. intros Hin. apply list_elem_of_singleton in Hin. discriminate.
Qed.

(** *** Pending admin users *)

Lemma get_rows_Found {A} (f : A → bool) rows a :
  get_rows f rows = Found a → a ∈ rows ∧ f a = true.
Proof.
  unfold get_rows, objects_filter. intros H.
  apply (elem_of_List_filter f rows a).
  destruct (List.filter f rows) as [|b [|c l]]; [done| |done].
  injection H as ->. apply list_elem_of_here.
Qed.

Lemma get_rows_NoneFound {A} (f : A → bool) rows :
  get_rows f rows = NoneFound → ∀ a, a ∈ rows → f a = false.
Proof.
  unfold get_rows, objects_filter. intros H a Hin.
  destruct (f a) eqn:Hf; [|done].
  assert (a ∈ List.filter f rows) as Hin' by by apply elem_of_List_filter.
  destruct (List.filter f rows) as [|b [|c l]]; [|done|done].
  by apply elem_of_nil in Hin'.
Qed.

Lemma get_rows_SeveralFound {A} (f : A → bool) rows :
  get_rows f rows = SeveralFound → ∃ a, a ∈ rows ∧ f a = true.
Proof.
  unfold get_rows, objects_filter. intros H.
  destruct (List.filter f rows) as [|b [|c l]] eqn:Hf; [done|done|].
  exists b. apply (elem_of_List_filter f rows b). rewrite Hf. apply list_elem_of_here.
Qed.

Lemma same_customer_and_email_key a p :
  same_customer_and_email a p = true ↔ pending_key p = admin_key a.
Proof.
  unfold same_customer_and_email, pending_key, admin_key.
  rewrite andb_true_iff, !bool_decide_eq_true. split; [by intros [-> ->]|].
  intros H. by injection H.
Qed.

Lemma filter_unique_key {A K} (key : A → K) (f : A → bool) (k : K) rows :
  NoDup (key <$> rows) →
  (∀ a, f a = true → key a = k) →
  (length (List.filter f rows) ≤ 1)%nat.
Proof.
  intros Hnd Hkey. induction rows as [|a rows IH]; simpl; [lia|].
  apply NoDup_cons in Hnd as [Hnotin Hnd]. specialize (IH Hnd).
  destruct (f a) eqn:Hf; [|done]. simpl.
  destruct (List.filter f rows) as [|b l] eqn:Hrest; [simpl; lia|].
  exfalso. apply Hnotin.
  assert (b ∈ List.filter f rows) as Hb by (rewrite Hrest; apply list_elem_of_here).
  apply elem_of_List_filter in Hb as [Hb Hfb].
  rewrite (Hkey a Hf), <- (Hkey b Hfb). by apply list_elem_of_fmap_2.
Qed.

Lemma NoDup_fmap_eq {A K} (key : A → K) rows a b :
  NoDup (key <$> rows) → a ∈ rows → b ∈ rows → key a = key b → a = b.
Proof.
  induction rows as [|c rows IH]; intros Hnd Ha Hb Hk; [by apply elem_of_nil in Ha|].
  apply NoDup_cons in Hnd as [Hnotin Hnd].
  apply elem_of_cons in Ha as [->|Ha]; apply elem_of_cons in Hb as [->|Hb].
  - done.
  - exfalso. apply Hnotin. rewrite Hk. by apply list_elem_of_fmap_2.
  - exfalso. apply Hnotin. rewrite <- Hk. by apply list_elem_of_fmap_2.
  - by apply IH.
Qed.

(** [get_or_create] leaves a matching pending user record behind, keeps
    every other one, and returns when the table has one row per key. *)
Lemma create_pending_enterprise_admin_user_run instance w :
  ∃ r rows',
    create_pending_enterprise_admin_user instance w = (r, with_pending_users rows' w)
    ∧ (∀ p, p ∈ pending_users w → p ∈ rows')
    ∧ (∃ p, p ∈ rows' ∧ same_customer_and_email instance p = true)
    ∧ (pending_keys_unique w → r = inl tt ∧ NoDup (pending_key <$> rows')).
Proof.
  assert (w = with_pending_users (pending_users w) w) as Hw by by destruct w.
  unfold create_pending_enterprise_admin_user. run_M.
  destruct (get_rows (same_customer_and_email instance) (pending_users w)) as [p| |] eqn:Hg.
  - exists (inl tt), (pending_users w). split; [by rewrite <- Hw|]. split; [done|].
    split; [|done]. exists p. by apply get_rows_Found in Hg.
  - eexists (inl tt), _. split; [reflexivity|]. split; [|split].
    + intros p Hp. apply elem_of_app. by left.
    + eexists. split; [apply elem_of_app; right; apply list_elem_of_here|].
      unfold same_customer_and_email. simpl. by rewrite !bool_decide_eq_true_2.
    + intros Hu. split; [done|]. rewrite fmap_app. apply NoDup_app.
      split; [done|]. split; [|apply NoDup_singleton].
      intros k (p & -> & Hp)%list_elem_of_fmap Hk. apply list_elem_of_singleton in Hk.
      pose proof (get_rows_NoneFound _ _ Hg p Hp) as Hno.
      apply not_true_iff_false in Hno. apply Hno.
      apply same_customer_and_email_key. done.
  - exists (inr (MultipleObjectsReturned "PendingEnterpriseCustomerUser")), (pending_users w).
    split; [by rewrite <- Hw|]. split; [done|]. split.
    + by apply get_rows_SeveralFound in Hg.
    + intros Hu. exfalso.
      pose proof (filter_unique_key pending_key (same_customer_and_email instance)
                    (admin_key instance) (pending_users w) Hu
                    (λ a Ha, proj1 (same_customer_and_email_key instance a) Ha)) as Hlen.
      unfold get_rows, objects_filter in Hg.
      destruct (List.filter _ (pending_users w)) as [|? [|? ?]]; [done|done|].
      simpl in Hlen. lia.
Qed.

Lemma NoDup_fmap_filter {A K} (key : A → K) (f : A → bool) rows :
  NoDup (key <$> rows) → NoDup (key <$> List.filter f rows).
Proof.
  induction rows as [|a rows IH]; simpl; [done|].
  intros [Hnotin Hnd]%NoDup_cons. destruct (f a); [|by apply IH].
  rewrite fmap_cons. apply NoDup_cons. split; [|by apply IH].
  intros (b & Hk & Hb)%list_elem_of_fmap. apply elem_of_List_filter in Hb as [Hb _].
  apply Hnotin. rewrite Hk. by apply list_elem_of_fmap_2.
Qed.

Lemma saved_admin_rows instance rows :
  let rows' :=
    if existsb (λ a, bool_decide (admin_pk a = admin_pk instance)) rows
    then (λ a, if bool_decide (admin_pk a = admin_pk instance) then instance else a) <$> rows
    else rows ++ [instance] in
  instance ∈ rows' ∧ ∀ a, a ∈ rows' → a = instance ∨ a ∈ rows.
Proof.
  cbv zeta. destruct (existsb _ rows) eqn:Hex.
  - apply existsb_exists in Hex as (a & Ha & Hpk). split.
    + apply list_elem_of_fmap. exists a. rewrite Hpk. split; [done | by apply list_elem_of_In].
    + intros b (c & -> & Hc)%list_elem_of_fmap.
      destruct (bool_decide (admin_pk c = admin_pk instance)); [by left | by right].
  - split; [apply elem_of_app; right; apply list_elem_of_here|].
    intros a [Ha|Ha]%elem_of_app; [by right|].
    apply list_elem_of_singleton in Ha. by left.
Qed.

(** C8. The two receivers keep every pending admin user matched by a
    pending user record with the same enterprise customer and email,
    given one row per customer and email in each table.  Saving a pending
    admin user gets or creates the matching pending user record;
    deleting one deletes the matching pending user record, and the
    pending admin users that remain keep theirs. *)
Theorem pending_admin_users_have_pending_users :
  (∀ instance w,
     admins_have_pending_users w → pending_keys_unique w →
     ∃ w', save_pending_admin_user instance w = (inl tt, w')
           ∧ instance ∈ pending_admin_users w'
           ∧ (∃ p, p ∈ pending_users w' ∧ same_customer_and_email instance p = true)
           ∧ (∀ p, p ∈ pending_users w → p ∈ pending_users w')
           ∧ admins_have_pending_users w'
           ∧ pending_keys_unique w')
  ∧ (∀ instance w,
       admins_have_pending_users w → admin_keys_unique w →
       instance ∈ pending_admin_users w →
       ∃ w', delete_pending_admin_user instance w = (inl tt, w')
             ∧ (instance ∉ pending_admin_users w')
             ∧ (∀ p, p ∈ pending_users w' → same_customer_and_email instance p = false)
             ∧ admins_have_pending_users w'
             ∧ admin_keys_unique w').
Proof.
  split.
  - intros instance w Hinv Hu.
    unfold save_pending_admin_user.
    erewrite bind_returned; [|reflexivity].
    erewrite bind_returned; [|reflexivity].
    set (rows' := if existsb _ (pending_admin_users w) then _ else _).
    destruct (saved_admin_rows instance (pending_admin_users w)) as [Hin Hback].
    fold rows' in Hin, Hback.
    destruct (create_pending_enterprise_admin_user_run instance
                (with_pending_admin_users rows' w))
      as (r & prows & Hrun & Hkeep & Hmatch & Hret).
    destruct (Hret Hu) as [-> Hu'].
    eexists. split; [exact Hrun|]. simpl.
    split; [done|]. split; [done|]. split; [done|]. split; [|done].
    intros a [->|Ha]%Hback; [done|].
    destruct (Hinv a Ha) as (p & Hp & Hsame). exists p. split; [by apply Hkeep | done].
  - intros instance w Hinv Hu Hin.
    unfold delete_pending_admin_user, delete_pending_enterprise_admin_user.
    eexists. split; [reflexivity|]. simpl.
    split; [|split; [|split]].
    + intros [_ Hpk]%elem_of_List_filter.
      by rewrite bool_decide_eq_true_2 in Hpk.
    + intros p [_ Hp]%elem_of_List_filter. by apply negb_true_iff in Hp.
    + intros a [Ha Hpk]%elem_of_List_filter.
      destruct (Hinv a Ha) as (p & Hp & Hsame). exists p. split; [|done].
      apply elem_of_List_filter. split; [done|]. apply negb_true_iff.
      destruct (same_customer_and_email instance p) eqn:Hsame'; [|done]. exfalso.
      apply same_customer_and_email_key in Hsame, Hsame'.
      assert (a = instance) as ->.
      { apply (NoDup_fmap_eq admin_key (pending_admin_users w)); [done..|]. congruence. }
      by rewrite bool_decide_eq_true_2 in Hpk.
    + by apply NoDup_fmap_filter.
Qed.

Lemma pending_admin_users_have_pending_users_witness :
  (∃ w', save_pending_admin_user Examples.carol_admin Examples.invited = (inl tt, w')
         ∧ pending_users w' = [Examples.carol_pending]
         ∧ admins_have_pending_users w')
  ∧ (∃ w', delete_pending_admin_user Examples.carol_admin Examples.invited = (inl tt, w')
           ∧ pending_users w' = []
           ∧ admins_have_pending_users w').
Proof.
  assert (admins_have_pending_users Examples.invited) as Hinv.
  { intros a Ha. apply list_elem_of_singleton in Ha. subst a.
    exists Examples.carol_pending. split; [apply list_elem_of_here | reflexivity]. }
  destruct pending_admin_users_have_pending_users as [Hsave Hdelete]. split.
  - destruct (Hsave Examples.carol_admin Examples.invited Hinv) as (w' & Hrun & _ & _ & _ & Hinv' & _).
    { apply NoDup_singleton. }
    exists w'. split; [exact Hrun|]. split; [|exact Hinv'].
    vm_compute in Hrun. injection Hrun as <-. reflexivity.
  - destruct (Hdelete Examples.carol_admin Examples.invited Hinv) as (w' & Hrun & _ & _ & Hinv' & _).
    { apply NoDup_singleton. }
    { apply list_elem_of_here. }
    exists w'. split; [exact Hrun|]. split; [|exact Hinv'].
    vm_compute in Hrun. injection Hrun as <-. reflexivity.
Defined.

(** *** The logo of a branding configuration *)

Lemma skip_saving_logo_file_with_id instance :
  truthy_id (id instance) = true → skip_saving_logo_file instance = instance.
Proof. intros H. unfold skip_saving_logo_file. by rewrite H. Qed.

Lemma save_existing_branding_configuration instance pk depth w :
  id instance = Some pk →
  truthy_id (Some pk) = true →
  is_Some (branding_configurations w !! pk) ∨ unsaved_filefield instance = None →
  save_branding_configuration (S depth) instance w
  = (inl instance,
     with_branding_configurations (<[pk := logo instance]> (branding_configurations w)) w).
Proof.
  intros Hid Ht Hor. simpl.
  rewrite skip_saving_logo_file_with_id by by rewrite Hid.
  unfold write_branding_configuration, set_branding_configurations. run_M.
  rewrite Hid. cbn [fst snd]. unfold save_logo_file.
  destruct Hor as [Hrow|Hattr].
  - rewrite (bool_decide_eq_true_2 _ Hrow). by destruct (unsaved_filefield instance).
  - by rewrite Hattr.
Qed.

(** C9. A configuration fresh from the constructor has its logo stashed
    and blanked by [skip_saving_logo_file], and [save] (which may nest
    once) returns it with the logo it was given, stored under its new,
    nonzero id.  For an instance with an id, [skip_saving_logo_file]
    changes nothing, [save_logo_file] changes nothing on an update, and
    saving an instance whose row exists stores its logo as it is. *)
Theorem logo_survives_first_save :
  (∀ file depth w,
     (2 ≤ depth)%nat →
     skip_saving_logo_file (new_branding_configuration file)
     = {| id := None; logo := None; unsaved_filefield := Some file |}
     ∧ (∀ save pk,
          save_logo_file save {| id := Some pk; logo := None; unsaved_filefield := Some file |}
            true w
          = save {| id := Some pk; logo := file; unsaved_filefield := None |} w)
     ∧ ∃ pk,
         pk ≠ 0
         ∧ save_branding_configuration depth (new_branding_configuration file) w
           = (inl {| id := Some pk; logo := file; unsaved_filefield := None |},
              with_branding_configurations (<[pk := file]> (branding_configurations w)) w)
         ∧ branding_configurations
             (save_branding_configuration depth (new_branding_configuration file) w).2 !! pk
           = Some file)
  ∧ (∀ instance,
       truthy_id (id instance) = true →
       skip_saving_logo_file instance = instance
       ∧ (∀ save w, save_logo_file save instance false w = (inl instance, w))
       ∧ (∀ pk depth w,
            id instance = Some pk →
            is_Some (branding_configurations w !! pk) →
            save_branding_configuration (S depth) instance w
            = (inl instance,
               with_branding_configurations
                 (<[pk := logo instance]> (branding_configurations w)) w))).
Proof.
  split.
  - intros file depth w Hdepth. split; [done|]. split; [done|].
    destruct depth as [|[|depth]]; [lia|lia|].
    set (pk := next_pk (elements (dom (branding_configurations w)))).
    exists pk. split; [done|].
    assert (save_branding_configuration (S (S depth)) (new_branding_configuration file) w
            = (inl {| id := Some pk; logo := file; unsaved_filefield := None |},
               with_branding_configurations (<[pk := file]> (branding_configurations w)) w))
      as Hrun.
    { change (save_branding_configuration (S (S depth)) (new_branding_configuration file) w)
        with (save_branding_configuration (S depth)
                {| id := Some pk; logo := file; unsaved_filefield := None |}
                (with_branding_configurations
                   (<[pk := None]> (branding_configurations w)) w)).
      rewrite (save_existing_branding_configuration _ pk); [|done|done|by right].
      cbn [branding_configurations with_branding_configurations logo].
      rewrite insert_insert_eq. done. }
    split; [exact Hrun|]. rewrite Hrun. simpl. apply lookup_insert_eq.
  - intros instance Ht. split; [by apply skip_saving_logo_file_with_id|]. split.
    + intros save w. unfold save_logo_file. by destruct (unsaved_filefield instance).
    + intros pk depth w Hid Hrow.
      apply save_existing_branding_configuration; [done| |by left].
      by rewrite <- Hid.
Qed.

Lemma logo_survives_first_save_witness :
  (∃ pk,
    pk ≠ 0
    ∧ save_branding_configuration 2 (new_branding_configuration (Some "logo.png"))
        (Examples.quiet true)
      = (inl {| id := Some pk; logo := Some "logo.png"; unsaved_filefield := None |},
         with_branding_configurations
           (<[pk := Some "logo.png"]> (branding_configurations (Examples.quiet true)))
           (Examples.quiet true))
    ∧ branding_configurations
        (save_branding_configuration 2 (new_branding_configuration (Some "logo.png"))
           (Examples.quiet true)).2 !! pk
      = Some (Some "logo.png"))
  ∧ skip_saving_logo_file Examples.stored_configuration = Examples.stored_configuration
  ∧ save_branding_configuration 1 Examples.stored_configuration Examples.branded
    = (inl Examples.stored_configuration,
       with_branding_configurations
         (<[5 := Some "new.png"]> (branding_configurations Examples.branded))
         Examples.branded).
Proof.
  destruct logo_survives_first_save as [Hnew Hold].
  split; [|split].
  - apply (Hnew (Some "logo.png") 2 (Examples.quiet true)). lia.
  - apply (Hold Examples.stored_configuration). reflexivity.
  - apply (Hold Examples.stored_configuration); [reflexivity | reflexivity |].
    exists (Some "old.png"). reflexivity.
Defined.

(** *** The course enrollment receiver *)

Lemma enrollment_receiver_defers instance u w ecu rest :
  enrollment_user instance = Some u →
  objects_filter (λ e, bool_decide (ecu_user_id e = user_id u) && active e)
    (enterprise_customer_users w) = ecu :: rest →
  create_enterprise_enrollment_receiver instance true w
  = (inl tt,
     extend_trace
       ((if (1 <? length (ecu :: rest))%nat
         then [logger_warning
                 (SeveralActiveEnterpriseCustomerUsers (user_id u)
                    (enrollment_course_id instance))]
         else [])
        ++ [transaction_on_commit
              (submit_task (enrollment_course_id instance) (ecu_pk ecu)
                 (default DEFAULT_COUNTDOWN (CREATE_ENTERPRISE_ENROLLMENT_TASK_COUNTDOWN w)))])
       w).
Proof.
  intros Hu Hf. unfold create_enterprise_enrollment_receiver, when, emit.
  rewrite Hu. run_M. rewrite Hf. cbn [head].
  destruct (1 <? length (ecu :: rest))%nat; cbn [extend_trace CREATE_ENTERPRISE_ENROLLMENT_TASK_COUNTDOWN];
    rewrite ?receiver_trace_app; done.
Qed.

Lemma enrollment_receiver_idle instance created w :
  created = false
  ∨ enrollment_user instance = None
  ∨ (∃ u, enrollment_user instance = Some u
          ∧ objects_filter (λ e, bool_decide (ecu_user_id e = user_id u) && active e)
              (enterprise_customer_users w) = []) →
  create_enterprise_enrollment_receiver instance created w = (inl tt, w).
Proof.
  unfold create_enterprise_enrollment_receiver.
  intros [->|[->|(u & -> & Hf)]]; [by destruct (enrollment_user instance) | done |].
  destruct created; [|done]. run_M. by rewrite Hf.
Qed.

Lemma run_on_commit_run user course ecu_id countdown w :
  run_on_commit user (submit_task course ecu_id countdown) w
  = (inl tt,
     extend_trace
       [logger_info (SpinningOffTask user);
        apply_async (create_enterprise_enrollment course ecu_id) (Some countdown)] w).
Proof. unfold run_on_commit, emit. run_M. by rewrite receiver_trace_app. Qed.

End SignalsSpec.

(** ** Across the handlers *)

(** C4, as the code has it.  One event may cause several outbound
    requests.  [update_enterprise_catalog_data] sends three when the
    client is connected and the query is answered (the query, the create
    or update, the refresh) and none when the client is not connected;
    [delete_enterprise_catalog_data] sends one when the client is
    connected and none otherwise; [_enroll_users], when it runs to its
    end, has sent one enrollment request for each email that has an
    account. *)
Theorem requests_per_event :
  (∀ instance created w response,
     Signals.catalog_client_connected w = true →
     Signals.catalog_service w (Signals.catalog_uuid instance) (negb created) = inl response →
     ∃ es, Signals.update_enterprise_catalog_data instance created w
           = (inl tt, Signals.extend_trace es w)
           ∧ Signals.requests es = 3)
  ∧ (∀ instance created w,
       Signals.catalog_client_connected w = false →
       ∃ es, Signals.update_enterprise_catalog_data instance created w
             = (inl tt, Signals.extend_trace es w)
             ∧ Signals.requests es = 0)
  ∧ (∀ instance w,
       ∃ es, Signals.delete_enterprise_catalog_data instance w
             = (inl tt, Signals.extend_trace es w)
             ∧ Signals.requests es = if Signals.catalog_client_connected w then 1 else 0)
  ∧ (∀ customer emails course mode w,
       (∀ addr, addr ∈ emails → Views.foreseen w course mode addr = true) →
       (∀ addr, addr ∈ emails → Views.has_no_account w addr = true →
          ∃ p, Views.pending_user_of w customer addr = Django.Found p) →
       NoDup (Views.pending_enrollments w) →
       ∃ rows es,
         Views._enroll_users customer emails course mode w
         = (inl tt, Views.with_pending_enrollments rows (Views.extend_trace es w))
         ∧ Views.requests es = length (List.filter (Views.has_account w) emails)).
Proof.
  split; [|split; [|split]].
  - intros instance created w response Hc Hs. eexists. split.
    + by apply SignalsSpec.update_catalog_connected.
    + by destruct response.
  - intros instance created w Hc. eexists. split.
    + by apply SignalsSpec.update_catalog_disconnected.
    + done.
  - intros instance w. eexists. split; [apply SignalsSpec.delete_catalog_run|].
    unfold Signals.orphan_audit, Signals.requests.
    by destruct (Signals.catalog_client_connected w), (existsb _ _).
  - intros customer emails course mode w Hfore Hpend Hnd.
    destruct (ViewsSpec.enroll_users_run customer emails course mode w Hfore Hpend Hnd)
      as (rows & Hrun & _).
    eexists rows, _. split; [exact Hrun|].
    unfold Views.requests. rewrite List.filter_app, length_app.
    fold (Views.requests (flat_map (Views.email_effects w course mode) emails)).
    rewrite ViewsSpec.enroll_requests.
    match goal with
    | |- (_ + length (List.filter Views.is_http ?es) = _)%nat =>
        change (length (List.filter Views.is_http es)) with (Views.requests es)
    end.
    rewrite ViewsSpec.enroll_messages_no_request. lia.
Qed.

Lemma requests_per_event_witness :
  (∃ es, Signals.update_enterprise_catalog_data Examples.catalog true (Examples.quiet true)
         = (inl tt, Signals.extend_trace es (Examples.quiet true))
         ∧ Signals.requests es = 3)
  ∧ (∃ rows es,
       Views._enroll_users Examples.acme
         ["alice@example.org"; "carol@example.org"; "bob@example.org"]
         "course-v1:edX+DemoX" "audit" Examples.campus
       = (inl tt, Views.with_pending_enrollments rows (Views.extend_trace es Examples.campus))
       ∧ Views.requests es = 2).
Proof.
  destruct requests_per_event as (Hsave & _ & _ & Henroll). split.
  - exact (Hsave Examples.catalog true (Examples.quiet true) false eq_refl eq_refl).
  - apply (Henroll Examples.acme
             ["alice@example.org"; "carol@example.org"; "bob@example.org"]
             "course-v1:edX+DemoX" "audit" Examples.campus).
    + intros addr Hin. repeat (apply elem_of_cons in Hin as [->|Hin]); [reflexivity..|].
      by apply elem_of_nil in Hin.
    + intros addr Hin. repeat (apply elem_of_cons in Hin as [->|Hin]).
      * discriminate.
      * intros _. exists Examples.carol_pending. reflexivity.
      * discriminate.
      * by apply elem_of_nil in Hin.
    + constructor.
Defined.

(** C4 fails as stated: one save of a catalog sends three requests. *)
Lemma catalog_save_sends_three_requests :
  ∃ w', Signals.update_enterprise_catalog_data Examples.catalog true (Examples.quiet true)
        = (inl tt, w')
        ∧ Signals.trace w'
          = [Signals.http (Signals.get_enterprise_catalog "c0ffee" false);
             Signals.http (Signals.create_enterprise_catalog "c0ffee"
                             (Signals.fields_of Examples.catalog));
             Signals.http (Signals.refresh_catalogs ["c0ffee"])]
        ∧ Signals.requests (Signals.trace w') = 3.
Proof. eexists. split; [vm_compute; reflexivity|]. split; reflexivity. Qed.




(** C10, as the code has it.  Bulk linking is sequential: all it does
    is add form errors, call [link_user] and report messages.  The course
    enrollment receiver is not: for a created enrollment whose user has
    an active enterprise customer user, it hands [transaction.on_commit]
    a callback that, at commit, submits the asynchronous task
    [create_enterprise_enrollment] with a countdown of
    [CREATE_ENTERPRISE_ENROLLMENT_TASK_COUNTDOWN], 3 seconds by default.
    In every other case the receiver does nothing. *)
Theorem enrollment_task_is_deferred :
  (∀ validate customer csv w,
     ∃ r es, Views._handle_bulk_upload validate customer csv w = (r, Views.extend_trace es w)
             ∧ ∀ e, e ∈ es →
                 Views.is_link_user e || Views.is_form_add_error e || Views.is_message e
                 = true)
  ∧ (∀ instance u w ecu rest,
       Signals.enrollment_user instance = Some u →
       Django.objects_filter
         (λ e, bool_decide (Signals.ecu_user_id e = Models.user_id u) && Signals.active e)
         (Signals.enterprise_customer_users w) = ecu :: rest →
       let countdown :=
         default Signals.DEFAULT_COUNTDOWN
           (Signals.CREATE_ENTERPRISE_ENROLLMENT_TASK_COUNTDOWN w) in
       let f := Signals.submit_task (Signals.enrollment_course_id instance)
                  (Signals.ecu_pk ecu) countdown in
       (∃ es, Signals.create_enterprise_enrollment_receiver instance true w
              = (inl tt, Signals.extend_trace (es ++ [Signals.transaction_on_commit f]) w)
              ∧ ∀ e, e ∈ es → Signals.is_deferred e = false)
       ∧ ∀ w', Signals.run_on_commit (Models.user_id u) f w'
               = (inl tt,
                  Signals.extend_trace
                    [Signals.logger_info (Signals.SpinningOffTask (Models.user_id u));
                     Signals.apply_async
                       (Signals.create_enterprise_enrollment
                          (Signals.enrollment_course_id instance) (Signals.ecu_pk ecu))
                       (Some countdown)] w'))
  ∧ (∀ instance created w,
       created = false
       ∨ Signals.enrollment_user instance = None
       ∨ (∃ u, Signals.enrollment_user instance = Some u
               ∧ Django.objects_filter
                   (λ e, bool_decide (Signals.ecu_user_id e = Models.user_id u)
                         && Signals.active e)
                   (Signals.enterprise_customer_users w) = []) →
       Signals.create_enterprise_enrollment_receiver instance created w = (inl tt, w)).
Proof.
  split; [|split].
  - intros validate customer csv w.
    pose proof (ViewsSpec.bulk_upload_run validate customer csv w) as Hrun. cbv zeta in Hrun.
    destruct (Views.nonempty (Views.errors (Views.bulk_validate validate csv)));
      eexists _, _; (split; [exact Hrun|]); intros e.
    + intros [->|(x & -> & _)%list_elem_of_fmap]%elem_of_cons; done.
    + rewrite !elem_of_app.
      intros [(x & -> & _)%list_elem_of_fmap|[Hin|[Hin|Hin]]]; [done| | |].
      * apply list_elem_of_singleton in Hin. by subst e.
      * destruct (Views.nonempty (Views.already_linked_emails _));
          [|by apply elem_of_nil in Hin].
        apply list_elem_of_singleton in Hin. by subst e.
      * destruct (Views.nonempty (Views.duplicate_emails _));
          [|by apply elem_of_nil in Hin].
        apply list_elem_of_singleton in Hin. by subst e.
  - intros instance u w ecu rest Hu Hf countdown f. split.
    + eexists. split; [by apply SignalsSpec.enrollment_receiver_defers|].
      intros e He. destruct (1 <? _)%nat; [|by apply elem_of_nil in He].
      apply list_elem_of_singleton in He. by subst e.
    + intros w'. apply SignalsSpec.run_on_commit_run.
  - apply SignalsSpec.enrollment_receiver_idle.
Qed.

Lemma enrollment_task_is_deferred_witness :
  (∃ es, Signals.create_enterprise_enrollment_receiver Examples.alice_enrollment true
           Examples.invited
         = (inl tt,
            Signals.extend_trace
              (es ++ [Signals.transaction_on_commit
                        (Signals.submit_task "course-v1:edX+DemoX" 11 3)])
              Examples.invited)
         ∧ ∀ e, e ∈ es → Signals.is_deferred e = false)
  ∧ Signals.create_enterprise_enrollment_receiver Examples.alice_enrollment false
      Examples.invited
    = (inl tt, Examples.invited).
Proof.
  destruct enrollment_task_is_deferred as (_ & Hdefer & Hidle). split.
  - apply (Hdefer Examples.alice_enrollment Examples.alice Examples.invited
             Examples.alice_at_acme []); reflexivity.
  - apply Hidle. by left.
Defined.

(** C10 fails as stated: the receiver defers work to the commit, and
    the deferred callback schedules an asynchronous task with a
    countdown. *)
Lemma enrollment_receiver_schedules_task :
  ∃ w', Signals.create_enterprise_enrollment_receiver Examples.alice_enrollment true
          Examples.invited = (inl tt, w')
        ∧ Signals.trace w'
          = [Signals.transaction_on_commit (Signals.submit_task "course-v1:edX+DemoX" 11 3)]
        ∧ existsb Signals.is_deferred (Signals.trace w') = true
        ∧ Signals.trace
            (Signals.run_on_commit 1 (Signals.submit_task "course-v1:edX+DemoX" 11 3) w').2
          = [Signals.transaction_on_commit (Signals.submit_task "course-v1:edX+DemoX" 11 3);
             Signals.logger_info (Signals.SpinningOffTask 1);
             Signals.apply_async
               (Signals.create_enterprise_enrollment "course-v1:edX+DemoX" 11) (Some 3)].
Proof.
  eexists. split; [vm_compute; reflexivity|]. split; [reflexivity|].
  split; reflexivity.
Qed.

(** ** The linking theorems on sample data *)

(** A CSV with a malformed row links nobody. *)
Lemma bulk_upload_links_nothing_on_error_witness :
  ∃ es,
    Views._handle_bulk_upload Examples.sample_validate Examples.acme Examples.bad_csv
      Examples.nobody
    = (inl None,
       Views.extend_trace
         (Views.form_add_error Views.GENERAL_ERRORS Views.BULK_LINK_FAILED :: es)
         Examples.nobody)
    ∧ es = [Views.form_add_error Views.BULK_UPLOAD
              (Views.LineError 2 "not-an-email is not a valid email")].
Proof.
  destruct (ViewsSpec.bulk_upload_links_nothing_on_error Examples.sample_validate
              Examples.acme Examples.bad_csv Examples.nobody)
    as (es & Hrun & Hes & _).
  - right. exists "not-an-email". split; [|reflexivity].
    apply list_elem_of_further, list_elem_of_here.
  - exists es. split; [exact Hrun|]. rewrite Hes. reflexivity.
Defined.

(** A username that resolves to a fresh email, and a CSV with one
    repeated and one already linked email. *)
Lemma link_learners_witness :
  Views._handle_singular Examples.sample_to_email Examples.sample_validate Examples.acme
    "alice" Examples.nobody
  = (inl (Some ["alice@example.org"]),
     Views.extend_trace [Views.link_user "acme" "alice@example.org"] Examples.nobody)
  ∧ ∃ linked,
      Views._handle_bulk_upload Examples.sample_validate Examples.acme Examples.good_csv
        Examples.nobody
      = (inl (Some (linked ++ ["dana@example.org"])),
         Views.extend_trace
           ((Views.link_user "acme" <$> linked)
            ++ [Views.messages_success (Views.UsersLinked (length linked) "Acme")]
            ++ [Views.messages_warning (Views.AlreadyLinked ["dana@example.org"])]
            ++ [Views.messages_warning (Views.DuplicatesIgnored ["erin@example.org"])])
           Examples.nobody)
      ∧ NoDup linked
      ∧ linked ++ ["erin@example.org"]
        ≡ₚ ["erin@example.org"; "erin@example.org"; "frank@example.org"]
      ∧ length linked + 1 + 1 = 4.
Proof.
  destruct (ViewsSpec.link_learners Examples.sample_to_email Examples.sample_validate)
    as [Hsingle Hbulk].
  split.
  - apply (Hsingle Examples.acme "alice" Examples.nobody false). reflexivity.
  - destruct (Hbulk Examples.acme Examples.good_csv Examples.nobody)
      as (linked & Hrun & Hnd & _ & _ & Hperm & Hlen).
    + reflexivity.
    + intros addr Hin. repeat (apply elem_of_cons in Hin as [->|Hin]); [reflexivity..|].
      by apply elem_of_nil in Hin.
    + exists linked. split; [exact Hrun|]. split; [exact Hnd|].
      split; [exact Hperm | exact Hlen].
Defined.

(** * Further properties of the admin view *)

Module ViewsExtra.
Import Django Models Views.

Section Linking.
Variable validate_email_to_link : string → bool → string + bool.

Abbreviation bulk_rows := (bulk_rows validate_email_to_link).
Abbreviation bulk_validate := (bulk_validate validate_email_to_link).
Abbreviation _handle_bulk_upload := (_handle_bulk_upload validate_email_to_link).
Abbreviation is_new := (is_new validate_email_to_link).
Abbreviation is_already_linked := (is_already_linked validate_email_to_link).
Abbreviation is_rejected := (is_rejected validate_email_to_link).

Lemma bulk_rows_line_errors index addrs ls n message :
  LineError n message ∈ errors (bulk_rows index addrs ls)
  ↔ LineError n message ∈ errors ls
    ∨ ∃ i addr, n = index + i + 1 ∧ addrs !! i = Some addr
                ∧ validate_email_to_link addr true = inl message.
Proof.
  revert index ls. induction addrs as [|a addrs IH]; intros index ls; simpl.
  - split; [by left|]. intros [?|(i & addr & _ & Hi & _)]; [done|]. by destruct i.
  - rewrite IH. unfold bulk_row. split.
    + intros [Hin|(i & addr & -> & Hi & Hv)].
      * destruct (validate_email_to_link a true) as [msg|[|]] eqn:Hv; simpl in Hin.
        -- apply elem_of_app in Hin as [?|Hin]; [by left|].
           apply list_elem_of_singleton in Hin. injection Hin as -> ->.
           right. exists 0, a. split; [lia|done].
        -- by left.
        -- destruct (bool_decide (a ∈ emails ls)); by left.
      * right. exists (S i), addr. split; [lia|done].
    + intros [Hin|(i & addr & -> & Hi & Hv)].
      * left. destruct (validate_email_to_link a true) as [msg|[|]]; simpl.
        -- apply elem_of_app. by left.
        -- done.
        -- by destruct (bool_decide (a ∈ emails ls)).
      * destruct i as [|i]; simpl in Hi.
        -- injection Hi as ->. left. rewrite Hv. simpl.
           apply elem_of_app. right. apply list_elem_of_singleton. f_equal. lia.
        -- right. exists i, addr. split; [lia|done].
Qed.

Lemma bulk_rows_field_errors index addrs ls message :
  FieldError message ∈ errors (bulk_rows index addrs ls) ↔ FieldError message ∈ errors ls.
Proof.
  revert index ls. induction addrs as [|a addrs IH]; intros index ls; simpl; [done|].
  rewrite IH. unfold bulk_row.
  destruct (validate_email_to_link a true) as [msg|[|]]; simpl; [|done|].
  - rewrite elem_of_app, list_elem_of_singleton. split; [|by left].
    intros [?|?]; [done|discriminate].
  - by destruct (bool_decide (a ∈ emails ls)).
Qed.

(** X1. The errors [_handle_bulk_upload] collects name the rows by their
    position among the data rows, counted from 1: the form gets
    "Error at line n" with a message exactly when the n-th row's email is
    rejected with that message, and gets the parser's message exactly
    when the parser raised it. *)
Theorem bulk_errors_name_their_rows csv n message :
  (LineError n message ∈ errors (bulk_validate csv)
   ↔ ∃ i addr, n = i + 1 ∧ rows csv !! i = Some addr
               ∧ validate_email_to_link addr true = inl message)
  ∧ (FieldError message ∈ errors (bulk_validate csv) ↔ csv_error csv = Some message)
  ∧ BULK_LINK_FAILED ∉ errors (bulk_validate csv).
Proof.
  assert (∀ index addrs ls,
            BULK_LINK_FAILED ∈ errors (bulk_rows index addrs ls)
            → BULK_LINK_FAILED ∈ errors ls) as Hnever.
  { intros index addrs. revert index. induction addrs as [|a addrs IH]; intros index ls;
      simpl; [done|].
    intros Hin%IH. unfold bulk_row in Hin.
    destruct (validate_email_to_link a true) as [msg|[|]]; simpl in Hin; [|done|].
    - apply elem_of_app in Hin as [?|Hin]; [done|].
      apply list_elem_of_singleton in Hin. discriminate.
    - by destruct (bool_decide (a ∈ emails ls)). }
  unfold Views.bulk_validate. destruct (csv_error csv) as [msg|]; simpl.
  - split; [|split].
    + rewrite elem_of_app, bulk_rows_line_errors. simpl. split.
      * intros [[Hin|(i & addr & -> & Hi & Hv)]|Hin].
        -- by apply elem_of_nil in Hin.
        -- by exists i, addr.
        -- apply list_elem_of_singleton in Hin. discriminate.
      * intros (i & addr & -> & Hi & Hv). left. right. by exists i, addr.
    + rewrite elem_of_app, bulk_rows_field_errors, list_elem_of_singleton. simpl. split.
      * intros [Hin|Heq]; [by apply elem_of_nil in Hin|]. by injection Heq as ->.
      * intros Heq. injection Heq as ->. by right.
    + intros [Hin%Hnever|Hin]%elem_of_app.
      * by apply elem_of_nil in Hin.
      * apply list_elem_of_singleton in Hin. discriminate.
  - split; [|split].
    + rewrite bulk_rows_line_errors. simpl. split.
      * intros [Hin|(i & addr & -> & Hi & Hv)]; [by apply elem_of_nil in Hin|].
        by exists i, addr.
      * intros (i & addr & -> & Hi & Hv). right. by exists i, addr.
    + rewrite bulk_rows_field_errors. simpl. split; [|done].
      intros Hin. by apply elem_of_nil in Hin.
    + intros Hin%Hnever. by apply elem_of_nil in Hin.
Qed.

Lemma occurrences_app a (l1 l2 : list string) :
  occurrences a (l1 ++ l2) = occurrences a l1 + occurrences a l2.
Proof. unfold occurrences. by rewrite List.filter_app, length_app. Qed.

Lemma occurrences_absent a (l : list string) : a ∉ l → occurrences a l = 0.
Proof.
  unfold occurrences. induction l as [|x l IH]; [done|].
  intros Hnot. apply not_elem_of_cons in Hnot as [Hne Hnot]. simpl.
  rewrite bool_decide_eq_false_2 by done. by apply IH.
Qed.

Lemma occurrences_NoDup a (l : list string) : NoDup l → a ∈ l → occurrences a l = 1.
Proof.
  induction 1 as [|x l Hx Hnd IH]; [by intros ?%elem_of_nil|].
  intros Hin. unfold occurrences. simpl. case_bool_decide as Heq.
  - subst x. simpl. f_equal. by apply occurrences_absent.
  - apply elem_of_cons in Hin as [->|Hin]; [done|]. by apply IH.
Qed.

Lemma occurrences_filter (p : string → bool) a (l : list string) :
  occurrences a (List.filter p l) = if p a then occurrences a l else 0.
Proof.
  unfold occurrences. induction l as [|x l IH]; simpl; [by destruct (p a)|].
  destruct (p x) eqn:Hp; simpl.
  - case_bool_decide as Heq; simpl.
    + subst x. rewrite Hp in *. by rewrite IH.
    + done.
  - case_bool_decide as Heq; simpl; [|done].
    subst x. rewrite Hp in *. done.
Qed.

(** X2. Without validation errors, [_handle_bulk_upload] returns exactly
    the emails of the CSV: the new ones first, once each, then the ones
    linked already as the rows of the CSV have them, in their order.  So
    the returned list holds a new email once and an email that is linked
    already as often as the CSV has it, and it is free of repeats
    exactly when no already-linked email is repeated in the CSV. *)
Theorem bulk_upload_returns_csv_emails customer csv w :
  csv_error csv = None →
  (∀ addr, addr ∈ rows csv → is_rejected addr = false) →
  ∃ linked w',
    let returned := linked ++ List.filter is_already_linked (rows csv) in
    _handle_bulk_upload customer csv w = (inl (Some returned), w')
    ∧ NoDup linked
    ∧ (∀ addr, addr ∈ linked ↔ addr ∈ rows csv ∧ is_new addr = true)
    ∧ (∀ addr, addr ∈ returned ↔ addr ∈ rows csv)
    ∧ (∀ addr, addr ∈ rows csv →
         occurrences addr returned
         = if is_new addr then 1 else occurrences addr (rows csv))
    ∧ (NoDup returned ↔ NoDup (List.filter is_already_linked (rows csv))).
Proof.
  intros Hnone Hall.
  pose proof (ViewsSpec.bulk_upload_run validate_email_to_link customer csv w) as Hrun.
  cbv zeta in Hrun.
  rewrite (proj2 (ViewsSpec.nonempty_false _)) in Hrun
    by (by apply ViewsSpec.bulk_validate_errors_nil).
  assert (bulk_validate csv = bulk_rows 0 (rows csv) no_bulk_lists) as Hls.
  { unfold Views.bulk_validate. by rewrite Hnone. }
  assert (already_linked_emails (bulk_validate csv)
          = List.filter is_already_linked (rows csv)) as Hal.
  { by rewrite Hls, ViewsSpec.bulk_rows_already_linked. }
  assert (∀ addr, addr ∈ elements (emails (bulk_validate csv))
                  ↔ addr ∈ rows csv ∧ is_new addr = true) as Hmem.
  { intros addr. rewrite elem_of_elements, Hls, ViewsSpec.bulk_rows_emails. simpl.
    split; [intros [Hin|Hin]; [by apply elem_of_empty in Hin | done] | by right]. }
  assert (∀ addr, is_new addr = true → is_already_linked addr = false) as Hnew.
  { intros addr. unfold Views.is_new, Views.is_already_linked.
    by destruct (validate_email_to_link addr true) as [?|[|]]. }
  rewrite Hal in Hrun.
  exists (elements (emails (bulk_validate csv))). eexists. cbv zeta.
  split; [exact Hrun|]. split; [apply NoDup_elements|]. split; [exact Hmem|].
  split; [|split].
  - intros addr. rewrite elem_of_app, Hmem, elem_of_List_filter. split.
    + by intros [[? _]|[? _]].
    + intros Hin. specialize (Hall addr Hin).
      unfold Views.is_rejected, Views.is_new, Views.is_already_linked in *.
      destruct (validate_email_to_link addr true) as [?|[|]]; [done | by right | by left].
  - intros addr Hin. rewrite occurrences_app, occurrences_filter.
    destruct (is_new addr) eqn:Hn.
    + rewrite (Hnew _ Hn), Nat.add_0_r.
      apply occurrences_NoDup; [apply NoDup_elements | by apply Hmem].
    + rewrite occurrences_absent by (intros [_ ?]%Hmem; congruence).
      specialize (Hall addr Hin).
      unfold Views.is_rejected, Views.is_new, Views.is_already_linked in *.
      by destruct (validate_email_to_link addr true) as [?|[|]].
  - rewrite NoDup_app. split; [by intros (_ & _ & ?)|].
    intros Hnd. split; [apply NoDup_elements|]. split; [|done].
    intros addr [_ Hn]%Hmem [_ Ha]%elem_of_List_filter.
    by rewrite (Hnew _ Hn) in Ha.
Qed.

End Linking.

(** *** Unlinking *)

(** X3. The delete handler tries to unlink only when the enterprise
    customer exists and the request names an email: a missing customer
    raises [EnterpriseCustomer.DoesNotExist] and a missing [unlink_email]
    raises, both before [unlink_user] is called.  When [unlink_user]
    returns the answer is 200 with an empty JSON object; an exception of
    it other than the two [DoesNotExist] propagates. *)
Theorem delete_calls_unlink_after_its_checks unlink customer_uuid w :
  (get_rows (λ c, bool_decide (uuid c = customer_uuid)) (customers w) = NoneFound →
   ∀ unlink_email,
     delete unlink unlink_email customer_uuid w = (inr (DoesNotExist "EnterpriseCustomer"), w))
  ∧ (∀ customer,
       get_rows (λ c, bool_decide (uuid c = customer_uuid)) (customers w) = Found customer →
       delete unlink None customer_uuid w = (inr (OtherError "MultiValueDictKeyError"), w)
       ∧ ∀ addr,
           (unlink (uuid customer) addr = None →
            delete unlink (Some addr) customer_uuid w
            = (inl {| content := EmptyJson; status := 200 |},
               extend_trace [unlink_user (uuid customer) addr] w))
           ∧ (∀ e, unlink (uuid customer) addr = Some e →
                   e ≠ DoesNotExist "EnterpriseCustomerUser" →
                   e ≠ DoesNotExist "PendingEnterpriseCustomerUser" →
                   delete unlink (Some addr) customer_uuid w
                   = (inr e, extend_trace [unlink_user (uuid customer) addr] w))).
Proof.
  split.
  - intros Hc unlink_email. unfold delete, objects_get. run_M. by rewrite Hc.
  - intros customer Hc. split.
    + unfold delete, objects_get. run_M. by rewrite Hc.
    + intros addr. rewrite (ViewsSpec.delete_run unlink addr customer_uuid customer w Hc).
      split; [by intros ->|]. intros e -> He1 He2.
      by rewrite !bool_decide_eq_false_2.
Qed.

Lemma delete_calls_unlink_after_its_checks_witness :
  delete (λ _ _, None) (Some "carol@example.org") "nobody-inc" Examples.campus
  = (inr (DoesNotExist "EnterpriseCustomer"), Examples.campus)
  ∧ delete (λ _ _, None) (Some "carol@example.org") "acme" Examples.campus
    = (inl {| content := EmptyJson; status := 200 |},
       extend_trace [unlink_user "acme" "carol@example.org"] Examples.campus)
  ∧ delete (λ _ _, Some (OtherError "IntegrityError")) (Some "carol@example.org") "acme"
      Examples.campus
    = (inr (OtherError "IntegrityError"),
       extend_trace [unlink_user "acme" "carol@example.org"] Examples.campus).
Proof.
  split; [|split].
  - apply (proj1 (delete_calls_unlink_after_its_checks (λ _ _, None) "nobody-inc"
                    Examples.campus)). reflexivity.
  - apply (proj2 (delete_calls_unlink_after_its_checks (λ _ _, None) "acme"
                    Examples.campus) Examples.acme); reflexivity.
  - apply (proj2 (delete_calls_unlink_after_its_checks
                    (λ _ _, Some (OtherError "IntegrityError")) "acme" Examples.campus)
             Examples.acme); [reflexivity | reflexivity | discriminate | discriminate].
Defined.

(** *** Enrolling *)

Lemma enroll_email_aborts w course mode a ls :
  (account w a = SeveralFound →
   enroll_email course mode a ls w = (inr (MultipleObjectsReturned "User"), w))
  ∧ (∀ u name,
       account w a = Found u →
       enrollment_api w (username u) course mode = ServerError name →
       enroll_email course mode a ls w
       = (inr (OtherError name),
          extend_trace [enroll_user_in_course (username u) course mode] w))
  ∧ (∀ u body e,
       account w a = Found u →
       enrollment_api w (username u) course mode = ClientError body →
       (body, e) ∈ [(NotText, OtherError "UnicodeDecodeError");
                    (NotJson, JSONDecodeError);
                    (JsonNotObject, OtherError "AttributeError")] →
       enroll_email course mode a ls w
       = (inr e, extend_trace [enroll_user_in_course (username u) course mode] w)).
Proof.
  unfold account, enroll_email, objects_get, call_enroll_user_in_course, emit.
  split; [|split].
  - intros Ha. run_M. by rewrite Ha.
  - intros u name Ha Hapi. run_M. rewrite Ha. simpl. by rewrite Hapi.
  - intros u body e Ha Hapi Hbody. run_M. rewrite Ha. simpl. rewrite Hapi.
    repeat (apply elem_of_cons in Hbody as [Hbody|Hbody];
            [injection Hbody as -> ->; reflexivity|]).
    by apply elem_of_nil in Hbody.
Qed.

(** What [_enroll_users] does after its loop, given what the loop over
    the emails without an account does. *)
Lemma enroll_users_after_loop customer emails course mode w rows' :
  (∀ addr, addr ∈ emails → foreseen w course mode addr = true) →
  let ls := sorted_lists w course mode emails no_lists in
  let es := flat_map (email_effects w course mode) emails
            ++ enroll_messages_before course ls ++ enroll_messages_after ls in
  (∀ w1, pending_enrollments w1 = pending_enrollments w →
         pending_users w1 = pending_users w →
         for_each (non_existing ls) (create_pending_enrollment customer course mode) tt w1
         = (inl tt, with_pending_enrollments rows' w1)) →
  (non_existing ls = [] → rows' = pending_enrollments w) →
  _enroll_users customer emails course mode w
  = (inl tt, with_pending_enrollments rows' (extend_trace es w)).
Proof.
  intros Hfore ls es Hloop Hnone.
  unfold _enroll_users.
  erewrite bind_returned; [|apply (ViewsSpec.enroll_loop_run _ _ _ _ _ Hfore)].
  fold ls. unfold es, enroll_messages_before, enroll_messages_after, Views.when.
  set (w1 := extend_trace (flat_map (email_effects w course mode) emails) w).
  destruct (negb (Nat.eqb (length (enrolled ls)) 0)), (nonempty (non_existing ls)) eqn:Hne,
    (nonempty (failed ls));
    repeat (erewrite bind_returned; [|first [reflexivity | apply Hloop; reflexivity]]);
    try (apply ViewsSpec.nonempty_false in Hne; rewrite (Hnone Hne));
    unfold ret, emit, modify, w1, with_pending_enrollments, extend_trace; simpl;
    rewrite <- ?app_assoc, ?app_nil_r; try done.
Qed.

Lemma pending_loop_exact customer course mode addrs w :
  NoDup (pending_enrollments w) →
  (∀ addr, addr ∈ addrs → ∃ p, pending_user_of w customer addr = Found p) →
  for_each addrs (create_pending_enrollment customer course mode) tt w
  = (inl tt,
     with_pending_enrollments
       (pending_rows_after (pending_users w) customer course mode addrs
          (pending_enrollments w)) w)
  ∧ NoDup (pending_rows_after (pending_users w) customer course mode addrs
             (pending_enrollments w)).
Proof.
  revert w. induction addrs as [|a addrs IH]; intros w Hnd Hall.
  - simpl. by rewrite ViewsSpec.with_pending_enrollments_id.
  - destruct (Hall a (list_elem_of_here _ _)) as [p Hp].
    rewrite for_each_cons.
    rewrite (ViewsSpec.create_pending_enrollment_run customer course mode a w p Hp Hnd).
    simpl. unfold pending_user_of in Hp. rewrite Hp.
    set (table := if bool_decide (pending_row p course mode ∈ pending_enrollments w)
                  then pending_enrollments w
                  else pending_enrollments w ++ [pending_row p course mode]).
    assert (NoDup table) as Hnd1.
    { unfold table. case_bool_decide as Hin; [done|].
      apply NoDup_app. split; [done|]. split; [|apply NoDup_singleton].
      intros x Hx Hx'. apply list_elem_of_singleton in Hx'. by subst x. }
    destruct (IH (with_pending_enrollments table w) Hnd1) as [Hrun Hnd'].
    { intros addr Hin. apply Hall. by apply list_elem_of_further. }
    split; [exact Hrun | exact Hnd'].
Qed.

Lemma pending_rows_after_grows records customer course mode addrs table r :
  r ∈ table → r ∈ pending_rows_after records customer course mode addrs table.
Proof.
  revert table. induction addrs as [|a addrs IH]; intros table Hr; simpl; [done|].
  destruct (get_rows _ records) as [p| |]; [|done|done].
  apply IH. case_bool_decide; [done|]. apply elem_of_app. by left.
Qed.

Lemma pending_rows_after_has records customer course mode addrs table addr p :
  (∀ a, a ∈ addrs →
     ∃ q, get_rows (λ p, bool_decide (enterprise_customer p = uuid customer)
                         && bool_decide (user_email p = a)) records = Found q) →
  addr ∈ addrs →
  get_rows (λ p, bool_decide (enterprise_customer p = uuid customer)
                 && bool_decide (user_email p = addr)) records = Found p →
  pending_row p course mode ∈ pending_rows_after records customer course mode addrs table.
Proof.
  revert table. induction addrs as [|a addrs IH]; intros table Hall Hin Hp;
    [by apply elem_of_nil in Hin|].
  simpl. destruct (Hall a (list_elem_of_here _ _)) as [q Hq]. rewrite Hq.
  apply elem_of_cons in Hin as [->|Hin].
  - rewrite Hq in Hp. injection Hp as ->. apply pending_rows_after_grows.
    case_bool_decide; [done|]. apply elem_of_app. right. apply list_elem_of_here.
  - apply IH; [|done|done]. intros b Hb. apply Hall. by apply list_elem_of_further.
Qed.

Lemma pending_rows_after_settled records customer course mode addrs table :
  (∀ a, a ∈ addrs →
     ∃ q, get_rows (λ p, bool_decide (enterprise_customer p = uuid customer)
                         && bool_decide (user_email p = a)) records = Found q
          ∧ pending_row q course mode ∈ table) →
  pending_rows_after records customer course mode addrs table = table.
Proof.
  induction addrs as [|a addrs IH]; intros Hall; [done|]. simpl.
  destruct (Hall a (list_elem_of_here _ _)) as (q & Hq & Hrow). rewrite Hq.
  rewrite (bool_decide_eq_true_2 _ Hrow). apply IH.
  intros b Hb. apply Hall. by apply list_elem_of_further.
Qed.

(** X4. Enrolling the same emails in the same course a second time
    writes no pending enrollment: under the conditions of a complete run,
    [_enroll_users] run again returns with the table of pending
    enrollments as the first run left it, free of repeated rows; the
    requests, the log records and the messages are issued once more. *)
Theorem enroll_users_again_writes_nothing customer emails course mode w :
  (∀ addr, addr ∈ emails → foreseen w course mode addr = true) →
  (∀ addr, addr ∈ emails → has_no_account w addr = true →
     ∃ p, pending_user_of w customer addr = Found p) →
  NoDup (pending_enrollments w) →
  ∃ w1 w2 es,
    _enroll_users customer emails course mode w = (inl tt, w1)
    ∧ _enroll_users customer emails course mode w1 = (inl tt, w2)
    ∧ trace w1 = trace w ++ es
    ∧ w2 = extend_trace es w1
    ∧ NoDup (pending_enrollments w1).
Proof.
  intros Hfore Hpend Hnd.
  set (ls := sorted_lists w course mode emails no_lists).
  set (rows' := pending_rows_after (pending_users w) customer course mode (non_existing ls)
                  (pending_enrollments w)).
  set (es := flat_map (email_effects w course mode) emails
             ++ enroll_messages_before course ls ++ enroll_messages_after ls).
  assert (∀ addr, addr ∈ non_existing ls → ∃ p, pending_user_of w customer addr = Found p)
    as Hpend'.
  { intros addr [Hin Hno]%elem_of_List_filter. by apply Hpend. }
  assert (NoDup rows') as Hnd'.
  { by apply (pending_loop_exact customer course mode (non_existing ls) w). }
  exists (with_pending_enrollments rows' (extend_trace es w)),
         (extend_trace es (with_pending_enrollments rows' (extend_trace es w))), es.
  split; [|split; [|split; [done|split; [done|done]]]].
  - apply (enroll_users_after_loop customer emails course mode w rows' Hfore).
    + intros w1 He Hp.
      destruct (pending_loop_exact customer course mode (non_existing ls) w1) as [Hrun _].
      * by rewrite He.
      * intros addr Hin. unfold pending_user_of. rewrite Hp. by apply Hpend'.
      * fold ls. rewrite Hrun, He, Hp. done.
    + intros Hnone. fold ls in Hnone. unfold rows'. by rewrite Hnone.
  - set (w1 := with_pending_enrollments rows' (extend_trace es w)).
    change (extend_trace es w1)
      with (with_pending_enrollments rows'
              (extend_trace
                 (flat_map (email_effects w1 course mode) emails
                  ++ enroll_messages_before course (sorted_lists w1 course mode emails no_lists)
                  ++ enroll_messages_after (sorted_lists w1 course mode emails no_lists)) w1)).
    apply (enroll_users_after_loop customer emails course mode w1 rows'); [exact Hfore| |done].
    intros w2 He Hp.
    assert (∀ addr, addr ∈ non_existing ls →
              ∃ q, get_rows (λ p, bool_decide (enterprise_customer p = uuid customer)
                                  && bool_decide (user_email p = addr)) (pending_users w)
                   = Found q
                   ∧ pending_row q course mode ∈ rows') as Hall.
    { intros addr Hin. destruct (Hpend' addr Hin) as [q Hq]. exists q. split; [done|].
      by apply (pending_rows_after_has _ _ _ _ _ _ addr q Hpend' Hin). }
    destruct (pending_loop_exact customer course mode (non_existing ls) w2) as [Hrun _].
    + by rewrite He.
    + intros addr Hin. unfold pending_user_of. rewrite Hp. by apply Hpend'.
    + change (sorted_lists w1 course mode emails no_lists) with ls.
      rewrite Hrun, He, Hp. cbn [pending_enrollments pending_users w1 with_pending_enrollments
                                   extend_trace].
      by rewrite (pending_rows_after_settled _ _ _ _ _ _ Hall).
Qed.

Lemma enroll_users_again_writes_nothing_witness :
  ∃ w1 w2 es,
    _enroll_users Examples.acme
      ["alice@example.org"; "carol@example.org"; "bob@example.org"]
      "course-v1:edX+DemoX" "audit" Examples.campus = (inl tt, w1)
    ∧ _enroll_users Examples.acme
        ["alice@example.org"; "carol@example.org"; "bob@example.org"]
        "course-v1:edX+DemoX" "audit" w1 = (inl tt, w2)
    ∧ trace w1 = trace Examples.campus ++ es
    ∧ w2 = extend_trace es w1
    ∧ NoDup (pending_enrollments w1).
Proof.
  apply (enroll_users_again_writes_nothing Examples.acme
           ["alice@example.org"; "carol@example.org"; "bob@example.org"]
           "course-v1:edX+DemoX" "audit" Examples.campus).
  - intros addr Hin. repeat (apply elem_of_cons in Hin as [->|Hin]); [reflexivity..|].
    by apply elem_of_nil in Hin.
  - intros addr Hin. repeat (apply elem_of_cons in Hin as [->|Hin]).
    + discriminate.
    + intros _. exists Examples.carol_pending. reflexivity.
    + discriminate.
    + by apply elem_of_nil in Hin.
  - constructor.
Defined.

(** X5. [_enroll_users] stops at the first email the loop does not
    provide for: several accounts with the email, an answer of the
    enrollment API that is not a client error, or a client error whose
    body is not a JSON object.  Such a body raises where reading it
    fails: [UnicodeDecodeError] for bytes that are no text,
    [JSONDecodeError] for text that is no JSON, [AttributeError] from
    [.get] for JSON that is no object.  The exception leaves the handler
    after the requests and log records up to that point; no message is
    reported and no pending enrollment is written, also not for the
    emails without an account seen before. *)
Theorem enroll_users_stops_at_unforeseen customer pre a post course mode w :
  (∀ addr, addr ∈ pre → foreseen w course mode addr = true) →
  let sent := flat_map (email_effects w course mode) pre in
  (account w a = SeveralFound →
   _enroll_users customer (pre ++ a :: post) course mode w
   = (inr (MultipleObjectsReturned "User"), extend_trace sent w))
  ∧ (∀ u name,
       account w a = Found u →
       enrollment_api w (username u) course mode = ServerError name →
       _enroll_users customer (pre ++ a :: post) course mode w
       = (inr (OtherError name),
          extend_trace (sent ++ [enroll_user_in_course (username u) course mode]) w))
  ∧ (∀ u body e,
       account w a = Found u →
       enrollment_api w (username u) course mode = ClientError body →
       (body, e) ∈ [(NotText, OtherError "UnicodeDecodeError");
                    (NotJson, JSONDecodeError);
                    (JsonNotObject, OtherError "AttributeError")] →
       _enroll_users customer (pre ++ a :: post) course mode w
       = (inr e,
          extend_trace (sent ++ [enroll_user_in_course (username u) course mode]) w)).
Proof.
  intros Hpre sent.
  assert (∀ e es,
            (∀ ls, enroll_email course mode a ls (extend_trace sent w)
                   = (inr e, extend_trace es (extend_trace sent w))) →
            _enroll_users customer (pre ++ a :: post) course mode w
            = (inr e, extend_trace (sent ++ es) w)) as Hstop.
  { intros e es Ha. unfold _enroll_users, enroll_loop.
    apply bind_raised. rewrite for_each_app.
    rewrite (ViewsSpec.enroll_loop_run _ _ _ _ _ Hpre). fold sent.
    rewrite for_each_cons, Ha, ViewsSpec.extend_trace_app. done. }
  split; [|split].
  - intros Ha.
    replace (extend_trace sent w) with (extend_trace (sent ++ []) w)
      by (by rewrite app_nil_r).
    apply Hstop. intros ls.
    rewrite ViewsSpec.extend_trace_nil.
    by apply (enroll_email_aborts (extend_trace sent w)).
  - intros u name Ha Hapi. apply Hstop. intros ls.
    by apply (enroll_email_aborts (extend_trace sent w)).
  - intros u body e Ha Hapi Hbody. apply Hstop. intros ls.
    by apply (proj2 (proj2 (enroll_email_aborts (extend_trace sent w) course mode a ls))
                u body e).
Qed.

Lemma enroll_users_stops_at_unforeseen_witness :
  _enroll_users Examples.acme
    (["alice@example.org"; "carol@example.org"] ++ "bob@example.org" :: ["alice@example.org"])
    "course-v1:edX+DemoX" "audit" Examples.outage
  = (inr (OtherError "HttpServerError"),
     extend_trace
       ([enroll_user_in_course "alice" "course-v1:edX+DemoX" "audit"]
        ++ [enroll_user_in_course "bob" "course-v1:edX+DemoX" "audit"])
       Examples.outage).
Proof.
  destruct (enroll_users_stops_at_unforeseen Examples.acme
              ["alice@example.org"; "carol@example.org"] "bob@example.org"
              ["alice@example.org"] "course-v1:edX+DemoX" "audit" Examples.outage)
    as (_ & Hserver & _).
  - intros addr Hin. repeat (apply elem_of_cons in Hin as [->|Hin]); [reflexivity..|].
    by apply elem_of_nil in Hin.
  - apply (Hserver Examples.bob "HttpServerError"); reflexivity.
Defined.

Lemma bulk_upload_returns_csv_emails_witness :
  ∃ linked w',
    let returned :=
      linked ++ List.filter (is_already_linked Examples.sample_validate)
                  (rows Examples.good_csv) in
    _handle_bulk_upload Examples.sample_validate Examples.acme Examples.good_csv
      Examples.nobody = (inl (Some returned), w')
    ∧ NoDup linked
    ∧ (∀ addr, addr ∈ linked
               ↔ addr ∈ rows Examples.good_csv
                 ∧ is_new Examples.sample_validate addr = true)
    ∧ (∀ addr, addr ∈ returned ↔ addr ∈ rows Examples.good_csv)
    ∧ (∀ addr, addr ∈ rows Examples.good_csv →
         occurrences addr returned
         = if is_new Examples.sample_validate addr then 1
           else occurrences addr (rows Examples.good_csv))
    ∧ (NoDup returned
       ↔ NoDup (List.filter (is_already_linked Examples.sample_validate)
                  (rows Examples.good_csv))).
Proof.
  apply (ViewsExtra.bulk_upload_returns_csv_emails Examples.sample_validate Examples.acme
           Examples.good_csv Examples.nobody).
  - reflexivity.
  - intros addr Hin. repeat (apply elem_of_cons in Hin as [->|Hin]); [reflexivity..|].
    by apply elem_of_nil in Hin.
Defined.

End ViewsExtra.

(** * Further properties: the learners page *)

Module ManageLearnersSpec.
Import Django Models Views ManageLearners.

(** X6. Searching narrows the listings and never leaves the enterprise
    customer.  Without a keyword both listings hold exactly the rows of
    the customer.  With one, a linked learner is listed exactly when it
    belongs to the customer and some account with its user id matches
    the keyword in its email or username (so a learner whose account is
    gone is listed without a keyword and never found by one), and a
    pending learner exactly when it belongs to the customer and its
    email matches. *)
Theorem search_stays_within_customer icontains keyword customer_uuid ecus users records :
  (∀ e, e ∈ get_enterprise_customer_user_queryset icontains None customer_uuid ecus users
        ↔ e ∈ ecus ∧ uuid (Signals.ecu_enterprise_customer e) = customer_uuid)
  ∧ (∀ e, e ∈ get_enterprise_customer_user_queryset icontains (Some keyword) customer_uuid
              ecus users
          ↔ e ∈ ecus ∧ uuid (Signals.ecu_enterprise_customer e) = customer_uuid
            ∧ ∃ u, u ∈ users ∧ user_id u = Signals.ecu_user_id e
                   ∧ icontains (email u) keyword || icontains (username u) keyword = true)
  ∧ (∀ p, p ∈ get_pending_users_queryset icontains None customer_uuid records
          ↔ p ∈ records ∧ enterprise_customer p = customer_uuid)
  ∧ (∀ p, p ∈ get_pending_users_queryset icontains (Some keyword) customer_uuid records
          ↔ p ∈ records ∧ enterprise_customer p = customer_uuid
            ∧ icontains (user_email p) keyword = true).
Proof.
  unfold get_enterprise_customer_user_queryset, get_pending_users_queryset, objects_filter.
  split; [|split; [|split]].
  - intros e. by rewrite elem_of_List_filter, bool_decide_eq_true.
  - intros e. rewrite !elem_of_List_filter, !bool_decide_eq_true, list_elem_of_fmap.
    split.
    + intros [[He Hc] (u & Hid & Hu)]. split; [done|]. split; [done|].
      apply elem_of_List_filter in Hu as [Hu Hm]. apply andb_true_iff in Hm as [_ Hm].
      by exists u.
    + intros (He & Hc & u & Hu & Hid & Hm). split; [done|].
      exists u. split; [done|]. apply elem_of_List_filter. split; [done|].
      apply andb_true_iff. split; [|done]. apply bool_decide_eq_true.
      apply list_elem_of_fmap. exists e. split; [done|].
      apply elem_of_List_filter. by rewrite bool_decide_eq_true.
  - intros p. by rewrite elem_of_List_filter, bool_decide_eq_true.
  - intros p. rewrite !elem_of_List_filter, bool_decide_eq_true. tauto.
Qed.

Section Post.
Variable email_or_username__to__email : string → string.
Variable validate_email_to_link : string → bool → string + bool.
Variable get_course_runs_from_program : string → list string.
Variable pending_users_after_linking : World → list PendingEnterpriseCustomerUser.

Abbreviation post :=
  (post email_or_username__to__email validate_email_to_link get_course_runs_from_program
     pending_users_after_linking).

Lemma form_errors_since_start w es :
  form_errors_since (length (trace w)) (extend_trace es w)
  = List.filter is_form_add_error es.
Proof. unfold form_errors_since. simpl. by rewrite drop_app_length. Qed.

Lemma links_add_no_form_error customer addrs :
  List.filter is_form_add_error (link_user customer <$> addrs) = [].
Proof. by induction addrs. Qed.

Lemma then_redirect_is_no_form {A} (m : M World A) w w' :
  (m;; mret HttpResponseRedirect) w ≠ (inl rendered_form, w').
Proof. run_M. by destruct (m w) as [[?|?] ?]. Qed.

Lemma is_valid_at_start form w :
  is_valid form (length (trace w)) w = (inl (is_well_formed form), w).
Proof.
  unfold is_valid. run_M.
  replace (form_errors_since (length (trace w)) w) with (@nil effect)
    by (unfold form_errors_since; by rewrite drop_all).
  simpl. by rewrite andb_true_r.
Qed.

(** What the form submission does up to its second validity check. *)
Lemma post_after_linking form customer w (linked : option (list string)) es
    (k : option (list string) → bool → M World response) :
  is_well_formed form = true →
  match mode form with
  | MODE_SINGULAR =>
      _handle_singular email_or_username__to__email validate_email_to_link customer
        (email_or_username form) w
  | MODE_BULK => _handle_bulk_upload validate_email_to_link customer (bulk_upload form) w
  end = (inl linked, extend_trace es w) →
  (linked_learners ←
     (linked ← match mode form with
               | MODE_SINGULAR =>
                   _handle_singular email_or_username__to__email
                     validate_email_to_link customer (email_or_username form)
               | MODE_BULK =>
                   _handle_bulk_upload validate_email_to_link customer
                     (bulk_upload form)
               end;
      records ← gets pending_users_after_linking;
      modify (with_pending_users records);;
      mret linked);
   valid ← is_valid form (length (trace w));
   k linked_learners valid) w
  = k linked (negb (nonempty (List.filter is_form_add_error es)))
      (with_pending_users (pending_users_after_linking (extend_trace es w))
         (extend_trace es w)).
Proof.
  intros Hwf Hrun. run_M. unfold is_valid. run_M.
  destruct (mode form); rewrite Hrun; cbn beta iota;
    change (form_errors_since (length (trace w))
              (with_pending_users (pending_users_after_linking (extend_trace es w))
                 (extend_trace es w)))
      with (form_errors_since (length (trace w)) (extend_trace es w));
    rewrite form_errors_since_start, Hwf; done.
Qed.

(** X7. A submission that ends with the form shown again has linked
    nobody and enrolled nobody: all [post] did was add errors to the
    form.  In particular an ill-formed form changes nothing, and a
    rejected email or a CSV with errors costs no request to the
    enrollment API and no pending enrollment. *)
Theorem form_shown_again_means_nothing_done form customer_uuid w w' :
  post form customer_uuid w = (inl rendered_form, w') →
  ∃ es,
    trace w' = trace w ++ es
    ∧ (∀ e, e ∈ es → is_form_add_error e = true)
    ∧ (is_well_formed form = false → es = [] ∧ w' = w)
    ∧ pending_enrollments w' = pending_enrollments w
    ∧ auth_user w' = auth_user w.
Proof.
  unfold ManageLearners.post. intros Hpost.
  destruct (get_rows (λ c, bool_decide (uuid c = customer_uuid)) (customers w))
    as [customer| |] eqn:Hc;
    [|erewrite bind_raised in Hpost; [done | unfold objects_get; by rewrite Hc]..].
  erewrite bind_returned in Hpost; [|unfold objects_get; by rewrite Hc].
  erewrite bind_returned in Hpost; [|reflexivity].
  erewrite bind_returned in Hpost; [|apply is_valid_at_start].
  destruct (is_well_formed form) eqn:Hwf.
  - assert (∃ linked es,
              match mode form with
              | MODE_SINGULAR =>
                  _handle_singular email_or_username__to__email validate_email_to_link
                    customer (email_or_username form) w
              | MODE_BULK =>
                  _handle_bulk_upload validate_email_to_link customer (bulk_upload form) w
              end = (inl linked, extend_trace es w)
              ∧ (nonempty (List.filter is_form_add_error es) = true →
                 ∀ e, e ∈ es → is_form_add_error e = true)) as (linked & es & Hrun & Hes).
    { destruct (mode form).
      - destruct (validate_email_to_link
                    (email_or_username__to__email (email_or_username form)) false)
          as [message|b] eqn:Hv.
        + eexists _, _. split.
          * by apply ViewsSpec.handle_singular_rejected.
          * intros _ e He. apply list_elem_of_singleton in He. by subst e.
        + eexists _, _. split.
          * by apply (ViewsSpec.handle_singular_links email_or_username__to__email
                        validate_email_to_link _ _ _ b).
          * done.
      - pose proof (ViewsSpec.bulk_upload_run validate_email_to_link customer
                      (bulk_upload form) w) as Hrun. cbv zeta in Hrun.
        destruct (nonempty (errors _)).
        + eexists _, _. split; [exact Hrun|].
          intros _ e [->|(x & -> & _)%list_elem_of_fmap]%elem_of_cons; done.
        + eexists _, _. split; [exact Hrun|].
          rewrite !List.filter_app, links_add_no_form_error. simpl.
          by destruct (nonempty (already_linked_emails _)),
                      (nonempty (duplicate_emails _)). }
    rewrite (post_after_linking form customer w linked es _ Hwf Hrun) in Hpost.
    destruct (nonempty (List.filter is_form_add_error es)) eqn:Hne; cbn beta iota in Hpost.
    + injection Hpost as <-. exists es. split; [done|]. split; [by apply Hes|].
      split; [done|]. done.
    + exfalso. revert Hpost. apply then_redirect_is_no_form.
  - erewrite bind_returned in Hpost; [|reflexivity].
    erewrite bind_returned in Hpost; [|apply is_valid_at_start].
    rewrite Hwf in Hpost. injection Hpost as <-.
    exists []. rewrite app_nil_r. split; [done|]. split; [|done].
    intros e He. by apply elem_of_nil in He.
Qed.

End Post.

Lemma form_shown_again_means_nothing_done_witness :
  ∃ es,
    trace (Examples.sample_post Examples.rejected_form "acme" Examples.campus).2
    = trace Examples.campus ++ es
    ∧ es = [form_add_error EMAIL_OR_USERNAME
              (FieldError "not-an-email is not a valid email")].
Proof.
  destruct (ManageLearnersSpec.form_shown_again_means_nothing_done
              Examples.sample_to_email Examples.sample_validate (λ _, []) pending_users
              Examples.rejected_form "acme" Examples.campus
              (Examples.sample_post Examples.rejected_form "acme" Examples.campus).2)
    as (es & Htrace & _).
  - vm_compute. reflexivity.
  - exists es. split; [exact Htrace|].
    vm_compute in Htrace. symmetry. exact Htrace.
Defined.

End ManageLearnersSpec.

(** * Further properties of the signal receivers *)

Module SignalsExtra.
Import Django Models Signals.

(** X8. The loop over the integrated channels queues the orphaned
    content audit at most once: once when some channel has an active
    configuration for the catalog's enterprise customer, however many
    have one, and not at all otherwise.  Over [INTEGRATED_CHANNELS] it
    is the tail of [delete_enterprise_catalog_data]. *)
Theorem orphan_audit_queued_once instance channels w :
  mark_orphans_loop instance channels w
  = (inl tt,
     extend_trace
       (if existsb
             (λ c, active_channel_configuration w c
                     (uuid (catalog_enterprise_customer instance))) channels
        then [logger_info (OrphanAuditTask (catalog_uuid instance));
              apply_async mark_orphaned_content_metadata_audit None]
        else []) w)
  ∧ (length (List.filter is_orphan_audit
               (drop (length (trace w)) (trace (mark_orphans_loop instance channels w).2)))
     ≤ 1)%nat
  ∧ mark_orphans_loop instance INTEGRATED_CHANNELS w
    = (inl tt, extend_trace (orphan_audit instance w) w).
Proof.
  assert (∀ channels,
            mark_orphans_loop instance channels w
            = (inl tt,
               extend_trace
                 (if existsb
                       (λ c, active_channel_configuration w c
                               (uuid (catalog_enterprise_customer instance))) channels
                  then [logger_info (OrphanAuditTask (catalog_uuid instance));
                        apply_async mark_orphaned_content_metadata_audit None]
                  else []) w)) as Hloop.
  { clear channels. intros channels. induction channels as [|c channels IH].
    - simpl. unfold mret, M_ret, ret. by rewrite SignalsSpec.receiver_trace_nil.
    - cbn [mark_orphans_loop existsb]. unfold emit. run_M.
      destruct (active_channel_configuration w c _); cbn [orb].
      + by rewrite SignalsSpec.receiver_trace_app.
      + exact IH. }
  split; [apply Hloop|]. split; [|apply Hloop].
  rewrite Hloop. cbn [snd trace extend_trace]. rewrite drop_app_length.
  destruct (existsb _ channels); simpl; lia.
Qed.

(** *** Pending admin users *)

Lemma create_pending_enterprise_admin_user_exact instance w :
  pending_keys_unique w →
  create_pending_enterprise_admin_user instance w
  = (inl tt,
     with_pending_users
       (if existsb (same_customer_and_email instance) (pending_users w)
        then pending_users w
        else pending_users w
             ++ [{| pecu_pk := next_pk (pecu_pk <$> pending_users w);
                    enterprise_customer := admin_enterprise_customer instance;
                    user_email := admin_user_email instance |}]) w).
Proof.
  intros Hu.
  assert (w = with_pending_users (pending_users w) w) as Hw by by destruct w.
  unfold create_pending_enterprise_admin_user, set_pending_users. run_M.
  destruct (get_rows (same_customer_and_email instance) (pending_users w)) as [p| |] eqn:Hg.
  - apply SignalsSpec.get_rows_Found in Hg as [Hp Hs].
    assert (existsb (same_customer_and_email instance) (pending_users w) = true) as ->.
    { apply existsb_exists. exists p. split; [by apply list_elem_of_In | done]. }
    by rewrite <- Hw.
  - assert (existsb (same_customer_and_email instance) (pending_users w) = false) as ->.
    { apply not_true_iff_false. intros (p & Hp & Hs)%existsb_exists.
      apply list_elem_of_In in Hp.
      by rewrite (SignalsSpec.get_rows_NoneFound _ _ Hg p Hp) in Hs. }
    done.
  - exfalso.
    pose proof (SignalsSpec.filter_unique_key pending_key (same_customer_and_email instance)
                  (admin_key instance) (pending_users w) Hu
                  (λ a Ha, proj1 (SignalsSpec.same_customer_and_email_key instance a) Ha))
      as Hlen.
    unfold get_rows, objects_filter in Hg.
    destruct (List.filter _ (pending_users w)) as [|? [|? ?]]; [done|done|].
    simpl in Hlen. lia.
Qed.

Lemma filter_keeps_all {A} (f : A → bool) (l : list A) :
  (∀ x, x ∈ l → f x = true) → List.filter f l = l.
Proof.
  induction l as [|x l IH]; intros Hall; [done|]. simpl.
  rewrite (Hall x (list_elem_of_here _ _)). f_equal.
  apply IH. intros y Hy. apply Hall. by apply list_elem_of_further.
Qed.

Lemma filter_after_replacing instance rows :
  List.filter (λ a, negb (bool_decide (admin_pk a = admin_pk instance)))
    ((λ a, if bool_decide (admin_pk a = admin_pk instance) then instance else a) <$> rows)
  = List.filter (λ a, negb (bool_decide (admin_pk a = admin_pk instance))) rows.
Proof.
  induction rows as [|a rows IH]; [done|]. rewrite fmap_cons. simpl.
  destruct (bool_decide (admin_pk a = admin_pk instance)) eqn:Hpk; simpl.
  - rewrite bool_decide_eq_true_2 by done. simpl. exact IH.
  - rewrite Hpk. simpl. by rewrite IH.
Qed.

(** X9. Saving a pending admin user and deleting it again leaves no
    pending user record for its enterprise customer and email, whether
    or not one was there before the save: the pending user table ends
    as the table before without the matching rows.  So it is restored
    exactly when no record matched before, and a learner's earlier
    invitation under the same email is removed with the admin.  The
    pending admin table ends without the rows of that key. *)
Theorem pending_admin_save_then_delete instance w :
  pending_keys_unique w →
  ∃ w1 w2,
    save_pending_admin_user instance w = (inl tt, w1)
    ∧ delete_pending_admin_user instance w1 = (inl tt, w2)
    ∧ pending_users w2
      = objects_filter (λ p, negb (same_customer_and_email instance p)) (pending_users w)
    ∧ ((∀ p, p ∈ pending_users w → same_customer_and_email instance p = false) →
       pending_users w2 = pending_users w)
    ∧ pending_admin_users w2
      = objects_filter (λ a, negb (bool_decide (admin_pk a = admin_pk instance)))
          (pending_admin_users w).
Proof.
  intros Hu.
  set (admins := if existsb (λ a, bool_decide (admin_pk a = admin_pk instance))
                      (pending_admin_users w)
                 then (λ a, if bool_decide (admin_pk a = admin_pk instance)
                            then instance else a) <$> pending_admin_users w
                 else pending_admin_users w ++ [instance]).
  assert (save_pending_admin_user instance w
          = create_pending_enterprise_admin_user instance (with_pending_admin_users admins w))
    as Hsave by reflexivity.
  rewrite Hsave,
    (create_pending_enterprise_admin_user_exact instance
       (with_pending_admin_users admins w) Hu).
  cbn [pending_users with_pending_admin_users].
  set (users1 := if existsb _ (pending_users w) then _ else _).
  eexists _, _. split; [reflexivity|]. split; [reflexivity|].
  cbn [pending_users pending_admin_users with_pending_users with_pending_admin_users].
  assert (objects_filter (λ p, negb (same_customer_and_email instance p)) users1
          = objects_filter (λ p, negb (same_customer_and_email instance p)) (pending_users w))
    as Hfilter.
  { unfold users1, objects_filter. destruct (existsb _ (pending_users w)); [done|].
    rewrite List.filter_app. simpl.
    unfold same_customer_and_email at 2. simpl.
    rewrite !bool_decide_eq_true_2 by done. simpl. by rewrite app_nil_r. }
  split; [exact Hfilter|]. split.
  - intros Hnone. rewrite Hfilter. unfold objects_filter.
    apply filter_keeps_all. intros p Hp. by rewrite (Hnone p Hp).
  - unfold admins, objects_filter.
    destruct (existsb _ (pending_admin_users w)).
    + apply filter_after_replacing.
    + rewrite List.filter_app. simpl. rewrite bool_decide_eq_true_2 by done.
      simpl. by rewrite app_nil_r.
Qed.

Lemma pending_admin_save_then_delete_witness :
  ∃ w1 w2,
    save_pending_admin_user Examples.carol_admin Examples.learner_invited = (inl tt, w1)
    ∧ delete_pending_admin_user Examples.carol_admin w1 = (inl tt, w2)
    ∧ pending_users Examples.learner_invited = [Examples.carol_pending]
    ∧ pending_users w2 = [].
Proof.
  destruct (pending_admin_save_then_delete Examples.carol_admin Examples.learner_invited)
    as (w1 & w2 & Hsave & Hdelete & Husers & _).
  - apply NoDup_singleton.
  - exists w1, w2. split; [exact Hsave|]. split; [exact Hdelete|].
    split; [reflexivity|]. rewrite Husers. reflexivity.
Defined.

End SignalsExtra.

(** * Further properties: the other receivers *)

Module ReceiversSpec.
Import Django Models Signals Receivers.

Lemma extended_by_nil w : Receivers.extend_trace [] w = w.
Proof. destruct w. unfold Receivers.extend_trace. simpl. by rewrite app_nil_r. Qed.

Lemma extended_twice es1 es2 w :
  Receivers.extend_trace es2 (Receivers.extend_trace es1 w)
  = Receivers.extend_trace (es1 ++ es2) w.
Proof. unfold Receivers.extend_trace. simpl. by rewrite app_assoc. Qed.

(** *** The language preference *)

(** X10. Saving an enterprise customer a second time without a change
    resets no learner's language: the second save leaves the world as
    the first left it.  A save whose default language is empty or
    [None] never resets, and a first save resets at most once. *)
Theorem customer_resave_resets_nothing instance w :
  ∃ w1 es,
    save_customer instance w = (inl tt, w1)
    ∧ save_customer instance w1 = (inl tt, w1)
    ∧ Receivers.trace w1 = Receivers.trace w ++ es
    ∧ (es = [] ∨ es = [unset_language_of_all_enterprise_learners (uuid instance)])
    ∧ (truthy_string (default_language instance) = false → es = []).
Proof.
  unfold save_customer, update_lang_pref_of_all_learners.
  destruct (truthy_string (default_language instance)) eqn:Hlang.
  - set (es := match customers w !! uuid instance with
               | None => [unset_language_of_all_enterprise_learners (uuid instance)]
               | Some prev =>
                   if bool_decide (default_language prev ≠ default_language instance)
                   then [unset_language_of_all_enterprise_learners (uuid instance)] else []
               end).
    exists (with_customers (<[uuid instance := instance]> (customers w))
              (Receivers.extend_trace es w)), es.
    split; [|split; [|split; [done|split; [|done]]]].
    + unfold Receivers.emit, es. run_M.
      destruct (customers w !! uuid instance) as [prev|]; [|done].
      destruct (bool_decide _); [done|]. by rewrite extended_by_nil.
    + unfold Receivers.emit. run_M.
      cbn [customers with_customers Receivers.extend_trace].
      rewrite lookup_insert_eq. rewrite bool_decide_eq_false_2 by (intros H; by apply H).
      cbn [customers with_customers]. by rewrite insert_insert_eq.
    + unfold es. destruct (customers w !! uuid instance) as [prev|]; [|by right].
      destruct (bool_decide _); [by right | by left].
  - exists (with_customers (<[uuid instance := instance]> (customers w)) w), [].
    rewrite app_nil_r. split; [done|]. split; [|by repeat split; try left].
    run_M. cbn [customers with_customers]. by rewrite insert_insert_eq.
Qed.

(** *** Course enrollment events *)

(** X11. The two course enrollment receivers address the same
    enterprise enrollment, the first one of the course and the user: an
    unenrollment marks it unenrolled, a later change to an active
    enrollment marks that very record enrolled again.  A change to an
    inactive enrollment does nothing, and neither receiver does anything
    when the user has no enterprise enrollment in the course. *)
Theorem enrollment_events_address_one_record enrollment w :
  (is_active enrollment = false →
   course_enrollment_changed_receiver enrollment w = (inl tt, w))
  ∧ (objects_filter (for_enrollment enrollment) (enterprise_course_enrollments w) = [] →
     course_enrollment_changed_receiver enrollment w = (inl tt, w)
     ∧ enterprise_unenrollment_receiver enrollment w = (inl tt, w))
  ∧ (∀ ece rest,
       objects_filter (for_enrollment enrollment) (enterprise_course_enrollments w)
       = ece :: rest →
       is_active enrollment = true →
       (enterprise_unenrollment_receiver enrollment;;
        course_enrollment_changed_receiver enrollment) w
       = (inl tt,
          Receivers.extend_trace
            [set_unenrolled (ece_pk ece) true; set_unenrolled (ece_pk ece) false] w)).
Proof.
  unfold course_enrollment_changed_receiver, enterprise_unenrollment_receiver,
    Receivers.emit.
  split; [|split].
  - intros Hinactive. run_M. rewrite Hinactive. by destruct (head _).
  - intros Hnone. run_M. by rewrite Hnone.
  - intros ece rest Hsome Hactive. run_M. rewrite Hsome. cbn [head].
    cbn [enterprise_course_enrollments Receivers.extend_trace]. rewrite Hsome, Hactive.
    cbn [head]. by rewrite extended_twice.
Qed.

Lemma enrollment_events_address_one_record_witness :
  (enterprise_unenrollment_receiver MoreExamples.alice_reenrolls;;
   course_enrollment_changed_receiver MoreExamples.alice_reenrolls) MoreExamples.enrolled
  = (inl tt,
     Receivers.extend_trace [set_unenrolled 21 true; set_unenrolled 21 false]
       MoreExamples.enrolled).
Proof.
  apply (proj2 (proj2 (enrollment_events_address_one_record MoreExamples.alice_reenrolls
                         MoreExamples.enrolled))
           {| ece_pk := 21; ece_course_id := "course-v1:edX+DemoX"; ece_user_id := 1 |} []);
    reflexivity.
Defined.

(** *** SSO configurations *)

Lemma default_display_name_inj provider n m :
  default_display_name provider n = default_display_name provider m → n = m.
Proof.
  unfold default_display_name. intros H.
  do 3 apply (inj (String.app _)) in H.
  apply (inj pretty) in H. lia.
Qed.

(** X12. [generate_default_orchestration_record_display_name] names only
    a configuration that is new and has no display name: a stored one
    and a named one pass unchanged.  The default name is decided by the
    provider and by how many configurations the enterprise customer has:
    two new unnamed configurations of one provider get the same name
    exactly when the counts are equal, so a name can repeat after a
    deletion and never repeats while the count grows. *)
Theorem default_display_name_follows_count :
  (∀ instance w,
     Views.nonempty
       (objects_filter (λ r, bool_decide (sso_pk r = sso_pk instance)) (sso_configurations w))
     = true
     ∨ is_Some (display_name instance) →
     generate_default_orchestration_record_display_name instance w = (inl instance, w))
  ∧ (∀ instance1 instance2 w1 w2,
       objects_filter (λ r, bool_decide (sso_pk r = sso_pk instance1)) (sso_configurations w1)
       = [] →
       objects_filter (λ r, bool_decide (sso_pk r = sso_pk instance2)) (sso_configurations w2)
       = [] →
       display_name instance1 = None → display_name instance2 = None →
       identity_provider instance1 = identity_provider instance2 →
       ∃ named1 named2 name1 name2,
         generate_default_orchestration_record_display_name instance1 w1 = (inl named1, w1)
         ∧ generate_default_orchestration_record_display_name instance2 w2 = (inl named2, w2)
         ∧ display_name named1 = Some name1
         ∧ display_name named2 = Some name2
         ∧ (name1 = name2
            ↔ num_records_for_customer (sso_enterprise_customer instance1)
                (sso_configurations w1)
              = num_records_for_customer (sso_enterprise_customer instance2)
                  (sso_configurations w2))).
Proof.
  unfold generate_default_orchestration_record_display_name. split.
  - intros instance w [Hstored|[name Hnamed]]; run_M.
    + by rewrite Hstored.
    + rewrite Hnamed. by destruct (negb _).
  - intros instance1 instance2 w1 w2 Hnew1 Hnew2 Hname1 Hname2 Hprovider.
    eexists _, _, _, _. run_M. rewrite Hnew1, Hnew2, Hname1, Hname2. cbn [Views.nonempty negb].
    split; [reflexivity|]. split; [reflexivity|]. split; [reflexivity|].
    split; [reflexivity|]. rewrite Hprovider. split.
    + apply default_display_name_inj.
    + by intros ->.
Qed.

Lemma default_display_name_follows_count_witness :
  generate_default_orchestration_record_display_name MoreExamples.new_sso
    MoreExamples.enrolled
  = (inl {| sso_pk := "sso-2"; sso_enterprise_customer := "acme";
            identity_provider := Some "okta"; display_name := Some "SSO-config-okta-2" |},
     MoreExamples.enrolled)
  ∧ generate_default_orchestration_record_display_name MoreExamples.stored_sso
      MoreExamples.enrolled
    = (inl MoreExamples.stored_sso, MoreExamples.enrolled).
Proof.
  destruct default_display_name_follows_count as [Hkept Hnamed]. split.
  - destruct (Hnamed MoreExamples.new_sso MoreExamples.new_sso MoreExamples.enrolled
                MoreExamples.enrolled eq_refl eq_refl eq_refl eq_refl eq_refl)
      as (named1 & _ & _ & _ & Hrun & _).
    rewrite Hrun. vm_compute in Hrun. injection Hrun as <-. reflexivity.
  - apply Hkept. left. reflexivity.
Defined.

(** *** A user is saved *)



Section UserSaved.
Variable linked :
  PendingEnterpriseCustomerUser → User → bool → list EnterpriseCustomerUser →
  EnterpriseCustomerUser * list EnterpriseCustomerUser.



End UserSaved.

(** *** Saving catalogs *)

Lemma lift_run {A} (m : M Signals.World A) w r es :
  m (signals w) = (r, Signals.extend_trace es (signals w)) →
  lift m w
  = (r, Receivers.extend_trace (signals_effect <$> es)
          (with_signals (Signals.extend_trace es (signals w)) w)).
Proof.
  intros H. unfold lift. rewrite H. cbn [fst snd Signals.trace Signals.extend_trace].
  by rewrite drop_app_length.
Qed.


Section Catalogs.
Variable is_empty_filter : string → bool.
Variable get_default_catalog_content_filter : string.

Abbreviation save_catalog :=
  (save_catalog is_empty_filter get_default_catalog_content_filter).

(** A save that [default_content_filter] passes: the write, then the
    synchronisation. *)
Lemma save_catalog_plain depth instance w :
  negb (bool_decide (is_Some (catalogs w !! catalog_uuid instance)))
  && is_empty_filter (content_filter instance) = false →
  save_catalog (S depth) instance w
  = (lift (update_enterprise_catalog_data instance
             (negb (bool_decide (is_Some (catalogs w !! catalog_uuid instance)))));;
     mret instance)
      (with_catalogs (<[catalog_uuid instance := instance]> (catalogs w)) w).
Proof.
  intros H. cbn [Receivers.save_catalog]. unfold default_content_filter. run_M.
  rewrite H. done.
Qed.



End Catalogs.

(** *** A catalog query is saved *)

Lemma fold_insert_other {A} (key : A → string) (val : A → EnterpriseCustomerCatalog)
    (l : list A) (T : gmap string EnterpriseCustomerCatalog) k :
  k ∉ key <$> l →
  foldl (λ T c, <[key c := val c]> T) T l !! k = T !! k.
Proof.
  revert T. induction l as [|c l IH]; intros T Hk; [done|]. simpl.
  rewrite fmap_cons in Hk. apply not_elem_of_cons in Hk as [Hne Hk].
  rewrite IH by done. by rewrite lookup_insert_ne.
Qed.

Lemma fold_insert_here {A} (key : A → string) (val : A → EnterpriseCustomerCatalog)
    (l : list A) (T : gmap string EnterpriseCustomerCatalog) c :
  NoDup (key <$> l) → c ∈ l →
  foldl (λ T c, <[key c := val c]> T) T l !! key c = Some (val c).
Proof.
  revert T. induction l as [|d l IH]; intros T Hnd Hc; [by apply elem_of_nil in Hc|].
  rewrite fmap_cons in Hnd. apply NoDup_cons in Hnd as [Hd Hnd]. simpl.
  apply elem_of_cons in Hc as [->|Hc].
  - rewrite fold_insert_other by done. apply lookup_insert_eq.
  - by apply IH.
Qed.

Section QuerySaved.
Variable is_empty_filter : string → bool.
Variable get_default_catalog_content_filter : string.

Abbreviation save_catalog :=
  (Receivers.save_catalog is_empty_filter get_default_catalog_content_filter).
Abbreviation update_enterprise_catalog_query :=
  (Receivers.update_enterprise_catalog_query is_empty_filter
     get_default_catalog_content_filter).

(** One turn of the loop of [update_enterprise_catalog_query] over a
    stored catalog. *)
Lemma resave_catalog depth updated catalog w r :
  is_Some (catalogs w !! catalog_uuid catalog) →
  catalog_client_connected (signals w) = true →
  catalog_service (signals w) (catalog_uuid catalog) true = inl r →
  ∃ w' es,
    (Receivers.emit (logger_info (UpdatingCatalog (catalog_uuid catalog)));;
     save_catalog (S depth) (with_content_filter updated catalog);;
     mret tt) w = (inl tt, w')
    ∧ catalogs w'
      = <[catalog_uuid catalog := with_content_filter updated catalog]> (catalogs w)
    ∧ catalog_client_connected (signals w') = true
    ∧ catalog_service (signals w') = catalog_service (signals w)
    ∧ Receivers.trace w' = Receivers.trace w ++ es
    ∧ length (List.filter is_request es) = 3.
Proof.
  intros Hstored Hc Hr.
  set (saved := with_content_filter updated catalog).
  set (w0 := Receivers.extend_trace [logger_info (UpdatingCatalog (catalog_uuid catalog))] w).
  set (w1 := with_catalogs (<[catalog_uuid catalog := saved]> (catalogs w)) w0).
  pose proof (lift_run (update_enterprise_catalog_data saved false) w1 _ _
                (SignalsSpec.update_catalog_connected saved false (signals w1) r Hc Hr))
    as Hsync.
  eexists _, _. split; [|split; [|split; [|split; [|split]]]].
  - erewrite bind_returned; [|reflexivity]. fold w0.
    erewrite bind_returned; [reflexivity|].
    rewrite save_catalog_plain.
    + cbn [catalogs Receivers.extend_trace w0 catalog_uuid with_content_filter].
      rewrite (bool_decide_eq_true_2 _ Hstored). cbn [negb]. fold saved. fold w1.
      erewrite bind_returned; [reflexivity | exact Hsync].
    + cbn [catalogs Receivers.extend_trace w0 catalog_uuid with_content_filter].
      by rewrite (bool_decide_eq_true_2 _ Hstored).
  - reflexivity.
  - exact Hc.
  - reflexivity.
  - cbn [Receivers.trace Receivers.extend_trace with_signals w1 w0 with_catalogs].
    rewrite <- app_assoc. reflexivity.
  - by destruct r.
Qed.

Lemma resave_catalogs depth updated (l : list EnterpriseCustomerCatalog) w :
  (∀ c, c ∈ l → is_Some (catalogs w !! catalog_uuid c)) →
  catalog_client_connected (signals w) = true →
  (∀ c, c ∈ l → ∃ r, catalog_service (signals w) (catalog_uuid c) true = inl r) →
  ∃ w' es,
    for_each l
      (λ catalog _,
         Receivers.emit (logger_info (UpdatingCatalog (catalog_uuid catalog)));;
         save_catalog (S depth) (with_content_filter updated catalog);;
         mret tt) tt w = (inl tt, w')
    ∧ catalogs w'
      = foldl (λ T c, <[catalog_uuid c := with_content_filter updated c]> T) (catalogs w) l
    ∧ Receivers.trace w' = Receivers.trace w ++ es
    ∧ length (List.filter is_request es) = 3 * length l.
Proof.
  revert w. induction l as [|c l IH]; intros w Hstored Hc Hr.
  - exists w, []. rewrite app_nil_r. done.
  - destruct (Hr c (list_elem_of_here _ _)) as [r Hrc].
    destruct (resave_catalog depth updated c w r (Hstored c (list_elem_of_here _ _)) Hc Hrc)
      as (w1 & es1 & Hstep & Hrows1 & Hc1 & Hs1 & Htrace1 & Hcount1).
    destruct (IH w1) as (w' & es & Hrun & Hrows & Htrace & Hcount).
    + intros d Hd. rewrite Hrows1.
      destruct (decide (catalog_uuid c = catalog_uuid d)) as [->|Hne].
      * rewrite lookup_insert_eq. by eexists.
      * rewrite lookup_insert_ne by done. apply Hstored. by apply list_elem_of_further.
    + exact Hc1.
    + intros d Hd. rewrite Hs1. apply Hr. by apply list_elem_of_further.
    + exists w', (es1 ++ es). split; [|split; [|split]].
      * rewrite for_each_cons, Hstep. exact Hrun.
      * rewrite Hrows, Hrows1. done.
      * rewrite Htrace, Htrace1, <- app_assoc. done.
      * rewrite List.filter_app, length_app, Hcount1, Hcount. simpl. lia.
Qed.

Lemma values_by_key (rows : gmap string EnterpriseCustomerCatalog) :
  keyed_by_uuid rows → catalog_uuid <$> (map_to_list rows).*2 = (map_to_list rows).*1.
Proof.
  intros Hkeyed.
  assert (∀ L : list (string * EnterpriseCustomerCatalog),
            (∀ k c, (k, c) ∈ L → catalog_uuid c = k) → catalog_uuid <$> L.*2 = L.*1) as Hgen.
  { induction L as [|[k c] L IH]; intros HL; [done|]. simpl.
    rewrite (HL k c (list_elem_of_here _ _)). f_equal.
    apply IH. intros k' c' Hin. apply HL. by apply list_elem_of_further. }
  apply Hgen. intros k c Hin. apply Hkeyed. by apply elem_of_map_to_list.
Qed.

Lemma stored_values (rows : gmap string EnterpriseCustomerCatalog) c :
  c ∈ (map_to_list rows).*2 ↔ ∃ k, rows !! k = Some c.
Proof.
  rewrite list_elem_of_fmap. split.
  - intros ([k c'] & -> & Hin). exists k. by apply elem_of_map_to_list.
  - intros [k Hk]. exists (k, c). split; [done|]. by apply elem_of_map_to_list.
Qed.

(** X15. Saving a catalog query carries its content filter to every
    catalog of the query and to no other: afterwards each stored
    catalog of the query has the query's filter (and the query as saved),
    every other catalog is as before, and no catalog is added.  Each
    catalog reached is saved, hence synchronised: with the client
    connected and the queries answered, three requests per catalog. *)
Theorem query_save_reaches_its_catalogs depth instance w :
  keyed_by_uuid (catalogs w) →
  catalog_client_connected (signals w) = true →
  (∀ k c, catalogs w !! k = Some c → of_query instance c = true →
          ∃ r, catalog_service (signals w) k true = inl r) →
  ∃ w' es,
    update_enterprise_catalog_query (S depth) instance w = (inl tt, w')
    ∧ (∀ k, catalogs w' !! k
            = (λ c, if of_query instance c
                    then with_content_filter (query_content_filter instance)
                           (with_catalog_query (query instance) c)
                    else c) <$> catalogs w !! k)
    ∧ Receivers.trace w' = Receivers.trace w ++ es
    ∧ length (List.filter is_request es)
      = 3 * length (List.filter (of_query instance) (map_to_list (catalogs w)).*2).
Proof.
  intros Hkeyed Hc Hservice.
  set (updated := query_content_filter instance).
  set (l := enterprise_customer_catalogs instance (catalogs w)).
  set (w0 := Receivers.extend_trace
               [logger_info (RunningUpdateCatalogQuery (query_uuid (query instance)) updated)]
               w).
  assert (∀ c, c ∈ l ↔ ∃ c0, c = with_catalog_query (query instance) c0
                             ∧ catalogs w !! catalog_uuid c = Some c0
                             ∧ of_query instance c0 = true) as Hl.
  { intros c. unfold l, enterprise_customer_catalogs, objects_filter.
    rewrite list_elem_of_fmap. split.
    - intros (c0 & -> & [Hin Hq]%elem_of_List_filter).
      apply stored_values in Hin as [k Hk]. exists c0. split; [done|].
      cbn [catalog_uuid with_catalog_query]. by rewrite (Hkeyed k c0 Hk).
    - intros (c0 & -> & Hk & Hq). exists c0. split; [done|].
      apply elem_of_List_filter. split; [|done]. apply stored_values. by eexists. }
  assert (NoDup (catalog_uuid <$> l)) as Hnd.
  { unfold l, enterprise_customer_catalogs, objects_filter.
    rewrite <- list_fmap_compose.
    change (catalog_uuid ∘ with_catalog_query (query instance)) with catalog_uuid.
    apply SignalsSpec.NoDup_fmap_filter. rewrite values_by_key by done.
    apply NoDup_fst_map_to_list. }
  destruct (resave_catalogs depth updated l w0)
    as (w' & es & Hrun & Hrows & Htrace & Hcount).
  { intros c (c0 & _ & Hk & _)%Hl. by eexists. }
  { exact Hc. }
  { intros c (c0 & -> & Hk & Hq)%Hl. by apply (Hservice _ c0). }
  exists w', (logger_info (RunningUpdateCatalogQuery (query_uuid (query instance)) updated)
              :: es).
  split; [|split; [|split]].
  - unfold Receivers.update_enterprise_catalog_query. fold updated.
    erewrite bind_returned; [|reflexivity]. fold w0.
    erewrite bind_returned; [|reflexivity]. exact Hrun.
  - intros k. rewrite Hrows. cbn [catalogs w0 Receivers.extend_trace].
    destruct (catalogs w !! k) as [c0|] eqn:Hk; cbn [fmap option_fmap option_map].
    + destruct (of_query instance c0) eqn:Hq.
      * assert (with_catalog_query (query instance) c0 ∈ l) as Hin.
        { apply Hl. exists c0. split; [done|]. cbn [catalog_uuid with_catalog_query].
          by rewrite (Hkeyed k c0 Hk). }
        pose proof (fold_insert_here catalog_uuid (with_content_filter updated) l
                      (catalogs w) _ Hnd Hin) as Hhere.
        cbn [catalog_uuid with_catalog_query] in Hhere.
        by rewrite (Hkeyed k c0 Hk) in Hhere.
      * rewrite fold_insert_other; [done|].
        intros (c & -> & (c1 & -> & Hk1 & Hq1)%Hl)%list_elem_of_fmap.
        cbn [catalog_uuid with_catalog_query] in Hk, Hk1. congruence.
    + rewrite fold_insert_other; [done|].
      intros (c & -> & (c1 & -> & Hk1 & Hq1)%Hl)%list_elem_of_fmap.
      cbn [catalog_uuid with_catalog_query] in Hk, Hk1. congruence.
  - rewrite Htrace. cbn [Receivers.trace w0 Receivers.extend_trace].
    by rewrite <- app_assoc.
  - cbn [List.filter is_request]. rewrite Hcount. f_equal.
    unfold l, enterprise_customer_catalogs, objects_filter. by rewrite length_fmap.
Qed.

End QuerySaved.

(** *** The receivers on sample data *)



Lemma query_save_reaches_its_catalogs_witness :
  ∃ w' es,
    update_enterprise_catalog_query MoreExamples.sample_is_empty_filter
      "content_type=course" 1 MoreExamples.advanced_saved MoreExamples.library
    = (inl tt, w')
    ∧ catalogs w' !! "cafe"
      = Some (with_content_filter "level=advanced" MoreExamples.advanced_catalog)
    ∧ catalogs w' !! "c0ffee" = Some Examples.catalog
    ∧ Receivers.trace w' = Receivers.trace MoreExamples.library ++ es
    ∧ length (List.filter is_request es) = 3.
Proof.
  destruct (query_save_reaches_its_catalogs MoreExamples.sample_is_empty_filter
              "content_type=course" 0 MoreExamples.advanced_saved MoreExamples.library)
    as (w' & es & Hrun & Hrows & Htrace & Hcount).
  - intros k c Hk. cbn [catalogs MoreExamples.library with_catalogs] in Hk.
    apply lookup_insert_Some in Hk as [[<- <-]|[_ Hk]]; [reflexivity|].
    apply lookup_insert_Some in Hk as [[<- <-]|[_ Hk]]; [reflexivity|].
    by rewrite lookup_empty in Hk.
  - reflexivity.
  - intros k c _ _. exists false. reflexivity.
  - exists w', es. split; [exact Hrun|]. split; [|split; [|split]].
    + rewrite Hrows. reflexivity.
    + rewrite Hrows. reflexivity.
    + exact Htrace.
    + rewrite Hcount. vm_compute. reflexivity.
Defined.

End ReceiversSpec.
